(** * homebridge-legrand-radiant: the authentication core and its consumers

    A shallow embedding of [legrandAuth.ts] (class [LegrandAuth]),
    [legrandCloudApi.ts] (class [LegrandCloudApi]) and the polling part of
    [cloudPlatform.ts] (class [LegrandCloudPlatform]).

    Layout: the platform primitives the code calls (SHA-256, base64url,
    JSON), the monad of asynchronous programs, the three classes, and then
    the properties. *)

From Stdlib Require Import ZArith List String Ascii Bool Lia DecimalString.
From Stdlib.Strings Require Import Byte.
From stdpp Require Import base list.
Import ListNotations.
Local Open Scope Z_scope.
Local Open Scope string_scope.

(* ===================================================================== *)
(** * Node's [crypto]: SHA-256 and base64url                              *)
(* ===================================================================== *)

Module Sha256.

  (** 32-bit words are integers in [0, 2^32); additions wrap. *)
Definition w32 : Z := 4294967296.
Definition wrap (x : Z) : Z := x mod w32.
Definition add32 (x y : Z) : Z := wrap (x + y).
Definition rotr (n x : Z) : Z :=
    Z.lor (Z.shiftr x n) (wrap (Z.shiftl x (32 - n))).
Definition shr (n x : Z) : Z := Z.shiftr x n.
Definition not32 (x : Z) : Z := w32 - 1 - x.

Definition Ch (x y z : Z) : Z := Z.lxor (Z.land x y) (Z.land (not32 x) z).
Definition Maj (x y z : Z) : Z :=
    Z.lxor (Z.lxor (Z.land x y) (Z.land x z)) (Z.land y z).
Definition Sigma0 (x : Z) : Z := Z.lxor (Z.lxor (rotr 2 x) (rotr 13 x)) (rotr 22 x).
Definition Sigma1 (x : Z) : Z := Z.lxor (Z.lxor (rotr 6 x) (rotr 11 x)) (rotr 25 x).
Definition sigma0 (x : Z) : Z := Z.lxor (Z.lxor (rotr 7 x) (rotr 18 x)) (shr 3 x).
Definition sigma1 (x : Z) : Z := Z.lxor (Z.lxor (rotr 17 x) (rotr 19 x)) (shr 10 x).

(** The constants, as FIPS 180-4 defines them: the first 32 bits of the
    fractional parts of the cube roots of the first 64 primes, and of the
    square roots of the first 8. *)
Definition is_prime (p : Z) : bool :=
  forallb (fun d => negb (p mod Z.of_nat d =? 0)%Z) (seq 2 (Z.to_nat p - 2)).

Definition primes : list Z :=
  List.filter is_prime (map Z.of_nat (seq 2 310)).

Fixpoint cube_root (fuel : nat) (lo hi n : Z) : Z :=
  match fuel with
  | O => lo
  | S fuel' =>
      let mid := (lo + hi + 1) / 2 in
      if (mid * mid * mid <=? n)%Z then cube_root fuel' mid hi n
      else cube_root fuel' lo (mid - 1) n
  end.

Definition K : list Z :=
  map (fun p => cube_root 40 0 (2 ^ 36) (p * 2 ^ 96) mod w32) primes.

Definition H0 : list Z :=
  map (fun p => Z.sqrt (p * 2 ^ 64) mod w32) (firstn 8 primes).

Definition byteZ (b : byte) : Z := Z.of_N (Byte.to_N b).
Definition Zbyte (z : Z) : byte :=
    match Byte.of_N (Z.to_N (z mod 256)) with Some b => b | None => x00 end.

  (** Padding: a 1 bit, zeros up to 56 mod 64, the bit length on 8 bytes. *)
Definition be_bytes (n : nat) (z : Z) : list Z :=
    map (fun i => Z.shiftr z (8 * Z.of_nat i) mod 256) (rev (seq 0 n)).

Definition pad (msg : list Z) : list Z :=
    let len := Z.of_nat (length msg) in
    let zeros := Z.to_nat ((55 - len) mod 64) in
    msg ++ 128 :: repeat 0 zeros ++ be_bytes 8 (8 * len).

Fixpoint words (fuel : nat) (bs : list Z) : list Z :=
    match fuel, bs with
    | S fuel', a :: b :: c :: d :: rest =>
        (Z.shiftl a 24 + Z.shiftl b 16 + Z.shiftl c 8 + d) :: words fuel' rest
    | _, _ => []
    end.

Definition nthw (l : list Z) (i : nat) : Z := nth i l 0.

  (** The message schedule: sixteen words of the block, then 48 derived. *)
Fixpoint schedule (steps : nat) (w : list Z) : list Z :=
    match steps with
    | O => w
    | S steps' =>
        let t := length w in
        let x := add32 (add32 (sigma1 (nthw w (t - 2))) (nthw w (t - 7)))
                       (add32 (sigma0 (nthw w (t - 15))) (nthw w (t - 16))) in
        schedule steps' (w ++ [x])
    end.

Record regs := Regs { ra : Z; rb : Z; rc : Z; rd : Z; re : Z; rf : Z; rg : Z; rh : Z }.

Definition round (r : regs) (kw : Z * Z) : regs :=
    let '(k, w) := kw in
    let t1 := add32 (add32 (add32 (add32 (rh r) (Sigma1 (re r))) (Ch (re r) (rf r) (rg r))) k) w in
    let t2 := add32 (Sigma0 (ra r)) (Maj (ra r) (rb r) (rc r)) in
    Regs (add32 t1 t2) (ra r) (rb r) (rc r) (add32 (rd r) t1) (re r) (rf r) (rg r).

Definition regs_of (h : list Z) : regs :=
    Regs (nthw h 0) (nthw h 1) (nthw h 2) (nthw h 3) (nthw h 4) (nthw h 5) (nthw h 6) (nthw h 7).
Definition list_of (r : regs) : list Z :=
    [ra r; rb r; rc r; rd r; re r; rf r; rg r; rh r].

Definition compress (h : list Z) (block : list Z) : list Z :=
    let w := schedule 48 block in
    let r := fold_left round (combine K w) (regs_of h) in
    map (fun p => add32 (fst p) (snd p)) (combine h (list_of r)).

Fixpoint blocks (fuel : nat) (h : list Z) (ws : list Z) : list Z :=
    match fuel with
    | O => h
    | S fuel' =>
        match ws with
        | [] => h
        | _ => blocks fuel' (compress h (firstn 16 ws)) (skipn 16 ws)
        end
    end.

  (** [crypto.createHash('sha256').update(bytes).digest()] *)
Definition sha256 (msg : list byte) : list byte :=
    let p := pad (map byteZ msg) in
    let ws := words (length p) p in
    let h := blocks (length ws) H0 ws in
    map Zbyte (flat_map (be_bytes 4) h).

End Sha256.

Module Base64url.

Definition alphabet : string :=
    "ABCDEFGHIJKLMNOPQRSTUVWXYZabcdefghijklmnopqrstuvwxyz0123456789-_".

Definition digit (z : Z) : ascii :=
    match String.get (Z.to_nat z) alphabet with Some c => c | None => "A"%char end.

Definition bz (b : byte) : Z := Z.of_N (Byte.to_N b).

  (** [Buffer.toString('base64url')]: three bytes give four characters, a
      tail of one or two bytes gives two or three, and nothing is padded. *)
Fixpoint encode (bs : list byte) : string :=
    match bs with
    | [] => EmptyString
    | [a] =>
        String (digit (Z.shiftr (bz a) 2))
          (String (digit (Z.shiftl (Z.land (bz a) 3) 4)) EmptyString)
    | [a; b] =>
        String (digit (Z.shiftr (bz a) 2))
          (String (digit (Z.lor (Z.shiftl (Z.land (bz a) 3) 4) (Z.shiftr (bz b) 4)))
             (String (digit (Z.shiftl (Z.land (bz b) 15) 2)) EmptyString))
    | a :: b :: c :: rest =>
        String (digit (Z.shiftr (bz a) 2))
          (String (digit (Z.lor (Z.shiftl (Z.land (bz a) 3) 4) (Z.shiftr (bz b) 4)))
             (String (digit (Z.lor (Z.shiftl (Z.land (bz b) 15) 2) (Z.shiftr (bz c) 6)))
                (String (digit (Z.land (bz c) 63)) (encode rest))))
    end.

End Base64url.

(** A JavaScript string handed to [hash.update] is hashed as its UTF-8
    bytes; the model's strings are byte strings already. *)
Definition utf8 (s : string) : list byte := list_byte_of_string s.


(* ===================================================================== *)
(** * JavaScript strings and values                                       *)
(* ===================================================================== *)

Infix "+++" := String.append (at level 60, right associativity) : string_scope.

Module Js.

  (** Truthiness of a string: only the empty string is falsy. *)
Definition truthy (s : string) : bool := negb (s =? EmptyString)%string.

  (** Truthiness of a [string | null] field. *)
Definition truthy_opt (o : option string) : bool :=
    match o with Some s => truthy s | None => false end.

  (** [s.startsWith(p)] *)
Definition startsWith (s p : string) : bool := String.prefix p s.

  (** [s.includes(sub)] *)
Fixpoint includes (s sub : string) : bool :=
    String.prefix sub s ||
    match s with
    | EmptyString => false
    | String _ s' => includes s' sub
    end.

  (** [s.split(c)[0]]: what stands before the first [c], all of [s] when
      there is none. *)
Fixpoint split0 (c : ascii) (s : string) : string :=
    match s with
    | EmptyString => EmptyString
    | String a s' => if Ascii.eqb a c then EmptyString else String a (split0 c s')
    end.

  (** [l.join(sep)] *)
Fixpoint join (sep : string) (l : list string) : string :=
    match l with
    | [] => EmptyString
    | [x] => x
    | x :: rest => x +++ sep +++ join sep rest
    end.

  (** [s.substring(0, n)] *)
Definition substring0 (n : nat) (s : string) : string := String.substring 0 n s.

  (** Decimal rendering of an integer, as a template literal renders it. *)
Definition dec (z : Z) : string := NilZero.string_of_int (Z.to_int z).

Definition upper (c : ascii) : ascii :=
    let n := nat_of_ascii c in
    if (97 <=? n)%nat && (n <=? 122)%nat then ascii_of_nat (n - 32) else c.

  (** [s.toUpperCase()] on the ASCII letters. *)
Fixpoint toUpperCase (s : string) : string :=
    match s with
    | EmptyString => EmptyString
    | String a s' => String (upper a) (toUpperCase s')
    end.

  (** [s.replace(/-/g, '')] *)
Fixpoint removeDashes (s : string) : string :=
    match s with
    | EmptyString => EmptyString
    | String a s' => if Ascii.eqb a "-" then removeDashes s' else String a (removeDashes s')
    end.

  (** The numbers of the model: the integers and [NaN]. Arithmetic and
      comparison are those of JavaScript on these: [NaN] is contagious and
      compares false with everything. *)
Inductive number := Num (z : Z) | NaN.

Definition plus (a b : number) : number :=
    match a, b with Num x, Num y => Num (x + y) | _, _ => NaN end.
Definition minus (a b : number) : number :=
    match a, b with Num x, Num y => Num (x - y) | _, _ => NaN end.
Definition times (a b : number) : number :=
    match a, b with Num x, Num y => Num (x * y) | _, _ => NaN end.
Definition lt (a b : number) : bool :=
    match a, b with Num x, Num y => (x <? y)%Z | _, _ => false end.

  (** Thrown values: every value this code throws or receives from Node is
      an [Error] object; [String(e)] is its name, a colon and its message. *)
Record exn := Exn { ename : string; message : string }.
Definition Error (msg : string) : exn := Exn "Error" msg.
Definition TypeError (msg : string) : exn := Exn "TypeError" msg.
Definition to_string (e : exn) : string := ename e +++ ": " +++ message e.

End Js.

Module Json.

  (** Values [JSON.parse] yields. Numbers are the integers: the numeric
      fields this code reads ([expires_in], [level]) are integral. *)
#[warnings="-register-all"]
Inductive json :=
  | JNull
  | JBool (b : bool)
  | JNum (n : Z)
  | JStr (s : string)
  | JArr (items : list json)
  | JObj (fields : list (string * json)).

  (** A JavaScript value read out of a parsed body: [undefined] or a value. *)
Definition jsval := option json.

Fixpoint assoc (k : string) (fs : list (string * json)) : jsval :=
    match fs with
    | [] => None
    | (k', v) :: rest =>
        (* a repeated key keeps its last value *)
        match assoc k rest with
        | Some v' => Some v'
        | None => if (k' =? k)%string then Some v else None
        end
    end.

  (** [j.k] for the own keys this code reads: [null.k] throws a
      [TypeError], a primitive or an array has no such property. *)
Definition prop (j : json) (k : string) : Js.exn + jsval :=
    match j with
    | JNull => inl (Js.TypeError ("Cannot read properties of null (reading '" +++ k +++ "')"))
    | JObj fs => inr (assoc k fs)
    | _ => inr None
    end.

Definition truthy (v : jsval) : bool :=
    match v with
    | None | Some JNull => false
    | Some (JBool b) => b
    | Some (JNum n) => negb (n =? 0)%Z
    | Some (JStr s) => Js.truthy s
    | Some (JArr _) | Some (JObj _) => true
    end.

  (** [v === 'lit'] *)
Definition is_string (v : jsval) (lit : string) : bool :=
    match v with Some (JStr s) => (s =? lit)%string | _ => false end.

  (** [v || null] *)
Definition or_null (v : jsval) : jsval := if truthy v then v else Some JNull.

  (** A [string | null] field as a value. *)
Definition of_string (o : option string) : jsval :=
    match o with Some s => Some (JStr s) | None => Some JNull end.

  (** [String(j)], as a template literal converts a parsed value. *)
Fixpoint toString (j : json) : string :=
    match j with
    | JNull => "null"
    | JBool true => "true"
    | JBool false => "false"
    | JNum n => Js.dec n
    | JStr s => s
    | JArr items =>
        Js.join ","
          (map (fun x => match x with JNull => EmptyString | _ => toString x end) items)
    | JObj _ => "[object Object]"
    end.

  (** [String(v)] and a value in a template literal, [undefined] included. *)
Definition text (v : jsval) : string :=
    match v with Some j => toString j | None => "undefined" end.

Definition dq : string := String "034"%char EmptyString.

Definition hexdigit (n : nat) : ascii :=
    match String.get n "0123456789abcdef" with Some c => c | None => "0"%char end.

Definition escape_char (c : ascii) : string :=
    let n := nat_of_ascii c in
    if (n =? 34)%nat then "\" +++ dq
    else if (n =? 92)%nat then "\\"
    else if (n =? 8)%nat then "\b"
    else if (n =? 9)%nat then "\t"
    else if (n =? 10)%nat then "\n"
    else if (n =? 12)%nat then "\f"
    else if (n =? 13)%nat then "\r"
    else if (n <? 32)%nat then
      "\u00" +++ String (hexdigit (n / 16)) (String (hexdigit (n mod 16)) EmptyString)
    else String c EmptyString.

Fixpoint escape (s : string) : string :=
    match s with
    | EmptyString => EmptyString
    | String c s' => escape_char c +++ escape s'
    end.

Definition quote (s : string) : string := dq +++ escape s +++ dq.

  (** [JSON.stringify(j)] *)
Fixpoint stringify (j : json) : string :=
    match j with
    | JNull => "null"
    | JBool true => "true"
    | JBool false => "false"
    | JNum n => Js.dec n
    | JStr s => quote s
    | JArr items => "[" +++ Js.join "," (map stringify items) +++ "]"
    | JObj fs =>
        "{" +++ Js.join "," (map (fun kv => quote (fst kv) +++ ":" +++ stringify (snd kv)) fs) +++ "}"
    end.

End Json.
Export Json.

(* ===================================================================== *)
(** * HTTPS exchanges and the platform's parsers                          *)
(* ===================================================================== *)

Module Http.

Record request := Request {
    method : string;
    url : string;
    headers : list (string * string);
    body : option string;
  }.

  (** What the response callback reads: [res.statusCode],
      [res.headers['set-cookie']] (no header: the empty list),
      [res.headers['location']] and the concatenated [data] chunks. *)
Record response := Response {
    statusCode : Z;
    setCookie : list string;
    location : option string;
    data : string;
  }.

  (** An exchange ends with the response's [end] event or with the
      request's [error] event. *)
Inductive reply :=
  | Resp (r : response)
  | NetErr (e : Js.exn).

  (** [new URLSearchParams(o).toString()]: the
      application/x-www-form-urlencoded serializer. *)
Definition unreserved (c : ascii) : bool :=
    let n := nat_of_ascii c in
    ((48 <=? n) && (n <=? 57) || (65 <=? n) && (n <=? 90) || (97 <=? n) && (n <=? 122)
     || (n =? 42) || (n =? 45) || (n =? 46) || (n =? 95))%nat.

Definition HEX (n : nat) : ascii :=
    match String.get n "0123456789ABCDEF" with Some c => c | None => "0"%char end.

Fixpoint form_encode (s : string) : string :=
    match s with
    | EmptyString => EmptyString
    | String c s' =>
        let n := nat_of_ascii c in
        (if unreserved c then String c EmptyString
         else if (n =? 32)%nat then "+"
         else String "%" (String (HEX (n / 16)) (String (HEX (n mod 16)) EmptyString)))
        +++ form_encode s'
    end.

Definition URLSearchParams (o : list (string * string)) : string :=
    Js.join "&" (map (fun kv => form_encode (fst kv) +++ "=" +++ form_encode (snd kv)) o).

End Http.
Export Http.

(** The parsers of the platform this code relies on, taken as they are:
    [JSON.parse], the numeric value of a string (the StringToNumber of
    the language, which a multiplication applies to a string operand), the
    regular expressions it scrapes the login pages with (each gives its
    first capture group) and [decodeURIComponent]. [None] is an exception
    for [JSON.parse] and for [decodeURIComponent], and no match for a
    regular expression. *)
Class Runtime := {
  JSON_parse : string -> option json;
  StringToNumber : string -> Js.number;
  (* Below, DQ stands for the double quote character. *)
  (* /name=DQcsrf_tokenDQ[^>]*value=DQ([^DQ]+)DQ/ *)
  match_csrf_field : string -> option string;
  (* /StateProperties=([^DQ&]+)/ *)
  match_tx : string -> option string;
  (* /x-ms-cpim-csrf=([^;]+)/ *)
  match_csrf_cookie : string -> option string;
  (* /code=([^&]+)/ *)
  match_code_param : string -> option string;
  (* /code=([^&DQ'\s]+)/ *)
  match_code_body : string -> option string;
  (* /window\.location\s*=\s*['DQ]([^'DQ]+)['DQ]/ *)
  match_redirect : string -> option string;
  decodeURIComponent : string -> option string;
}.

(** [ToNumber(v)], which [v * 1000] applies to [v]: an array goes through
    its string, and an object is not a number. *)
Definition to_number `{Runtime} (v : jsval) : Js.number :=
  match v with
  | None => Js.NaN
  | Some JNull => Js.Num 0
  | Some (JBool b) => Js.Num (if b then 1 else 0)
  | Some (JNum n) => Js.Num n
  | Some (JStr s) => StringToNumber s
  | Some (JArr items) => StringToNumber (Json.toString (JArr items))
  | Some (JObj _) => Js.NaN
  end.

(* ===================================================================== *)
(** * Asynchronous programs                                               *)
(* ===================================================================== *)

Inductive level := Debug | Info | Warn | Err.

(** An [async] method over an object of state [S]: it runs synchronously
    between the HTTPS exchanges it awaits. [Throw] rejects the promise;
    [Uncaught] is an exception that escapes an event callback, after
    which the promise never settles. *)
Inductive prog (S A : Type) : Type :=
| Ret (a : A)
| Throw (e : Js.exn)
| Uncaught (e : Js.exn)
| GetS (k : S -> prog S A)
| PutS (s : S) (k : prog S A)
| DateNow (k : Z -> prog S A)
| RandomBytes (n : nat) (k : list byte -> prog S A)
| RandomUUID (k : string -> prog S A)
| Log (l : level) (msg : string) (k : prog S A)
| HttpsRequest (req : request) (k : reply -> prog S A).

Arguments Ret {S A} a.
Arguments Throw {S A} e.
Arguments Uncaught {S A} e.
Arguments GetS {S A} k.
Arguments PutS {S A} s k.
Arguments DateNow {S A} k.
Arguments RandomBytes {S A} n k.
Arguments RandomUUID {S A} k.
Arguments Log {S A} l msg k.
Arguments HttpsRequest {S A} req k.

Fixpoint bind {S A B} (p : prog S A) (f : A -> prog S B) : prog S B :=
  match p with
  | Ret a => f a
  | Throw e => Throw e
  | Uncaught e => Uncaught e
  | GetS k => GetS (fun s => bind (k s) f)
  | PutS s k => PutS s (bind k f)
  | DateNow k => DateNow (fun t => bind (k t) f)
  | RandomBytes n k => RandomBytes n (fun b => bind (k b) f)
  | RandomUUID k => RandomUUID (fun u => bind (k u) f)
  | Log l m k => Log l m (bind k f)
  | HttpsRequest r k => HttpsRequest r (fun x => bind (k x) f)
  end.

(** [try { p } catch (e) { h e }] *)
Fixpoint try_catch {S A} (p : prog S A) (h : Js.exn -> prog S A) : prog S A :=
  match p with
  | Ret a => Ret a
  | Throw e => h e
  | Uncaught e => Uncaught e
  | GetS k => GetS (fun s => try_catch (k s) h)
  | PutS s k => PutS s (try_catch k h)
  | DateNow k => DateNow (fun t => try_catch (k t) h)
  | RandomBytes n k => RandomBytes n (fun b => try_catch (k b) h)
  | RandomUUID k => RandomUUID (fun u => try_catch (k u) h)
  | Log l m k => Log l m (try_catch k h)
  | HttpsRequest r k => HttpsRequest r (fun x => try_catch (k x) h)
  end.

(** A method of a member object, run on the part [get] of the owner's
    state and written back with [set]. *)
Fixpoint zoom {S T A} (get : T -> S) (set : S -> T -> T) (p : prog S A) : prog T A :=
  match p with
  | Ret a => Ret a
  | Throw e => Throw e
  | Uncaught e => Uncaught e
  | GetS k => GetS (fun t => zoom get set (k (get t)))
  | PutS s k => GetS (fun t => PutS (set s t) (zoom get set k))
  | DateNow k => DateNow (fun t => zoom get set (k t))
  | RandomBytes n k => RandomBytes n (fun b => zoom get set (k b))
  | RandomUUID k => RandomUUID (fun u => zoom get set (k u))
  | Log l m k => Log l m (zoom get set k)
  | HttpsRequest r k => HttpsRequest r (fun x => zoom get set (k x))
  end.

Declare Scope prog_scope.
Delimit Scope prog_scope with prog.
Bind Scope prog_scope with prog.
Notation "x <- p ;; q" := (bind p (fun x => q))
  (at level 100, p at next level, q at level 200, right associativity) : prog_scope.
Notation "p ;; q" := (bind p (fun _ => q))
  (at level 100, q at level 200, right associativity) : prog_scope.

Definition get {S} : prog S S := GetS Ret.
Definition put {S} (s : S) : prog S unit := PutS s (Ret tt).
Definition now {S} : prog S Z := DateNow Ret.
Definition randomBytes {S} (n : nat) : prog S (list byte) := RandomBytes n Ret.
Definition randomUUID {S} : prog S string := RandomUUID Ret.
Definition log {S} (l : level) (msg : string) : prog S unit := Log l msg (Ret tt).
Definition https_request {S} (req : request) : prog S reply := HttpsRequest req Ret.

(** [if (b) p] *)
Definition when {S} (b : bool) (p : prog S unit) : prog S unit :=
  if b then p else Ret tt.

Fixpoint log_all {S} (l : level) (ms : list string) : prog S unit :=
  match ms with
  | [] => Ret tt
  | m :: rest => Log l m (log_all l rest)
  end.

(** ** One call run alone against the world *)

(** The world outside the process: the clock, the entropy and UUID
    sources, and the servers, which answer a request knowing all that was
    sent before it and take some time to do so. *)
Record exchange := { took : Z; result : reply }.

Record world := World {
  clock : Z;
  entropy : nat -> byte;
  drawn : nat;
  uuids : nat -> string;
  issued : nat;
  net : list request -> exchange;
  sent : list request;
  logged : list (level * string);
}.

Inductive outcome (A : Type) :=
| Resolved (a : A)
| Rejected (e : Js.exn)
| NeverSettles (e : Js.exn).
Arguments Resolved {A} a.
Arguments Rejected {A} e.
Arguments NeverSettles {A} e.

Definition tick (d : Z) (w : world) : world :=
  World (clock w + d) (entropy w) (drawn w) (uuids w) (issued w) (net w) (sent w) (logged w).
Definition draw (n : nat) (w : world) : list byte * world :=
  (map (entropy w) (seq (drawn w) n),
   World (clock w) (entropy w) (drawn w + n) (uuids w) (issued w) (net w) (sent w) (logged w)).
Definition issue (w : world) : string * world :=
  (uuids w (issued w),
   World (clock w) (entropy w) (drawn w) (uuids w) (S (issued w)) (net w) (sent w) (logged w)).
Definition record_log (l : level) (m : string) (w : world) : world :=
  World (clock w) (entropy w) (drawn w) (uuids w) (issued w) (net w) (sent w) (logged w ++ [(l, m)]).
Definition send (r : request) (w : world) : reply * world :=
  let x := net w (sent w ++ [r]) in
  (result x,
   World (clock w + took x) (entropy w) (drawn w) (uuids w) (issued w) (net w) (sent w ++ [r]) (logged w)).

Fixpoint run {S A} (p : prog S A) (s : S) (w : world) : outcome A * S * world :=
  match p with
  | Ret a => (Resolved a, s, w)
  | Throw e => (Rejected e, s, w)
  | Uncaught e => (NeverSettles e, s, w)
  | GetS k => run (k s) s w
  | PutS s' k => run k s' w
  | DateNow k => run (k (clock w)) s w
  | RandomBytes n k => let '(b, w') := draw n w in run (k b) s w'
  | RandomUUID k => let '(u, w') := issue w in run (k u) s w'
  | Log l m k => run k s (record_log l m w)
  | HttpsRequest r k => let '(x, w') := send r w in run (k x) s w'
  end.

(** ** What a call sends *)

(** The first request a call sends when run alone. *)
Definition first_request {S A} (p : prog S A) (s : S) (w : world) (req : request) : Prop :=
  exists rest, sent (snd (run p s w)) = (sent w ++ req :: rest)%list.

(** Every request the program can send, whatever it reads, satisfies [P]. *)
Fixpoint all_requests {S A} (P : request -> Prop) (p : prog S A) : Prop :=
  match p with
  | Ret _ | Throw _ | Uncaught _ => True
  | GetS k => forall s, all_requests P (k s)
  | PutS _ k => all_requests P k
  | DateNow k => forall t, all_requests P (k t)
  | RandomBytes _ k => forall b, all_requests P (k b)
  | RandomUUID k => forall u, all_requests P (k u)
  | Log _ _ k => all_requests P k
  | HttpsRequest r k => P r /\ forall x, all_requests P (k x)
  end.

(* ===================================================================== *)
(** * legrandAuth.ts: class [LegrandAuth]                                 *)
(* ===================================================================== *)

Module LegrandAuth.

  Module AUTH_CONFIG.
Definition tenant := "eliotclouduamprd.onmicrosoft.com".
Definition policy := "B2C_1_ambientwifi_SignUpOrSignIn".
Definition baseUrl := "https://login.eliotbylegrand.com".
Definition authorizeUrl := "https://login.eliotbylegrand.com/eliotclouduamprd.onmicrosoft.com/b2c_1_ambientwifi_signuporsignin/oauth2/v2.0/authorize".
Definition tokenUrl := "https://login.eliotbylegrand.com/eliotclouduamprd.onmicrosoft.com/b2c_1_ambientwifi_signuporsignin/oauth2/v2.0/token".
Definition selfAssertedUrl := "https://login.eliotbylegrand.com/eliotclouduamprd.onmicrosoft.com/B2C_1_ambientwifi_SignUpOrSignIn/SelfAsserted".
Definition confirmedUrl := "https://login.eliotbylegrand.com/eliotclouduamprd.onmicrosoft.com/B2C_1_ambientwifi_SignUpOrSignIn/api/CombinedSigninAndSignup/confirmed".
Definition clientId := "d6f3606b-c2fe-4376-a6dd-dd929cbde18d".
Definition redirectUri := "msald6f3606b-c2fe-4376-a6dd-dd929cbde18d://auth".
Definition scopes := "https://eliotclouduamprd.onmicrosoft.com/security/access.full openid profile offline_access".
  End AUTH_CONFIG.
  Import AUTH_CONFIG.

Definition browserAgent := "Mozilla/5.0 (iPhone; CPU iPhone OS 18_7 like Mac OS X)".

  (** The fields of a [LegrandAuth] object. *)
Record state := State {
    email : string;
    password : string;
    (* declared [string | null]; what a login or a refresh assigns is
       whatever the token endpoint's JSON holds *)
    accessToken : jsval;
    refreshToken : jsval;
    tokenExpiry : Js.number;
  }.

  (** [new LegrandAuth(email, password, log)] *)
Definition new (email password : string) : state :=
    State email password (Some JNull) (Some JNull) (Js.Num 0).

Definition with_tokens (s : state) (a r : jsval) (e : Js.number) : state :=
    State (email s) (password s) a r e.

  (** The test at the head of [getAccessToken]: a token is held and the
      time [t] is before its expiry less 60 seconds. *)
Definition cached (s : state) (t : Z) : bool :=
    Json.truthy (accessToken s)
    && Js.lt (Js.Num t) (Js.minus (tokenExpiry s) (Js.Num 60000)).

  (** [updatedCookies.findIndex(f)], [None] for -1. *)
Fixpoint findIndex (f : string -> bool) (l : list string) : option nat :=
    match l with
    | [] => None
    | c :: rest => if f c then Some O else option_map S (findIndex f rest)
    end.

  (** The body of the loop over the Set-Cookie headers in
      [submitCredentials]. *)
Definition merge_cookie (updatedCookies : list string) (cookie : string) : list string :=
    let cookiePart := Js.split0 ";" cookie in
    let cookieName := Js.split0 "=" cookiePart in
    match findIndex (fun c => Js.startsWith c (cookieName +++ "=")) updatedCookies with
    | Some existingIndex => <[existingIndex := cookiePart]> updatedCookies
    | None => updatedCookies ++ [cookiePart]
    end.

Definition merge_cookies (cookies setCookieHeaders : list string) : list string :=
    fold_left merge_cookie setCookieHeaders cookies.

  (** The Cookie header: [cookies.join('; ')]. *)
Definition cookie_header (cookies : list string) : string := Js.join "; " cookies.

Record authorization := Authorization {
    csrfToken : string;
    cookies : list string;
    tx : string;
  }.

Definition byteLength (s : string) : string := Js.dec (Z.of_nat (String.length s)).

  (** The world after the first line [authenticate] logs. *)
Definition announced (w : world) : world :=
    record_log Info "Authenticating with Legrand cloud..." w.


  (** The request [postToTokenEndpoint] sends. *)
Definition tokenRequest (body : string) : request :=
    Request "POST" tokenUrl
      [ ("Content-Type", "application/x-www-form-urlencoded");
        ("Accept", "application/json");
        ("User-Agent", browserAgent);
        ("Content-Length", byteLength body) ] (Some body).

  (** The form [refreshAccessToken] posts. *)
Definition refreshBody (rt : jsval) : string :=
    URLSearchParams
      [ ("grant_type", "refresh_token"); ("refresh_token", Json.text rt);
        ("client_id", clientId); ("scope", scopes) ].

  (** The request [startAuthorization] sends. *)
Definition authorizeRequest (codeChallenge st : string) : request :=
    let params := URLSearchParams
      [ ("client_id", clientId); ("redirect_uri", redirectUri);
        ("response_type", "code"); ("scope", scopes); ("state", st);
        ("code_challenge", codeChallenge); ("code_challenge_method", "S256");
        ("prompt", "login") ] in
    let url := authorizeUrl +++ "?" +++ params in
    Request "GET" url
      [ ("Accept", "text/html,application/xhtml+xml");
        ("User-Agent", browserAgent) ] None.

  (** The PKCE verifier of a login started in the world [w]: the first
      line is logged, then 32 random bytes are drawn. *)
Definition verifier_of (w : world) : string :=
    Base64url.encode (fst (draw 32 (announced w))).

  (** The [state] parameter of that login: the UUID issued next, in upper
      case and without its dashes. *)
Definition state_of (w : world) : string :=
    Js.removeDashes (Js.toUpperCase (fst (issue (snd (draw 32 (announced w)))))).

  (** The request [submitCredentials] sends. *)
Definition credentialsRequest (email password csrfToken : string) (cookies : list string)
      (tx : string) : request :=
    let body := URLSearchParams
      [ ("request_type", "RESPONSE"); ("logonIdentifier", email);
        ("password", password) ] in
    let url := selfAssertedUrl +++ "?" +++ tx +++ "&p=" +++ policy in
    Request "POST" url
      [ ("Content-Type", "application/x-www-form-urlencoded; charset=UTF-8");
        ("Accept", "application/json");
        ("X-Requested-With", "XMLHttpRequest");
        ("X-CSRF-TOKEN", csrfToken);
        ("Cookie", cookie_header cookies);
        ("User-Agent", browserAgent);
        ("Origin", baseUrl);
        ("Referer", authorizeUrl);
        ("Content-Length", byteLength body) ] (Some body).

  (** The request [confirmAndGetCode] sends. *)
Definition confirmRequest (cookies : list string) (tx csrfToken : string) : request :=
    let url := confirmedUrl +++ "?" +++ tx +++ "&p=" +++ policy in
    Request "GET" url
      [ ("Accept", "text/html,application/xhtml+xml,application/xml;q=0.9,*/*;q=0.8");
        ("X-Requested-With", "XMLHttpRequest");
        ("X-CSRF-TOKEN", csrfToken);
        ("Cookie", cookie_header cookies);
        ("User-Agent", browserAgent);
        ("Referer", authorizeUrl) ] None.

  Section Methods.
    Context `{Runtime}.

    (** [generateCodeVerifier] *)
Definition generateCodeVerifier : prog state string :=
      (b <- randomBytes 32 ;; Ret (Base64url.encode b))%prog.

    (** [generateCodeChallenge] *)
Definition generateCodeChallenge (verifier : string) : string :=
      Base64url.encode (Sha256.sha256 (utf8 verifier)).

    (** [startAuthorization] *)
Definition startAuthorization (codeChallenge st : string) : prog state authorization :=
      (x <- https_request (authorizeRequest codeChallenge st) ;;
       match x with
       | NetErr e => Throw e
       | Resp res =>
           let cookies := map (Js.split0 ";") (setCookie res) in
           let csrfToken :=
             match match_csrf_field (data res) with Some v => v | None => EmptyString end in
           let tx :=
             match match_tx (data res) with
             | Some v => "StateProperties=" +++ v
             | None => EmptyString
             end in
           if negb (Js.truthy csrfToken) then
             match List.find (fun c => Js.includes c "x-ms-cpim-csrf") cookies with
             | Some csrfCookie =>
                 match match_csrf_cookie csrfCookie with
                 | Some m => Ret (Authorization m cookies tx)
                 | None => Ret (Authorization csrfToken cookies tx)
                 end
             | None => Ret (Authorization csrfToken cookies tx)
             end
           else Ret (Authorization csrfToken cookies tx)
       end)%prog.

    (** The [end] handler of [submitCredentials]. *)
Definition credentials_verdict (res : response) (updatedCookies : list string)
      : prog state (list string) :=
      if (statusCode res =? 200)%Z then
        match JSON_parse (data res) with
        | None => Ret updatedCookies
        | Some json =>
            match Json.prop json "status", Json.prop json "message" with
            | inr status, inr message =>
                if Json.is_string status "400" || Json.truthy message then
                  Throw (Js.Error ("Login failed: " +++
                    (if Json.truthy message
                     then match message with Some m => Json.toString m | None => EmptyString end
                     else "Invalid credentials")))
                else Ret updatedCookies
            | _, _ => Ret updatedCookies
            end
        end
      else
        Throw (Js.Error ("Credential submission failed: " +++ Js.dec (statusCode res)
                         +++ " - " +++ data res)).

    (** [submitCredentials] *)
Definition submitCredentials (csrfToken : string) (cookies : list string) (tx : string)
      : prog state (list string) :=
      (s <- get ;;
       x <- https_request (credentialsRequest (email s) (password s) csrfToken cookies tx) ;;
       match x with
       | NetErr e => Throw e
       | Resp res => credentials_verdict res (merge_cookies cookies (setCookie res))
       end)%prog.

Definition decode_code (c : string) : prog state string :=
      match decodeURIComponent c with
      | Some v => Ret v
      | None => Uncaught (Js.Exn "URIError" "URI malformed")
      end.

    (** [confirmAndGetCode] *)
Definition confirmAndGetCode (cookies : list string) (tx csrfToken : string)
      : prog state string :=
      (x <- https_request (confirmRequest cookies tx csrfToken) ;;
       match x with
       | NetErr e => Throw e
       | Resp res =>
           let fromLocation :=
             match location res with
             | Some loc => if Js.truthy loc then match_code_param loc else None
             | None => None
             end in
           match fromLocation with
           | Some c => decode_code c
           | None =>
               let giveUp : prog state string :=
                 if Js.includes (data res) "error"
                 then Throw (Js.Error ("Confirmation failed: " +++ Js.substring0 200 (data res)))
                 else Throw (Js.Error "Could not get authorization code from confirmation response") in
               match match_code_body (data res) with
               | Some c => decode_code c
               | None =>
                   match match_redirect (data res) with
                   | Some redirectUrl =>
                       match match_code_param redirectUrl with
                       | Some c => decode_code c
                       | None => giveUp
                       end
                   | None => giveUp
                   end
               end
           end
       end)%prog.

    (** The [end] and [error] handlers of [postToTokenEndpoint]: on status
        200 the promise resolves with whatever [JSON.parse] gives. *)
Definition token_verdict (x : reply) : Js.exn + json :=
      match x with
      | NetErr e => inl e
      | Resp res =>
          if (statusCode res =? 200)%Z then
            match JSON_parse (data res) with
            | Some tokens => inr tokens
            | None => inl (Js.Error "Invalid token response")
            end
          else inl (Js.Error ("Token request failed: " +++ Js.dec (statusCode res)
                              +++ " - " +++ data res))
      end.

    (** [postToTokenEndpoint] *)
Definition postToTokenEndpoint (body : string) : prog state json :=
      (x <- https_request (tokenRequest body) ;;
       match token_verdict x with
       | inl e => Throw e
       | inr tokens => Ret tokens
       end)%prog.

    (** [exchangeCodeForTokens] *)
Definition exchangeCodeForTokens (code codeVerifier : string) : prog state json :=
      postToTokenEndpoint (URLSearchParams
        [ ("grant_type", "authorization_code"); ("client_id", clientId); ("code", code);
          ("redirect_uri", redirectUri); ("code_verifier", codeVerifier);
          ("scope", scopes) ]).

    (** [Date.now() + (tokens.expires_in * 1000)] at time [t]. *)
Definition expiry (t : Z) (expires_in : jsval) : Js.number :=
      Js.plus (Js.Num t) (Js.times (to_number expires_in) (Js.Num 1000)).

    (** The three assignments that follow the token exchange in
        [authenticate] and in [refreshAccessToken]:
        [this.accessToken = tokens.access_token], then
        [this.refreshToken = tokens.refresh_token || otherwise], then
        [this.tokenExpiry = Date.now() + (tokens.expires_in * 1000)]. The
        first read throws when [tokens] is [null], before anything is
        assigned. *)
Definition assignTokens (tokens : json) (otherwise : state -> jsval) : prog state unit :=
      match Json.prop tokens "access_token", Json.prop tokens "refresh_token",
            Json.prop tokens "expires_in" with
      | inr access_token, inr refresh_token, inr expires_in =>
          (s <- get ;;
           t <- now ;;
           put (with_tokens s access_token
                  (if Json.truthy refresh_token then refresh_token else otherwise s)
                  (expiry t expires_in)))%prog
      | inl e, _, _ | _, inl e, _ | _, _, inl e => Throw e
      end.

    (** The [try] block of [authenticate]: the login choreography. *)
Definition choreography : prog state unit :=
      (codeVerifier <- generateCodeVerifier ;;
       let codeChallenge := generateCodeChallenge codeVerifier in
       u <- randomUUID ;;
       let st := Js.removeDashes (Js.toUpperCase u) in
       log Debug "Step 1: Starting authorization flow..." ;;
       a <- startAuthorization codeChallenge st ;;
       if negb (Js.truthy (csrfToken a)) || negb (Js.truthy (tx a)) then
         Throw (Js.Error "Failed to get CSRF token or transaction ID from login page")
       else
         log Debug "Step 2: Submitting credentials..." ;;
         updatedCookies <- submitCredentials (csrfToken a) (cookies a) (tx a) ;;
         log Debug "Step 3: Confirming login..." ;;
         authCode <- confirmAndGetCode updatedCookies (tx a) (csrfToken a) ;;
         log Debug "Step 4: Exchanging code for tokens..." ;;
         tokens <- exchangeCodeForTokens authCode codeVerifier ;;
         assignTokens tokens (fun _ => Some JNull) ;;
         log Info "Authentication successful!")%prog.

    (** [authenticate] *)
Definition authenticate : prog state unit :=
      (log Info "Authenticating with Legrand cloud..." ;;
       s <- get ;;
       if negb (Js.truthy (email s)) || negb (Js.truthy (password s)) then
         Throw (Js.Error "Email and password are required for authentication")
       else
         try_catch choreography
           (fun error =>
              log Err ("Authentication failed: " +++ Js.to_string error) ;;
              Throw error))%prog.

    (** [refreshAccessToken] *)
Definition refreshAccessToken : prog state unit :=
      (s <- get ;;
       if negb (Json.truthy (refreshToken s)) then
         Throw (Js.Error "No refresh token available")
       else
         log Debug "Refreshing access token..." ;;
         tokens <- postToTokenEndpoint (refreshBody (refreshToken s)) ;;
         assignTokens tokens refreshToken ;;
         log Debug "Token refreshed successfully")%prog.

    (** The tail of [getAccessToken]: full authentication. *)
Definition fullAuthentication : prog state jsval :=
      (authenticate ;; s <- get ;; Ret (accessToken s))%prog.

    (** What [getAccessToken] does once the cached token did not pass. *)
Definition renew : prog state jsval :=
      (s <- get ;;
       if Json.truthy (refreshToken s) then
         try_catch
           (refreshAccessToken ;; s' <- get ;; Ret (accessToken s'))
           (fun error =>
              log Warn ("Token refresh failed: " +++ Js.to_string error) ;;
              fullAuthentication)
       else fullAuthentication)%prog.

    (** [getAccessToken] *)
Definition getAccessToken : prog state jsval :=
      (s <- get ;;
       if Json.truthy (accessToken s) then
         t <- now ;;
         if Js.lt (Js.Num t) (Js.minus (tokenExpiry s) (Js.Num 60000))
         then Ret (accessToken s) else renew
       else renew)%prog.

    (** [setTokens(accessToken, refreshToken, expiresIn)], with arguments of
        the declared types; the caller passes 3600 for [expiresIn] when it
        leaves it out, and [None] for a [refreshToken] it leaves out. *)
Definition setTokens (a : string) (r : option string) (expiresIn : Z) : prog state unit :=
      (s <- get ;;
       t <- now ;;
       put (with_tokens s (Some (JStr a))
              (Json.or_null (match r with Some v => Some (JStr v) | None => None end))
              (Js.Num (t + expiresIn * 1000))))%prog.

    (** [hasCredentials] *)
Definition hasCredentials (s : state) : bool :=
      Js.truthy (email s) && Js.truthy (password s).

  End Methods.

(** The request that opens a login started in the world [w]: the
    authorize request with the challenge of that login's verifier and
    with its state. *)
Definition opening (w : world) : request :=
  authorizeRequest (generateCodeChallenge (verifier_of w)) (state_of w).

(** The request that opens the login of the call number [i] (from 0)
    among calls that start logins one after the other from the world [w]:
    each login draws its own 32 bytes and its own UUID. *)
Definition opening_at (w : world) (i : nat) : request :=
  authorizeRequest
    (generateCodeChallenge
       (Base64url.encode (map (entropy w) (seq (drawn w + 32 * i) 32))))
    (Js.removeDashes (Js.toUpperCase (uuids w (issued w + i)%nat))).

(** The form [exchangeCodeForTokens] posts. *)
Definition exchangeBody (code codeVerifier : string) : string :=
  URLSearchParams
    [ ("grant_type", "authorization_code"); ("client_id", clientId); ("code", code);
      ("redirect_uri", redirectUri); ("code_verifier", codeVerifier);
      ("scope", scopes) ].

(** The four requests of a login, in the order of the choreography. *)
Definition login_requests (s : state) (verifier st csrf : string)
    (cookies cookies' : list string) (tx code : string) : list request :=
  [ authorizeRequest (generateCodeChallenge verifier) st;
    credentialsRequest (email s) (password s) csrf cookies tx;
    confirmRequest cookies' tx csrf;
    tokenRequest (exchangeBody code verifier) ].

(** What a login has sent when it settles. *)
Definition login_trace (s : state) (verifier : string) (w0 : world)
    (r : outcome unit * state * world) : Prop :=
  exists st csrf cookies cookies' tx code n,
    sent (snd r) = (sent w0 ++ firstn n (login_requests s verifier st csrf cookies cookies' tx code))%list
    /\ (1 <= n <= 4)%nat
    /\ (forall x, fst (fst r) = Resolved x -> n = 4%nat)
    /\ ((2 <= n)%nat -> csrf <> EmptyString /\ tx <> EmptyString).

(** The same with the verifier and the state of the login named, after
    the requests [before]. *)
Definition login_sent {A} (s : state) (verifier st : string) (before : list request)
    (r : outcome A * state * world) : Prop :=
  exists csrf cookies cookies' tx code n,
    sent (snd r) = (before ++ firstn n (login_requests s verifier st csrf cookies cookies' tx code))%list
    /\ (1 <= n <= 4)%nat
    /\ (forall x, fst (fst r) = Resolved x -> n = 4%nat)
    /\ ((2 <= n)%nat -> csrf <> EmptyString /\ tx <> EmptyString).

(** A step that leaves the fields of the object as they are. *)
Definition stateless {A} (p : prog state A) : Prop :=
  forall s w, snd (fst (run p s w)) = s.

(** The token record read off the reply [x] of the token endpoint at
    time [t]: the reply has status 200, its body parses to a value other
    than [null], and the record holds that value's [access_token], its
    [refresh_token] when that is truthy and [otherwise] when not, and the
    expiry [t] plus its [expires_in] times 1000. *)
Definition tokens_of `{Runtime} (x : reply) (t : Z) (otherwise : jsval) (s s' : state) : Prop :=
  exists res tokens access_token refresh_token expires_in,
    x = Resp res /\ statusCode res = 200 /\ JSON_parse (data res) = Some tokens
    /\ Json.prop tokens "access_token" = inr access_token
    /\ Json.prop tokens "refresh_token" = inr refresh_token
    /\ Json.prop tokens "expires_in" = inr expires_in
    /\ s' = with_tokens s access_token
              (if Json.truthy refresh_token then refresh_token else otherwise)
              (expiry t expires_in).

(** The exchange with the token endpoint that ended with [x] gives no
    token record, and [e] is the error: a transport error, a status other
    than 200, a body that [JSON.parse] refuses, or the body [null], whose
    [access_token] cannot be read. *)
Definition exchange_fails `{Runtime} (x : reply) (e : Js.exn) : Prop :=
  x = NetErr e
  \/ (exists res, x = Resp res /\ statusCode res <> 200
                  /\ e = Js.Error ("Token request failed: " +++ Js.dec (statusCode res)
                                   +++ " - " +++ data res))
  \/ (exists res, x = Resp res /\ statusCode res = 200 /\ JSON_parse (data res) = None
                  /\ e = Js.Error "Invalid token response")
  \/ (exists res, x = Resp res /\ statusCode res = 200 /\ JSON_parse (data res) = Some JNull
                  /\ e = Js.TypeError "Cannot read properties of null (reading 'access_token')").

(** What a login started in the world [w0] leaves behind: on success the
    token record read off the reply to the last request it sent, at the
    clock of that moment; otherwise the fields as they were. *)
Definition login_post `{Runtime} (s : state) (w0 : world)
    (r : outcome unit * state * world) : Prop :=
  match r with
  | (Resolved _, s', w') =>
      tokens_of (result (net w0 (sent w'))) (clock w') (Some JNull) s s'
  | (_, s', _) => s' = s
  end.

End LegrandAuth.

(* ===================================================================== *)
(** * legrandCloudApi.ts: class [LegrandCloudApi]                         *)
(* ===================================================================== *)

Module LegrandCloudApi.

  Module API_CONSTANTS.
Definition baseUrl := "https://api.developer.legrand.com".
Definition subscriptionKey := "934c78d6eeb34879a9b66681f30b14fe".
Definition userAgent := "Ambient/3.0.2 (us.legrand.wiambientlighting; build:1; iOS 26.2.0) Alamofire/4.7.3".
  End API_CONSTANTS.
  Import API_CONSTANTS.

  (** [LegrandCloudConfig]; an absent [email] or [password] is the empty
      string, as the platform passes it. *)
Record LegrandCloudConfig := Config {
    email : string;
    password : string;
    debug : bool;
  }.

  (** [DeviceState] *)
Record DeviceState := {
    on : bool;
    brightness : option Z;
  }.

  (** The fields of a [LegrandCloudApi] object. *)
Record state := State {
    config : LegrandCloudConfig;
    auth : option LegrandAuth.state;
    manualToken : option string;
    manualTokenExpiry : Z;
  }.

  (** The constructor. *)
Definition new (cfg : LegrandCloudConfig) : state :=
    State cfg
      (if Js.truthy (email cfg) && Js.truthy (password cfg)
       then Some (LegrandAuth.new (email cfg) (password cfg)) else None)
      None 0.

Definition set_auth (a : LegrandAuth.state) (s : state) : state :=
    State (config s) (Some a) (manualToken s) (manualTokenExpiry s).
Definition set_manual (tok : option string) (e : Z) (s : state) : state :=
    State (config s) (auth s) tok e.

  (** A method of [this.auth], which the caller found to be [a]. *)
Definition on_auth {A} (a : LegrandAuth.state) (p : prog LegrandAuth.state A) : prog state A :=
    zoom (fun s => match auth s with Some a' => a' | None => a end) set_auth p.

Inductive power := PowerOn | PowerOff.
Definition power_string (p : power) : string :=
    match p with PowerOn => "on" | PowerOff => "off" end.

Definition setStateUrl (deviceId : string) : string :=
    baseUrl +++ "/devicemanagement/api/v2.0/modules/" +++ deviceId +++ "/commands/setState".
Definition getStateUrl (deviceId : string) : string :=
    baseUrl +++ "/devicemanagement/api/v2.0/modules/" +++ deviceId +++ "/commands/getState".

  (** The command bodies, before [JSON.stringify]. *)
Definition setStateBody (st : string) (correlationId : string) : json :=
    JObj [ ("command", JObj [ ("state", JStr st); ("correlationID", JStr correlationId) ]);
           ("timeout", JNum 10) ].
Definition setBrightnessBody (st : string) (clampedLevel : Z) (correlationId : string) : json :=
    JObj [ ("command", JObj [ ("state", JStr st); ("level", JNum clampedLevel);
                              ("correlationID", JStr correlationId) ]);
           ("timeout", JNum 10) ].
Definition getStateBody (correlationId : string) : json :=
    JObj [ ("timeout", JNum 10);
           ("command", JObj [ ("correlationID", JStr correlationId) ]) ].

  (** [Math.max(0, Math.min(100, Math.round(level)))] on an integer level,
      which [Math.round] leaves as it is. *)
Definition clamp (level : Z) : Z := Z.max 0 (Z.min 100 level).

  (** The bearer token in a template literal. *)
Definition token_text (t : jsval) : string := Json.text t.

Definition commandHeaders (token : jsval) (body : option string)
    : list (string * string) :=
    [ ("Content-Type", "application/json");
      ("Accept", "*/*");
      ("User-Agent", userAgent);
      ("Ocp-Apim-Subscription-Key", subscriptionKey);
      ("Authorization", "Bearer " +++ token_text token);
      ("Accept-Language", "en-US;q=1.0");
      ("Accept-Encoding", "gzip, deflate") ]
    ++ match body with
       | Some b => [ ("Content-Length", LegrandAuth.byteLength b) ]
       | None => []
       end.

  (** What [setAccessToken] leaves: the token and its expiry in the client
    and, when there is one, in its [LegrandAuth], whose refresh token is
    dropped. *)
Definition token_set (token : string) (expiry : Z) (s : state) : state :=
  State (config s)
    (option_map (fun a => LegrandAuth.with_tokens a (Some (JStr token)) (Some JNull)
                            (Js.Num expiry)) (auth s))
    (Some token) expiry.

(** The request [makeRequest] sends; an empty body is not written. *)
Definition commandRequest (method url : string) (token : jsval)
      (body : option string) : request :=
    let sentBody := match body with
                    | Some b => if Js.truthy b then Some b else None
                    | None => None
                    end in
    Request method url (commandHeaders token sentBody) sentBody.

  (** The world after a line that is logged only when [config.debug] is set. *)
Definition debugged (s : state) (line : string) (w : world) : world :=
    if debug (config s) then record_log Debug line w else w.

  (** The exchange completed with a status from 200 to 299. *)
Definition is_2xx (x : reply) : bool :=
    match x with
    | Resp res => (statusCode res >=? 200)%Z && (statusCode res <? 300)%Z
    | NetErr _ => false
    end.

  Section Methods.
    Context `{Runtime}.

    (** [ensureAuthenticated] *)
Definition ensureAuthenticated : prog state unit :=
      (s <- get ;;
       let viaAuth : prog state unit :=
         match auth s with
         | Some a => on_auth a LegrandAuth.getAccessToken ;; Ret tt
         | None =>
             if negb (Js.truthy_opt (manualToken s)) then
               Throw (Js.Error ("No authentication available. " +++
                 "Please provide email/password in config or set an access token manually."))
             else Ret tt
         end in
       if Js.truthy_opt (manualToken s) then
         t <- now ;;
         if (t <? manualTokenExpiry s - 60000)%Z then Ret tt else viaAuth
       else viaAuth)%prog.

    (** [getAccessToken] *)
Definition getAccessToken : prog state jsval :=
      (s <- get ;;
       match auth s with
       | Some a => on_auth a LegrandAuth.getAccessToken
       | None =>
           if Js.truthy_opt (manualToken s) then Ret (Json.of_string (manualToken s))
           else Throw (Js.Error "No access token available")
       end)%prog.

    (** [setAccessToken(token, expiresIn)]; the caller passes 3600 for
        [expiresIn] when it leaves it out. *)
Definition setAccessToken (token : string) (expiresIn : Z) : prog state unit :=
      (s <- get ;;
       t <- now ;;
       put (set_manual (Some token) (t + expiresIn * 1000) s) ;;
       match auth s with
       | Some a => on_auth a (LegrandAuth.setTokens token None expiresIn)
       | None => Ret tt
       end ;;
       log Info "Access token set manually")%prog.

    (** The [end] handler of [makeRequest]. *)
Definition settle (res : response) : prog state json :=
      if (statusCode res >=? 200)%Z && (statusCode res <? 300)%Z then
        if Js.truthy (data res) then
          match JSON_parse (data res) with
          | Some j => Ret j
          | None => Ret (JObj [])
          end
        else Ret (JObj [])
      else Throw (Js.Error ("HTTP " +++ Js.dec (statusCode res) +++ ": " +++ data res)).

    (** [makeRequest(method, url, body)] *)
Definition makeRequest (method url : string) (body : option string) : prog state json :=
      (token <- getAccessToken ;;
       s <- get ;;
       when (debug (config s)) (log Debug (method +++ " " +++ url)) ;;
       x <- https_request (commandRequest method url token body) ;;
       match x with
       | NetErr e => Throw e
       | Resp res => settle res
       end)%prog.

Definition debugResponse (what : string) (response : json) : prog state unit :=
      (s <- get ;;
       when (debug (config s)) (log Debug (what +++ " response: " +++ Json.stringify response)))%prog.

    (** [setState(deviceId, state)] *)
Definition setState (deviceId : string) (st : power) : prog state bool :=
      (ensureAuthenticated ;;
       correlationId <- randomUUID ;;
       let body := Json.stringify (setStateBody (power_string st) correlationId) in
       let url := setStateUrl deviceId in
       try_catch
         (response <- makeRequest "POST" url (Some body) ;;
          debugResponse "setState" response ;;
          Ret true)
         (fun error =>
            log Err ("Failed to set state: " +++ Js.to_string error) ;;
            Ret false))%prog.

    (** [setBrightness(deviceId, level)] *)
Definition setBrightness (deviceId : string) (level : Z) : prog state bool :=
      (ensureAuthenticated ;;
       correlationId <- randomUUID ;;
       let clampedLevel := clamp level in
       let st := if (clampedLevel >? 0)%Z then "on" else "off" in
       let body := Json.stringify (setBrightnessBody st clampedLevel correlationId) in
       let url := setStateUrl deviceId in
       try_catch
         (response <- makeRequest "POST" url (Some body) ;;
          debugResponse "setBrightness" response ;;
          log Info ("Set " +++ deviceId +++ " brightness to " +++ Js.dec clampedLevel +++ "%") ;;
          Ret true)
         (fun error =>
            log Err ("Failed to set brightness: " +++ Js.to_string error) ;;
            Ret false))%prog.

    (** [turnOn] and [turnOff] *)
Definition turnOn (deviceId : string) : prog state bool :=
      (log Info ("Turning on device " +++ deviceId) ;; setState deviceId PowerOn)%prog.
Definition turnOff (deviceId : string) : prog state bool :=
      (log Info ("Turning off device " +++ deviceId) ;; setState deviceId PowerOff)%prog.

    (** What [getStatus] reads out of the response. *)
Definition readState (response : json) : option DeviceState :=
      match response with
      | JObj fs =>
          match Json.assoc "payload" fs with
          | Some payload =>
              if Json.truthy (Some payload) then
                match payload with
                | JObj pf =>
                    Some {| on := Json.is_string (Json.assoc "state" pf) "on";
                            brightness := match Json.assoc "level" pf with
                                          | Some (JNum n) => Some n
                                          | _ => None
                                          end |}
                | _ => Some {| on := false; brightness := None |}
                end
              else None
          | None => None
          end
      | _ => None
      end.

    (** [getStatus(deviceId)] *)
Definition getStatus (deviceId : string) : prog state (option DeviceState) :=
      (ensureAuthenticated ;;
       correlationId <- randomUUID ;;
       let body := Json.stringify (getStateBody correlationId) in
       let url := getStateUrl deviceId in
       try_catch
         (response <- makeRequest "POST" url (Some body) ;;
          debugResponse "getState" response ;;
          Ret (readState response))
         (fun error =>
            log Err ("Failed to get device status: " +++ Js.to_string error) ;;
            Ret None))%prog.

    (** What [makeRequest] resolves with on a status from 200 to 299: the
    parsed body, or the empty object for an empty body or one that does not
    parse. *)
Definition parsed_body (res : response) : json :=
  if Js.truthy (data res)
  then match JSON_parse (data res) with Some j => j | None => JObj [] end
  else JObj [].

(** What a query makes of the reply to its request: [ok] of the parsed
    body on a status from 200 to 299, [fallback] otherwise. *)
Definition answer {A} (ok : json -> A) (fallback : A) (x : reply) : A :=
  match x with
  | Resp res => if is_2xx x then ok (parsed_body res) else fallback
  | NetErr _ => fallback
  end.

Definition plantsUrl : string := baseUrl +++ "/servicecatalog/api/v3.0/plants".
Definition modulesUrl (plantId : string) : string :=
  baseUrl +++ "/servicecatalog/api/v3.0/plants/" +++ plantId +++ "/modules".

(** [Array.isArray(response) ? response : []] *)
Definition asArray (response : json) : list json :=
  match response with JArr items => items | _ => [] end.

(** The body [getPlants] and [getModules] share, after authentication. *)
Definition listing (url what : string) : prog state (list json) :=
  try_catch
    (response <- makeRequest "GET" url None ;; Ret (asArray response))%prog
    (fun error =>
       log Err ("Failed to get " +++ what +++ ": " +++ Js.to_string error) ;;
       Ret [])%prog.

(** [getPlants] *)
Definition getPlants : prog state (list json) :=
  (ensureAuthenticated ;; listing plantsUrl "plants")%prog.

(** [getModules(plantId)] *)
Definition getModules (plantId : string) : prog state (list json) :=
  (ensureAuthenticated ;; listing (modulesUrl plantId) "modules")%prog.

(** The inner loop of [discoverDevices]: a log line for each module. *)
Fixpoint announceModules (modules : list json) : prog state unit :=
  match modules with
  | [] => Ret tt
  | module :: rest =>
      match Json.prop module "name", Json.prop module "deviceType",
            Json.prop module "status" with
      | inr name, inr deviceType, inr status =>
          (log Info ("  Found device: " +++ text name +++ " (" +++ text deviceType
                     +++ ") - " +++ text status) ;;
           announceModules rest)%prog
      | inl e, _, _ | _, inl e, _ | _, _, inl e => Throw e
      end
  end.

(** The outer loop of [discoverDevices]. *)
Fixpoint discoverLoop (plants : list json) (allModules : list json)
  : prog state (list json) :=
  match plants with
  | [] => Ret allModules
  | plant :: rest =>
      match Json.prop plant "name", Json.prop plant "id" with
      | inr name, inr id =>
          (log Info ("Found plant: " +++ text name +++ " (" +++ text id +++ ")") ;;
           modules <- getModules (text id) ;;
           announceModules modules ;;
           discoverLoop rest (allModules ++ modules))%prog
      | inl e, _ | _, inl e => Throw e
      end
  end.

(** [discoverDevices] *)
Definition discoverDevices : prog state (list json) :=
  (plants <- getPlants ;; discoverLoop plants [])%prog.

(** The shape [setState] and [setBrightness] share: authenticate, draw
        a correlation id, post, and turn the result of the post into a
        boolean. Both methods are instances of it, as shown below. *)
Definition command (url : string) (body : string -> string)
        (onOk : json -> prog state bool) (complaint : Js.exn -> string) : prog state bool :=
      (ensureAuthenticated ;;
       correlationId <- randomUUID ;;
       try_catch
         (response <- makeRequest "POST" url (Some (body correlationId)) ;; onOk response)
         (fun error => log Err (complaint error) ;; Ret false))%prog.

    (** What follows a successful post only logs, and answers [true]. *)
Definition only_logs (onOk : json -> prog state bool) : Prop :=
      forall j s w, exists w',
        run (onOk j) s w = (Resolved true, s, w') /\ sent w' = sent w.

  End Methods.

End LegrandCloudApi.

(** The error [ensureAuthenticated] throws when there is neither a
    [LegrandAuth] nor a manual token. *)
Definition noAuthentication : Js.exn :=
  Js.Error ("No authentication available. " +++
            "Please provide email/password in config or set an access token manually.").

(* ===================================================================== *)
(** * Overlapping calls on one object                                     *)
(* ===================================================================== *)

Module EventLoop.

  Section Loop.
    Context {S A : Type}.

    (** A call is waiting for the reply to the request it sent, or is
        settled. *)
Inductive task :=
    | Waiting (req : request) (k : reply -> prog S A)
    | Settled (o : outcome A).

    (** Run a call up to its next HTTPS exchange: JavaScript runs it
        without interruption until then. *)
Fixpoint advance (p : prog S A) (s : S) (w : world) : task * S * world :=
      match p with
      | Ret a => (Settled (Resolved a), s, w)
      | Throw e => (Settled (Rejected e), s, w)
      | Uncaught e => (Settled (NeverSettles e), s, w)
      | GetS k => advance (k s) s w
      | PutS s' k => advance k s' w
      | DateNow k => advance (k (clock w)) s w
      | RandomBytes n k => let '(b, w') := draw n w in advance (k b) s w'
      | RandomUUID k => let '(u, w') := issue w in advance (k u) s w'
      | Log l m k => advance k s (record_log l m w)
      | HttpsRequest r k =>
          (Waiting r k, s,
           World (clock w) (entropy w) (drawn w) (uuids w) (issued w) (net w)
                 (sent w ++ [r]) (logged w))
      end.

Record loop := Loop {
      object : S;
      env : world;
      tasks : list task;
    }.

    (** A new call of the method, the arrival of the reply to the request
        of call [i], and the passing of time. *)
Inductive event :=
    | Call
    | Arrive (i : nat) (x : reply)
    | Elapse (d : Z).

Definition step (method : prog S A) (e : event) (l : loop) : loop :=
      match e with
      | Call =>
          let '(t, s, w) := advance method (object l) (env l) in
          Loop s w (tasks l ++ [t])
      | Arrive i x =>
          match tasks l !! i with
          | Some (Waiting _ k) =>
              let '(t, s, w) := advance (k x) (object l) (env l) in
              Loop s w (<[i := t]> (tasks l))
          | _ => l
          end
      | Elapse d => Loop (object l) (tick d (env l)) (tasks l)
      end.

Definition steps (method : prog S A) (es : list event) (l : loop) : loop :=
      fold_left (fun l e => step method e l) es l.

Definition waiting (t : task) : bool :=
      match t with Waiting _ _ => true | Settled _ => false end.

    (** The requests awaiting their reply. *)
Definition pending (ts : list task) : list request :=
      flat_map (fun t => match t with Waiting r _ => [r] | Settled _ => [] end) ts.

Definition settled (ts : list task) : list (option (outcome A)) :=
      map (fun t => match t with Waiting _ _ => None | Settled o => Some o end) ts.

Definition in_flight (l : loop) : list request := pending (tasks l).

Definition outcomes (l : loop) : list (option (outcome A)) := settled (tasks l).

  End Loop.

  Arguments task : clear implicits.
  Arguments loop : clear implicits.

End EventLoop.

(* ===================================================================== *)
(** * cloudPlatform.ts: the polling of [LegrandCloudPlatform]             *)
(* ===================================================================== *)

Module LegrandCloudPlatform.

  (** The part of [PlatformConfig] the polling reads; an absent
      [pollingInterval] is 0. *)
Record PlatformConfig := {
    debug : bool;
    pollingInterval : Z;
  }.

  (** The state of a [LegrandCloudAccessory] that [updateState] touches. *)
Record accessory := Accessory {
    deviceName : string;
    isDimmer : bool;
    acc_on : bool;
    acc_brightness : Z;
  }.

Record state := State {
    config : PlatformConfig;
    cloudApi : LegrandCloudApi.state;
    (* a Map, iterated in insertion order *)
    accessoryHandlers : list (string * accessory);
    (* the interval timer and its period in milliseconds, [None] for null *)
    pollingTimer : option Z;
  }.

Definition set_cloudApi (a : LegrandCloudApi.state) (s : state) : state :=
    State (config s) a (accessoryHandlers s) (pollingTimer s).
Definition set_handlers (h : list (string * accessory)) (s : state) : state :=
    State (config s) (cloudApi s) h (pollingTimer s).
Definition set_timer (t : option Z) (s : state) : state :=
    State (config s) (cloudApi s) (accessoryHandlers s) t.

Definition on_cloudApi {A} (p : prog LegrandCloudApi.state A) : prog state A :=
    zoom cloudApi set_cloudApi p.

(** The period [setInterval(callback, delay)] arms the timer with: Node
    takes 1 for a delay below 1 or above 2^31 - 1. *)
Definition setInterval (delay : Z) : Z :=
  if (1 <=? delay)%Z && (delay <=? 2147483647)%Z then delay else 1.

(** Two states of the platform with the same timer, the same
    configuration and the same devices in the map. *)
Definition same_shape (s s' : state) : Prop :=
  pollingTimer s' = pollingTimer s
  /\ config s' = config s
  /\ map fst (accessoryHandlers s') = map fst (accessoryHandlers s).

Definition bool_text (b : bool) : string := if b then "true" else "false".
Definition onoff_text (b : bool) : string := if b then "ON" else "OFF".
Definition brightness_text (b : option Z) : string :=
    match b with Some n => Js.dec n | None => "undefined" end.

  (** [LegrandCloudAccessory.updateState(isOn, brightness)]: the new
      fields and the debug lines it logs. *)
Definition updateState (isOn : bool) (brightness : option Z) (h : accessory)
    : accessory * list string :=
    let '(h1, l1) :=
      if negb (Bool.eqb (acc_on h) isOn)
      then (Accessory (deviceName h) (isDimmer h) isOn (acc_brightness h),
            [deviceName h +++ " state updated: " +++ onoff_text isOn])
      else (h, []) in
    match brightness with
    | Some b =>
        if isDimmer h1 && negb (acc_brightness h1 =? b)%Z
        then (Accessory (deviceName h1) (isDimmer h1) (acc_on h1) b,
              (l1 ++ [deviceName h1 +++ " brightness updated: " +++ Js.dec b +++ "%"])%list)
        else (h1, l1)
    | None => (h1, l1)
    end.

Fixpoint update_handler (deviceId : string) (f : accessory -> accessory)
      (hs : list (string * accessory)) : list (string * accessory) :=
    match hs with
    | [] => []
    | (k, h) :: rest =>
        if (k =? deviceId)%string then (k, f h) :: rest
        else (k, h) :: update_handler deviceId f rest
    end.

Fixpoint find_handler (deviceId : string) (hs : list (string * accessory))
    : option accessory :=
    match hs with
    | [] => None
    | (k, h) :: rest => if (k =? deviceId)%string then Some h else find_handler deviceId rest
    end.

  Section Methods.
    Context `{Runtime}.

    (** The [try] block of the loop of [pollDeviceStatus], for the entry
        [deviceId] of the map; the handler is the object the map holds. *)
Definition pollOne (deviceId : string) : prog state unit :=
      (st <- on_cloudApi (LegrandCloudApi.getStatus deviceId) ;;
       s <- get ;;
       match st with
       | Some ds =>
           when (debug (config s))
             (log Debug ("  " +++ deviceId +++ ": on=" +++ bool_text (LegrandCloudApi.on ds)
                         +++ ", brightness="
                         +++ brightness_text (LegrandCloudApi.brightness ds))) ;;
           match find_handler deviceId (accessoryHandlers s) with
           | Some handler =>
               let '(h', lines) :=
                 updateState (LegrandCloudApi.on ds) (LegrandCloudApi.brightness ds) handler in
               put (set_handlers (update_handler deviceId (fun _ => h') (accessoryHandlers s)) s) ;;
               log_all Debug lines
           | None => Ret tt
           end
       | None =>
           when (debug (config s)) (log Debug ("  " +++ deviceId +++ ": no state returned"))
       end)%prog.

    (** The loop of [pollDeviceStatus]; [true] from an iteration goes on
        to the next entry, [false] is the [return] in the [catch]. *)
Fixpoint pollLoop (keys : list string) : prog state unit :=
      match keys with
      | [] => Ret tt
      | deviceId :: rest =>
          (goOn <- try_catch (pollOne deviceId ;; Ret true)
                     (fun error =>
                        let errorMessage := Js.message error in
                        if Js.includes errorMessage "401" || Js.includes errorMessage "auth"
                        then
                          log Err "Polling failed: Authentication error - check email/password" ;;
                          Ret false
                        else
                          log Warn ("Polling error for " +++ deviceId +++ ": " +++ errorMessage) ;;
                          Ret true) ;;
           if goOn then pollLoop rest else Ret tt)%prog
      end.

    (** [pollDeviceStatus] *)
Definition pollDeviceStatus : prog state unit :=
      (s <- get ;;
       when (debug (config s))
         (log Debug "Polling for device status (using getState command)...") ;;
       pollLoop (map fst (accessoryHandlers s)))%prog.

    (** [stopPolling] *)
Definition stopPolling : prog state unit :=
      (s <- get ;;
       match pollingTimer s with
       | Some _ => put (set_timer None s)
       | None => Ret tt
       end)%prog.

    (** What happens to the platform: the devices were registered and
        [startPolling] is called, the interval timer fires, Homebridge
        shuts down, the reply to the request of the poll [i] arrives, time
        passes. *)
Inductive event :=
    | Started
    | IntervalElapsed
    | Shutdown
    | Arrive (i : nat) (x : reply)
    | Elapse (d : Z).

    (** The platform on Node's event loop: its fields, the world, the
        polls started so far and where each of them stands. *)
Record system := System {
      platform : state;
      outside : world;
      (* how many times pollDeviceStatus was called *)
      polls : nat;
      running : list (EventLoop.task state unit);
    }.

    (** [this.pollDeviceStatus()], not awaited: the poll runs up to its
        first HTTPS exchange and goes on when the reply arrives. *)
Definition launch (y : system) : system :=
      let '(t, s, w) := EventLoop.advance pollDeviceStatus (platform y) (outside y) in
      System s w (S (polls y)) (running y ++ [t]).

    (** [startPolling]: on an armed timer a log line and nothing else;
        otherwise the log line, [this.pollDeviceStatus()] not awaited, and
        then [setInterval], in that order. *)
Definition startPolling (y : system) : system :=
      match pollingTimer (platform y) with
      | Some _ =>
          System (platform y) (record_log Debug "Polling already running" (outside y))
            (polls y) (running y)
      | None =>
          let intervalSeconds :=
            if (pollingInterval (config (platform y)) =? 0)%Z then 30
            else pollingInterval (config (platform y)) in
          let interval := (intervalSeconds * 1000)%Z in
          let y1 := launch (System (platform y)
                              (record_log Info
                                 ("Starting status polling every " +++ Js.dec intervalSeconds
                                  +++ " seconds") (outside y))
                              (polls y) (running y)) in
          System (set_timer (Some (setInterval interval)) (platform y1)) (outside y1)
            (polls y1) (running y1)
      end.

Definition fire (e : event) (y : system) : system :=
      match e with
      | Started => startPolling y
      | IntervalElapsed =>
          (* the callback of setInterval; a cleared timer does not fire *)
          match pollingTimer (platform y) with
          | Some _ => launch y
          | None => y
          end
      | Shutdown =>
          let r := run (log Info "Shutting down, stopping polling..." ;; stopPolling)%prog
                       (platform y) (outside y) in
          System (snd (fst r)) (snd r) (polls y) (running y)
      | Arrive i x =>
          match running y !! i with
          | Some (EventLoop.Waiting _ k) =>
              let '(t, s, w) := EventLoop.advance (k x) (platform y) (outside y) in
              System s w (polls y) (<[i := t]> (running y))
          | _ => y
          end
      | Elapse d => System (platform y) (tick d (outside y)) (polls y) (running y)
      end.

Definition fire_all (es : list event) (y : system) : system :=
      fold_left (fun y e => fire e y) es y.

    (** A stretch of code that, run while the timer is [t], leaves it so,
        and goes on doing so after each of its HTTPS exchanges whatever the
        timer has become by then. *)
Fixpoint keeps_timer {A} (t : option Z) (p : prog state A) : Prop :=
      match p with
      | Ret _ | Throw _ | Uncaught _ => True
      | GetS k => forall s, pollingTimer s = t -> keeps_timer t (k s)
      | PutS s k => pollingTimer s = t /\ keeps_timer t k
      | DateNow k => forall z, keeps_timer t (k z)
      | RandomBytes n k => forall b, keeps_timer t (k b)
      | RandomUUID k => forall u, keeps_timer t (k u)
      | Log _ _ k => keeps_timer t k
      | HttpsRequest _ k => forall x t', keeps_timer t' (k x)
      end.

Definition task_keeps_timer {A} (tk : EventLoop.task state A) : Prop :=
      match tk with
      | EventLoop.Waiting _ k => forall x t, keeps_timer t (k x)
      | EventLoop.Settled _ => True
      end.

    (** The number of polls the events [es] start on an armed timer. *)
Definition intervals (es : list event) : nat :=
      length (List.filter (fun e => match e with IntervalElapsed => true | _ => false end) es).

Definition is_shutdown (e : event) : bool :=
      match e with Shutdown => true | _ => false end.

Definition is_start (e : event) : bool :=
      match e with Started => true | _ => false end.

  End Methods.

End LegrandCloudPlatform.

(* ===================================================================== *)
(** * cloudAccessory.ts: the handlers of [LegrandCloudAccessory]          *)
(* ===================================================================== *)

Module LegrandCloudAccessory.

Import LegrandCloudPlatform.

Definition set_on (isOn : bool) (h : accessory) : accessory :=
  Accessory (deviceName h) (isDimmer h) isOn (acc_brightness h).

Definition set_level (brightness : Z) (h : accessory) : accessory :=
  Accessory (deviceName h) (isDimmer h) (brightness >? 0)%Z brightness.

Section Handlers.
Context `{Runtime}.

(** The accessory registered for [deviceId]; its fields live in the
    platform's map. *)
Variable deviceId : string.
Variable name : string.

(** [setOn(value)] *)
Definition setOn (isOn : bool) : prog state unit :=
  (log Debug ("Setting " +++ name +++ " to " +++ onoff_text isOn) ;;
   try_catch
     (success <- on_cloudApi (if isOn then LegrandCloudApi.turnOn deviceId
                              else LegrandCloudApi.turnOff deviceId) ;;
      if success then
        s <- get ;;
        put (set_handlers (update_handler deviceId (set_on isOn) (accessoryHandlers s)) s) ;;
        log Info (name +++ " is now " +++ onoff_text isOn)
      else Throw (Js.Error "Failed to set power state"))
     (fun error =>
        log Err ("Error setting power: " +++ Js.to_string error) ;;
        Throw error))%prog.

(** [setBrightness(value)] *)
Definition setBrightness (brightness : Z) : prog state unit :=
  (log Debug ("Setting " +++ name +++ " brightness to " +++ Js.dec brightness +++ "%") ;;
   try_catch
     (success <- on_cloudApi (LegrandCloudApi.setBrightness deviceId brightness) ;;
      if success then
        s <- get ;;
        put (set_handlers
               (update_handler deviceId (set_level brightness) (accessoryHandlers s)) s)
      else Throw (Js.Error "Failed to set brightness"))
     (fun error =>
        log Err ("Error setting brightness: " +++ Js.to_string error) ;;
        Throw error))%prog.

(** [getOn] and [getBrightness]: what the accessory last recorded. *)
Definition getOn (s : state) : option bool :=
  option_map acc_on (find_handler deviceId (accessoryHandlers s)).
Definition getBrightness (s : state) : option Z :=
  option_map acc_brightness (find_handler deviceId (accessoryHandlers s)).

End Handlers.

End LegrandCloudAccessory.

(* ===================================================================== *)
(** * cloudPlatform.ts: the accessories registered with Homebridge        *)
(* ===================================================================== *)

Module Registration.

(** What the host supplies: [String.prototype.trim] and
    [api.hap.uuid.generate]. Nothing is assumed of either. *)
Class Host := {
  trim : string -> string;
  generate : string -> string;
}.

(** [DeviceConfig]; a configuration file may leave [name] out, which is
    what [device.name?.trim()] allows for. *)
Record DeviceConfig := {
  id : string;
  name : option string;
  type : option string;
}.

(** The fields of a [PlatformAccessory] this code reads and writes; the
    three [context] fields are undefined until [addDevice] sets them. *)
Record PlatformAccessory := NewAccessory {
  displayName : string;
  UUID : string;
  deviceId : option string;
  deviceName : option string;
  deviceType : option string;
}.

Definition accessory_eq_dec (a b : PlatformAccessory) : {a = b} + {a <> b}.
Proof.
  decide equality; try apply string_dec;
    (decide equality; apply string_dec).
Defined.

(** The calls made on the Homebridge API. *)
Inductive call :=
| registerPlatformAccessories (l : list PlatformAccessory)
| updatePlatformAccessories (l : list PlatformAccessory)
| unregisterPlatformAccessories (l : list PlatformAccessory).

(** [this.accessories], [this.accessoryHandlers] and the calls made on
    [this.api] so far. The entries of [accessories] are distinct objects. *)
Record state := State {
  accessories : list PlatformAccessory;
  accessoryHandlers : list (string * LegrandCloudPlatform.accessory);
  homebridge : list call;
}.

(** [map.set(key, value)]: an entry keeps its place when the key is
    there already, and goes last otherwise. *)
Fixpoint map_set {V} (key : string) (value : V) (m : list (string * V)) : list (string * V) :=
  match m with
  | [] => [(key, value)]
  | (k, v) :: rest =>
      if (k =? key)%string then (k, value) :: rest else (k, v) :: map_set key value rest
  end.

(** Writing the three context fields of the first accessory with the
    given UUID, the object [find] returned. *)
Fixpoint set_context (uuid : string) (f : PlatformAccessory -> PlatformAccessory)
    (l : list PlatformAccessory) : list PlatformAccessory :=
  match l with
  | [] => []
  | a :: rest =>
      if (UUID a =? uuid)%string then f a :: rest else a :: set_context uuid f rest
  end.

Definition with_context (dId dName dType : string) (a : PlatformAccessory)
    : PlatformAccessory :=
  NewAccessory (displayName a) (UUID a) (Some dId) (Some dName) (Some dType).

(** [new LegrandCloudAccessory(platform, accessory, deviceId, deviceName,
    deviceType)]: the state the handler starts with. *)
Definition new_handler (dName dType : string) : LegrandCloudPlatform.accessory :=
  LegrandCloudPlatform.Accessory dName (dType =? "dimmer")%string false 100.

(** [x || 'switch'] *)
Definition or_switch (t : option string) : string :=
  match t with
  | Some x => if Js.truthy x then x else "switch"
  | None => "switch"
  end.

(** [array.splice(array.indexOf(acc), 1)] when the index is not -1. The
    source finds [acc] by identity and this finds it by its fields; the
    list of values that is left is the same. *)
Fixpoint splice_out (acc : PlatformAccessory) (l : list PlatformAccessory)
    : list PlatformAccessory :=
  match l with
  | [] => []
  | a :: rest => if accessory_eq_dec a acc then rest else a :: splice_out acc rest
  end.

(** [validIds.has(accessory.context.deviceId)] *)
Definition has (validIds : list string) (dId : option string) : bool :=
  match dId with
  | Some d => existsb (String.eqb d) validIds
  | None => false
  end.

Section Methods.
Context `{Host}.

(** [configureAccessory(accessory)] *)
Definition configureAccessory (accessory : PlatformAccessory) : prog state unit :=
  (log Info ("Loading accessory from cache: " +++ displayName accessory) ;;
   s <- get ;;
   put (State (accessories s ++ [accessory]) (accessoryHandlers s) (homebridge s)))%prog.

(** [device.name?.trim() || `Legrand Device ${device.id.substring(0, 8)}`] *)
Definition chosen_name (device : DeviceConfig) : string :=
  let fallback := "Legrand Device " +++ Js.substring0 8 (id device) in
  match name device with
  | Some n => if Js.truthy (trim n) then trim n else fallback
  | None => fallback
  end.

(** [addDevice(device)] *)
Definition addDevice (device : DeviceConfig) : prog state unit :=
  (let dName := chosen_name device in
   if negb (Js.truthy dName) then
     log Err ("Cannot add device " +++ id device +++ " - no valid name")
   else
     let uuid := generate ("legrand-cloud-" +++ id device) in
     s <- get ;;
     match find (fun acc => (UUID acc =? uuid)%string) (accessories s) with
     | Some existingAccessory =>
         log Info ("Restoring existing accessory: " +++ displayName existingAccessory) ;;
         let updated := with_context (id device) dName (or_switch (type device))
                          existingAccessory in
         put (State
                (set_context uuid
                   (with_context (id device) dName (or_switch (type device)))
                   (accessories s))
                (map_set (id device) (new_handler dName (or_switch (type device)))
                   (accessoryHandlers s))
                (homebridge s ++ [updatePlatformAccessories [updated]]))
     | None =>
         log Info ("Adding new accessory: " +++ dName) ;;
         let accessory := with_context (id device) dName (or_switch (type device))
                            (NewAccessory dName uuid None None None) in
         put (State
                (accessories s ++ [accessory])
                (map_set (id device) (new_handler dName (or_switch (type device)))
                   (accessoryHandlers s))
                (homebridge s ++ [registerPlatformAccessories [accessory]]))
     end)%prog.

(** The first loop of [cleanupOldAccessories]: a line for each accessory
    it is going to remove. *)
Fixpoint announceRemovals (l : list PlatformAccessory) : prog state unit :=
  match l with
  | [] => Ret tt
  | a :: rest =>
      (log Info ("Removing old accessory: " +++ displayName a) ;; announceRemovals rest)%prog
  end.

(** [cleanupOldAccessories(validIds)] *)
Definition cleanupOldAccessories (validIds : list string) : prog state unit :=
  (s <- get ;;
   let toRemove := List.filter (fun a => negb (has validIds (deviceId a))) (accessories s) in
   announceRemovals toRemove ;;
   match toRemove with
   | [] => Ret tt
   | _ :: _ =>
       put (State
              (fold_left (fun l acc => splice_out acc l) toRemove (accessories s))
              (accessoryHandlers s)
              (homebridge s ++ [unregisterPlatformAccessories toRemove]))
   end)%prog.

End Methods.

End Registration.


(* ===================================================================== *)
(** * The cookie jar as the specification words it                        *)
(* ===================================================================== *)

(** Section 4.3 of the specification: a mapping from cookie names to
    values that keeps the order of insertion. [merge] and [serialize]
    follow its words; the code's [merge_cookies] and [cookie_header] are
    compared with them below. *)
Module CookieJar.












End CookieJar.

(* ===================================================================== *)
(** * A reference runtime                                                 *)
(* ===================================================================== *)

(** The general results hold for every [Runtime]. The scenarios below are
    run on this one: a JSON reader for the bodies the services send
    (objects, arrays, strings with the short escapes, integers and the
    three literals), the numeric value of a decimal string, the six regular
    expressions written out as scanners, and percent-decoding of ASCII. *)
Module Reference.

Definition is_ws (c : ascii) : bool :=
    let n := nat_of_ascii c in ((n =? 32) || (n =? 9) || (n =? 10) || (n =? 13))%nat.
Definition is_dq (c : ascii) : bool := (nat_of_ascii c =? 34)%nat.
Definition is_sq (c : ascii) : bool := (nat_of_ascii c =? 39)%nat.
Definition is_digit (c : ascii) : bool :=
    let n := nat_of_ascii c in ((48 <=? n) && (n <=? 57))%nat.

Fixpoint skip_ws (s : string) : string :=
    match s with
    | String c s' => if is_ws c then skip_ws s' else s
    | EmptyString => s
    end.

  (** The characters of a string literal after its opening quote. *)
Fixpoint string_body (s : string) : option (string * string) :=
    match s with
    | EmptyString => None
    | String c s' =>
        if is_dq c then Some (EmptyString, s')
        else if (nat_of_ascii c =? 92)%nat then
          match s' with
          | String e s'' =>
              let n := nat_of_ascii e in
              let plain (x : nat) :=
                match string_body s'' with
                | Some (t, r) => Some (String (ascii_of_nat x) t, r)
                | None => None
                end in
              if (n =? 34)%nat then plain 34%nat
              else if (n =? 92)%nat then plain 92%nat
              else if (n =? 47)%nat then plain 47%nat
              else if (n =? 98)%nat then plain 8%nat
              else if (n =? 102)%nat then plain 12%nat
              else if (n =? 110)%nat then plain 10%nat
              else if (n =? 114)%nat then plain 13%nat
              else if (n =? 116)%nat then plain 9%nat
              else None
          | EmptyString => None
          end
        else if (nat_of_ascii c <? 32)%nat then None
        else
          match string_body s' with
          | Some (t, r) => Some (String c t, r)
          | None => None
          end
    end.

Fixpoint digits (s : string) (acc : Z) (seen : bool) : option (Z * string) :=
    match s with
    | String c s' =>
        if is_digit c then digits s' (acc * 10 + (Z.of_nat (nat_of_ascii c) - 48)) true
        else if seen then Some (acc, s) else None
    | EmptyString => if seen then Some (acc, s) else None
    end.

Definition number (s : string) : option (json * string) :=
    let signed (neg : bool) (t : string) :=
      match digits t 0 false with
      | Some (n, r) =>
          match r with
          | String c _ =>
              (* a fraction or an exponent is not read *)
              if (Ascii.eqb c ".") || (Ascii.eqb c "e") || (Ascii.eqb c "E") then None
              else Some (JNum (if neg then - n else n), r)
          | EmptyString => Some (JNum (if neg then - n else n), r)
          end
      | None => None
      end in
    match s with
    | String c s' => if Ascii.eqb c "-" then signed true s' else signed false s
    | EmptyString => None
    end.

Definition literal (lit : string) (v : json) (s : string) : option (json * string) :=
    if String.prefix lit s
    then Some (v, String.substring (String.length lit) (String.length s - String.length lit) s)
    else None.

Fixpoint value (fuel : nat) (s : string) : option (json * string) :=
    match fuel with
    | O => None
    | S f =>
        match skip_ws s with
        | EmptyString => None
        | String c rest =>
            if is_dq c then
              match string_body rest with
              | Some (t, r) => Some (JStr t, r)
              | None => None
              end
            else if Ascii.eqb c "{" then
              match skip_ws rest with
              | String c' r' => if Ascii.eqb c' "}" then Some (JObj [], r') else members f rest []
              | EmptyString => None
              end
            else if Ascii.eqb c "[" then
              match skip_ws rest with
              | String c' r' => if Ascii.eqb c' "]" then Some (JArr [], r') else items f rest []
              | EmptyString => None
              end
            else if Ascii.eqb c "t" then literal "true" (JBool true) (String c rest)
            else if Ascii.eqb c "f" then literal "false" (JBool false) (String c rest)
            else if Ascii.eqb c "n" then literal "null" JNull (String c rest)
            else number (String c rest)
        end
    end
  with members (fuel : nat) (s : string) (acc : list (string * json)) : option (json * string) :=
    match fuel with
    | O => None
    | S f =>
        match skip_ws s with
        | String c rest =>
            if is_dq c then
              match string_body rest with
              | Some (k, r) =>
                  match skip_ws r with
                  | String colon r1 =>
                      if Ascii.eqb colon ":" then
                        match value f r1 with
                        | Some (v, r2) =>
                            match skip_ws r2 with
                            | String d r3 =>
                                if Ascii.eqb d "," then members f r3 (acc ++ [(k, v)])
                                else if Ascii.eqb d "}" then Some (JObj (acc ++ [(k, v)]), r3)
                                else None
                            | EmptyString => None
                            end
                        | None => None
                        end
                      else None
                  | EmptyString => None
                  end
              | None => None
              end
            else None
        | EmptyString => None
        end
    end
  with items (fuel : nat) (s : string) (acc : list json) : option (json * string) :=
    match fuel with
    | O => None
    | S f =>
        match value f s with
        | Some (v, r) =>
            match skip_ws r with
            | String d r1 =>
                if Ascii.eqb d "," then items f r1 (acc ++ [v])
                else if Ascii.eqb d "]" then Some (JArr (acc ++ [v]), r1)
                else None
            | EmptyString => None
            end
        | None => None
        end
    end.

Definition parse (s : string) : option json :=
    match value (2 * String.length s + 2) s with
    | Some (j, r) => match skip_ws r with EmptyString => Some j | _ => None end
    | None => None
    end.

  (** The numeric value of a string that holds an integer in decimal,
      with white space around it or nothing at all (which is 0); the other
      numeric strings of the language (fractions, exponents, hexadecimal,
      Infinity) are not read and give [NaN] like the strings that are no number. *)
Fixpoint trim_end (s : string) : string :=
    match s with
    | EmptyString => EmptyString
    | String c s' =>
        match trim_end s' with
        | EmptyString => if is_ws c then EmptyString else String c EmptyString
        | t => String c t
        end
    end.

Definition string_to_number (s : string) : Js.number :=
    let t := trim_end (skip_ws s) in
    let unsigned (neg : bool) (u : string) :=
      match digits u 0 false with
      | Some (n, EmptyString) => Js.Num (if neg then - n else n)
      | _ => Js.NaN
      end in
    match t with
    | EmptyString => Js.Num 0
    | String c t' =>
        if Ascii.eqb c "-" then unsigned true t'
        else if Ascii.eqb c "+" then unsigned false t'
        else unsigned false t
    end.

  (** The longest run of characters that [stop] refuses, and what follows. *)
Fixpoint run_of (stop : ascii -> bool) (s : string) : string * string :=
    match s with
    | String c s' =>
        if stop c then (EmptyString, s)
        else let '(t, r) := run_of stop s' in (String c t, r)
    | EmptyString => (EmptyString, s)
    end.

Definition drop (n : nat) (s : string) : string :=
    String.substring n (String.length s - n) s.

  (** /lit([^stop]+)/ *)
Fixpoint capture_after (lit : string) (stop : ascii -> bool) (s : string) : option string :=
    let here :=
      if String.prefix lit s then
        match run_of stop (drop (String.length lit) s) with
        | (EmptyString, _) => None
        | (t, _) => Some t
        end
      else None in
    match here with
    | Some t => Some t
    | None =>
        match s with
        | String _ s' => capture_after lit stop s'
        | EmptyString => None
        end
    end.

  (** A quoted value at the head of [s]: [lit], one character or more that
      [stop] refuses, and a closing character that [close] accepts. *)
Definition quoted_here (lit : string) (stop close : ascii -> bool) (s : string)
    : option string :=
    if String.prefix lit s then
      match run_of stop (drop (String.length lit) s) with
      | (EmptyString, _) => None
      | (t, String c _) => if close c then Some t else None
      | (_, EmptyString) => None
      end
    else None.

  (** The last place in the run of non-[>] characters where the value
      attribute matches: the star is greedy. *)
Fixpoint last_value (s : string) (best : option string) : option string :=
    let best' := match quoted_here ("value=" +++ Json.dq) is_dq is_dq s with
                 | Some t => Some t
                 | None => best
                 end in
    match s with
    | String c s' => if Ascii.eqb c ">" then best' else last_value s' best'
    | EmptyString => best'
    end.

Fixpoint csrf_field (s : string) : option string :=
    let lit := "name=" +++ Json.dq +++ "csrf_token" +++ Json.dq in
    let here := if String.prefix lit s then last_value (drop (String.length lit) s) None else None in
    match here with
    | Some t => Some t
    | None => match s with String _ s' => csrf_field s' | EmptyString => None end
    end.

Definition is_quote (c : ascii) : bool := is_dq c || is_sq c.
Definition is_space (c : ascii) : bool :=
    let n := nat_of_ascii c in is_ws c || (n =? 11)%nat || (n =? 12)%nat.

Fixpoint skip_space (s : string) : string :=
    match s with
    | String c s' => if is_space c then skip_space s' else s
    | EmptyString => s
    end.

Fixpoint redirect (s : string) : option string :=
    let lit := "window.location" in
    let here :=
      if String.prefix lit s then
        match skip_space (drop (String.length lit) s) with
        | String c r =>
            if Ascii.eqb c "=" then
              match skip_space r with
              | String q r' =>
                  if is_quote q then
                    match run_of is_quote r' with
                    | (EmptyString, _) => None
                    | (t, String c' _) => if is_quote c' then Some t else None
                    | (_, EmptyString) => None
                    end
                  else None
              | EmptyString => None
              end
            else None
        | EmptyString => None
        end
      else None in
    match here with
    | Some t => Some t
    | None => match s with String _ s' => redirect s' | EmptyString => None end
    end.

Definition hexval (c : ascii) : option nat :=
    let n := nat_of_ascii c in
    if ((48 <=? n) && (n <=? 57))%nat then Some (n - 48)%nat
    else if ((65 <=? n) && (n <=? 70))%nat then Some (n - 55)%nat
    else if ((97 <=? n) && (n <=? 102))%nat then Some (n - 87)%nat
    else None.

Fixpoint percent_decode (s : string) : option string :=
    match s with
    | EmptyString => Some EmptyString
    | String c s' =>
        if Ascii.eqb c "%" then
          match s' with
          | String h (String l s'') =>
              match hexval h, hexval l, percent_decode s'' with
              | Some a, Some b, Some t =>
                  if (a <? 8)%nat then Some (String (ascii_of_nat (16 * a + b)) t) else None
              | _, _, _ => None
              end
          | _ => None
          end
        else
          match percent_decode s' with
          | Some t => Some (String c t)
          | None => None
          end
    end.

Definition runtime : Runtime := {|
    JSON_parse := parse;
    StringToNumber := string_to_number;
    match_csrf_field := csrf_field;
    match_tx := capture_after "StateProperties=" (fun c => is_dq c || Ascii.eqb c "&");
    match_csrf_cookie := capture_after "x-ms-cpim-csrf=" (fun c => Ascii.eqb c ";");
    match_code_param := capture_after "code=" (fun c => Ascii.eqb c "&");
    match_code_body :=
      capture_after "code=" (fun c => Ascii.eqb c "&" || is_quote c || is_space c);
    match_redirect := redirect;
    decodeURIComponent := percent_decode;
  |}.

End Reference.

(* ===================================================================== *)
(** * Canned services for the scenarios                                   *)
(* ===================================================================== *)

Module Fixtures.

Definition q (s : string) : string := Json.dq +++ s +++ Json.dq.

  (** The servers answer the n-th request with the n-th reply of a script,
      each after [latency] milliseconds, and with a transport error once
      the script is over. *)
Definition scripted (latency : Z) (script : list reply) : list request -> exchange :=
    fun reqs =>
      {| took := latency;
         result := nth (length reqs - 1) script
                     (NetErr (Js.Error "connect ECONNREFUSED")) |}.

Definition world0 (t : Z) (oracle : list request -> exchange) : world :=
    World t (fun _ => x2a) 0 (fun n => "c0ffee00-0000-4000-8000-00000000000" +++ Js.dec (Z.of_nat n))
          0 oracle [] [].

  (** S1: a login page with the CSRF token abc123 and the transaction
      StateProperties=xyz. *)
Definition loginPage : reply :=
    Resp (Response 200
      [ "x-ms-cpim-csrf=cookiecsrf; domain=login.eliotbylegrand.com; path=/; HttpOnly";
        "x-ms-cpim-trans=t1; path=/" ]
      None
      ("<form action=" +++ q "/SelfAsserted?tx=StateProperties=xyz&p=B2C_1" +++ ">"
       +++ "<input type=" +++ q "hidden" +++ " name=" +++ q "csrf_token"
       +++ " value=" +++ q "abc123" +++ "/></form>")).

  (** S2: credentials accepted. *)
Definition accepted : reply :=
    Resp (Response 200 [ "x-ms-cpim-trans=t2; path=/"; "x-ms-cpim-sso=s; HttpOnly" ] None
            ("{" +++ q "status" +++ ":" +++ q "200" +++ "}")).

  (** S2: credentials refused, as the identity provider reports it. *)
Definition refused : reply :=
    Resp (Response 200 [] None
            ("{" +++ q "status" +++ ":" +++ q "400" +++ "," +++ q "message" +++ ":"
             +++ q "invalid credentials" +++ "}")).

  (** S3: the redirect that carries the authorization code. *)
Definition redirected (code : string) : reply :=
    Resp (Response 302 [] (Some ("msald6f3606b-c2fe-4376-a6dd-dd929cbde18d://auth/?state=S&code="
                                 +++ code +++ "&x=1")) EmptyString).

  (** S4 and refresh: the token endpoint's answer. *)
Definition tokens (access refresh : string) (expires : Z) : reply :=
    Resp (Response 200 [] None
            ("{" +++ q "access_token" +++ ":" +++ q access +++ ","
             +++ q "refresh_token" +++ ":" +++ q refresh +++ ","
             +++ q "expires_in" +++ ":" +++ Js.dec expires +++ ","
             +++ q "token_type" +++ ":" +++ q "Bearer" +++ "}")).

Definition status (code : Z) (body : string) : reply :=
    Resp (Response code [] None body).

  (** S2: the identity provider answers 401. *)
Definition unauthorized : reply := status 401 "Unauthorized".

  (** A platform with two devices and credentials the provider refuses;
      nothing is polled yet. *)
Definition refusedPlatform : LegrandCloudPlatform.state :=
    LegrandCloudPlatform.State
      {| LegrandCloudPlatform.debug := false; LegrandCloudPlatform.pollingInterval := 0 |}
      (LegrandCloudApi.new (LegrandCloudApi.Config "user@example.com" "wrong" false))
      [ ("dev1", LegrandCloudPlatform.Accessory "Lamp" false false 100);
        ("dev2", LegrandCloudPlatform.Accessory "Desk" true false 100) ]
      None.

  (** A platform with two devices, an armed timer, and a client built
      without credentials. *)
Definition barePlatform : LegrandCloudPlatform.state :=
    LegrandCloudPlatform.State
      {| LegrandCloudPlatform.debug := true; LegrandCloudPlatform.pollingInterval := 0 |}
      (LegrandCloudApi.new (LegrandCloudApi.Config "" "" false))
      [ ("dev1", LegrandCloudPlatform.Accessory "Lamp" false false 100);
        ("dev2", LegrandCloudPlatform.Accessory "Desk" true false 100) ]
      (Some 30000).

  (** The provider serves the login page and refuses the credentials,
      three times over. *)
Definition refusingWorld : world :=
    world0 1000 (scripted 5 [ loginPage; unauthorized; loginPage; unauthorized;
                              loginPage; unauthorized ]).

  (** Two callers of [getAccessToken] on a fresh [LegrandAuth]: both call
      before any reply arrives, then the four replies of the first login
      arrive, then those of the second. *)
Definition twoCallers : list (@EventLoop.event) :=
    [ EventLoop.Call; EventLoop.Call;
      EventLoop.Arrive 0 loginPage; EventLoop.Arrive 0 accepted;
      EventLoop.Arrive 0 (redirected "CODEA"); EventLoop.Arrive 0 (tokens "tokA" "refA" 3600);
      EventLoop.Arrive 1 loginPage; EventLoop.Arrive 1 accepted;
      EventLoop.Arrive 1 (redirected "CODEB"); EventLoop.Arrive 1 (tokens "tokB" "refB" 3600) ].

Definition freshLoop : EventLoop.loop LegrandAuth.state jsval :=
    EventLoop.Loop (LegrandAuth.new "user@example.com" "secret")
      (world0 1000 (scripted 5 [])) [].

  (** The requests of a trace that open a login: those to the authorize
      endpoint. *)
Definition logins (reqs : list request) : list request :=
    List.filter
      (fun r => String.prefix (LegrandAuth.AUTH_CONFIG.authorizeUrl +++ "?") (url r)) reqs.

End Fixtures.

(* ===================================================================== *)
(** * Inputs of the scenarios                                             *)
(* ===================================================================== *)

(** The 32 octets of the example of RFC 7636, appendix B. *)
Definition rfc7636_octets : list byte :=
  [ x74; x18; xdf; xb4; x97; x99; xe0; x25; x4f; xfa; x60; x7d; xd8; xad; xbb; xba;
    x16; xd4; x25; x4d; x69; xd6; xbf; xf0; x5b; x58; x05; x58; x53; x84; x8d; x79 ].

(** An entropy source that yields those octets first. *)
Definition rfc7636_world : world :=
  World 0 (fun n => nth n rfc7636_octets x00) 0 (fun _ => EmptyString) 0
        (Fixtures.scripted 0 []) [] [].

(* ===================================================================== *)
(** * How programs run                                                    *)
(* ===================================================================== *)

Section RunLaws.
  Context {S : Type}.

Lemma run_bind {A B} (p : prog S A) (f : A -> prog S B) s w :
    run (bind p f) s w =
    match run p s w with
    | (Resolved a, s', w') => run (f a) s' w'
    | (Rejected e, s', w') => (Rejected e, s', w')
    | (NeverSettles e, s', w') => (NeverSettles e, s', w')
    end.
  Proof.
    revert s w; induction p; intros; simpl; auto.
  Qed.

Lemma run_try_catch {A} (p : prog S A) (h : Js.exn -> prog S A) s w :
    run (try_catch p h) s w =
    match run p s w with
    | (Rejected e, s', w') => run (h e) s' w'
    | r => r
    end.
  Proof.
    revert s w; induction p; intros; simpl; auto.
  Qed.

  (** A call only ever adds to what was sent. *)
Lemma run_sent {A} (p : prog S A) s w :
    exists new, sent (snd (run p s w)) = (sent w ++ new)%list.
  Proof.
    revert s w.
    induction p as [a|e|e|k IH|s' k IH|k IH|n k IH|k IH|l m k IH|req k IH];
      intros; simpl;
      try (exists []; rewrite app_nil_r; reflexivity); auto.
    - apply (IH _ s (snd (draw n w))).
    - apply (IH _ s (snd (issue w))).
    - apply (IH s (record_log l m w)).
    - destruct (IH (result (net w (sent w ++ [req]))) s (snd (send req w))) as [new Hnew].
      exists (req :: new). simpl in Hnew. rewrite Hnew.
      rewrite <- app_assoc. reflexivity.
  Qed.


  (** The servers are the same after a call as before it. *)
Lemma run_net {A} (p : prog S A) s w : net (snd (run p s w)) = net w.
  Proof.
    revert s w.
    induction p as [a|e|e|k IH|s' k IH|k IH|n k IH|k IH|l m k IH|req k IH];
      intros; simpl; auto.
    - apply (IH _ s (snd (draw n w))).
    - apply (IH _ s (snd (issue w))).
    - apply (IH s (record_log l m w)).
    - apply (IH (result (net w (sent w ++ [req]))) s (snd (send req w))).
  Qed.

End RunLaws.

Section RunSteps.
  Context {S : Type}.

Lemma run_get {A} (f : S -> prog S A) s w :
    run (bind get f) s w = run (f s) s w.
  Proof. reflexivity. Qed.

Lemma run_put {A} (s' : S) (f : unit -> prog S A) s w :
    run (bind (put s') f) s w = run (f tt) s' w.
  Proof. reflexivity. Qed.

Lemma run_now {A} (f : Z -> prog S A) s w :
    run (bind now f) s w = run (f (clock w)) s w.
  Proof. reflexivity. Qed.

Lemma run_log {A} l m (f : unit -> prog S A) s w :
    run (bind (log l m) f) s w = run (f tt) s (record_log l m w).
  Proof. reflexivity. Qed.

Lemma run_randomBytes {A} n (f : list byte -> prog S A) s w :
    run (bind (randomBytes n) f) s w = run (f (fst (draw n w))) s (snd (draw n w)).
  Proof. reflexivity. Qed.

Lemma run_randomUUID {A} (f : string -> prog S A) s w :
    run (bind randomUUID f) s w = run (f (fst (issue w))) s (snd (issue w)).
  Proof. reflexivity. Qed.

Lemma run_https {A} r (f : reply -> prog S A) s w :
    run (bind (https_request r) f) s w = run (f (fst (send r w))) s (snd (send r w)).
  Proof. reflexivity. Qed.

Lemma run_when {A} (b : bool) (p : prog S unit) (f : unit -> prog S A) s w :
    run (bind (when b p) f) s w = if b then run (bind p f) s w else run (f tt) s w.
  Proof. destruct b; reflexivity. Qed.

Lemma sent_send r w : sent (snd (send r w)) = (sent w ++ [r])%list.
  Proof. reflexivity. Qed.

Lemma sent_record_log l m w : sent (record_log l m w) = sent w.
  Proof. reflexivity. Qed.

  (** A program that starts with a request sends it first. *)
Lemma first_request_https {A} r (f : reply -> prog S A) s w :
    first_request (bind (https_request r) f) s w r.
  Proof.
    unfold first_request. rewrite run_https.
    destruct (run_sent (f (fst (send r w))) s (snd (send r w))) as [new E].
    exists new. rewrite E, sent_send, <- app_assoc. reflexivity.
  Qed.

Lemma first_request_bind {A B} (p : prog S A) (f : A -> prog S B) s w r :
    first_request p s w r -> first_request (bind p f) s w r.
  Proof.
    intros [rest E]. unfold first_request. rewrite run_bind.
    destruct (run p s w) as [[o s'] w']. simpl in E.
    destruct o as [a|e|e]; try (exists rest; exact E).
    destruct (run_sent (f a) s' w') as [new E'].
    exists (rest ++ new)%list. rewrite E', E, <- app_assoc. reflexivity.
  Qed.

Lemma first_request_try_catch {A} (p : prog S A) h s w r :
    first_request p s w r -> first_request (try_catch p h) s w r.
  Proof.
    intros [rest E]. unfold first_request. rewrite run_try_catch.
    destruct (run p s w) as [[o s'] w']. simpl in E.
    destruct o as [a|e|e]; try (exists rest; exact E).
    destruct (run_sent (h e) s' w') as [new E'].
    exists (rest ++ new)%list. rewrite E', E, <- app_assoc. reflexivity.
  Qed.

Lemma first_request_get {A} (f : S -> prog S A) s w r :
    first_request (f s) s w r -> first_request (bind get f) s w r.
  Proof. exact (fun x => x). Qed.

Lemma first_request_log {A} l m (f : unit -> prog S A) s w r :
    first_request (f tt) s (record_log l m w) r -> first_request (bind (log l m) f) s w r.
  Proof. exact (fun x => x). Qed.

Lemma first_request_randomBytes {A} n (f : list byte -> prog S A) s w r :
    first_request (f (fst (draw n w))) s (snd (draw n w)) r ->
    first_request (bind (randomBytes n) f) s w r.
  Proof. exact (fun x => x). Qed.

Lemma first_request_randomUUID {A} (f : string -> prog S A) s w r :
    first_request (f (fst (issue w))) s (snd (issue w)) r ->
    first_request (bind randomUUID f) s w r.
  Proof. exact (fun x => x). Qed.

Lemma first_request_after {A B} (p : prog S A) (f : A -> prog S B) s w a s' w' r :
    run p s w = (Resolved a, s', w') -> sent w' = sent w ->
    first_request (f a) s' w' r -> first_request (bind p f) s w r.
  Proof.
    intros Hp Hs [rest E]. exists rest. rewrite run_bind, Hp, E, Hs. reflexivity.
  Qed.

  (** A call that sent something did not leave [sent] as it was. *)
Lemma first_request_sent {A} (p : prog S A) s w r :
    first_request p s w r -> sent (snd (run p s w)) <> sent w.
  Proof.
    intros [rest E] Heq. rewrite Heq in E.
    apply (f_equal (@length request)) in E. rewrite length_app in E. simpl in E. lia.
  Qed.

End RunSteps.

(** One synchronous step of a run, for a program that starts with it. *)
Ltac run_step :=
  first [ rewrite run_get | rewrite run_put | rewrite run_now | rewrite run_log
        | rewrite run_randomBytes | rewrite run_randomUUID | rewrite run_https ].
Ltac run_steps := repeat run_step.

(* ===================================================================== *)
(** * PKCE                                                                *)
(* ===================================================================== *)

Section Pkce.

Lemma list_ind3 {A} (P : list A -> Prop) :
    P [] -> (forall a, P [a]) -> (forall a b, P [a; b]) ->
    (forall a b c l, P l -> P (a :: b :: c :: l)) ->
    forall l, P l.
  Proof.
    intros H0 H1 H2 H3.
    fix IH 1.
    intros [|a [|b [|c l]]]; [exact H0 | exact (H1 a) | exact (H2 a b) |].
    exact (H3 a b c l (IH l)).
  Qed.

  (** base64url without padding: four characters for three bytes, rounded up. *)
Lemma encode_length (bs : list byte) :
    String.length (Base64url.encode bs) = ((4 * length bs + 2) / 3)%nat.
  Proof.
    induction bs as [| a | a b | a b c l IH] using list_ind3; try reflexivity.
    change (String.length (Base64url.encode (a :: b :: c :: l)))
      with (4 + String.length (Base64url.encode l))%nat.
    rewrite IH. simpl length.
    replace (4 * S (S (S (length l))) + 2)%nat with ((4 * length l + 2) + 4 * 3)%nat by lia.
    rewrite Nat.div_add by discriminate. lia.
  Qed.

Lemma compress_length h block :
    length h = 8%nat -> length (Sha256.compress h block) = 8%nat.
  Proof.
    intros Hh. unfold Sha256.compress.
    rewrite length_map, length_combine, Hh. reflexivity.
  Qed.

Lemma blocks_length fuel : forall h ws,
    length h = 8%nat -> length (Sha256.blocks fuel h ws) = 8%nat.
  Proof.
    induction fuel as [|fuel IH]; intros h ws Hh; simpl; auto.
    destruct ws; auto. apply IH, compress_length, Hh.
  Qed.

Lemma be_bytes_flat_length (h : list Z) :
    length (flat_map (Sha256.be_bytes 4) h) = (4 * length h)%nat.
  Proof.
    induction h as [|x h IH]; simpl; auto.
    rewrite IH. lia.
  Qed.

  (** A SHA-256 digest is 32 bytes. *)
Lemma sha256_length (msg : list byte) : length (Sha256.sha256 msg) = 32%nat.
  Proof.
    unfold Sha256.sha256. rewrite length_map, be_bytes_flat_length.
    rewrite blocks_length; reflexivity.
  Qed.

End Pkce.

(** C2, as stated, fails. With the 32 random octets of RFC 7636 the
    generated verifier is dBjftJeZ4CVP-mB92K27uhbUJU1p1r_wW1gFWFOEjXk and
    the challenge the code derives from it is
    E9Melhoa2OwvFrEMTJguCHaoeK1t8URWbuGJSstw-cM, the value the RFC gives;
    the base64url SHA-256 digest of the 32 octets themselves is another
    string. *)
Lemma pkce_challenge_is_not_the_digest_of_the_octets :
  fst (fst (run LegrandAuth.generateCodeVerifier (LegrandAuth.new "u" "p") rfc7636_world))
    = Resolved (Base64url.encode rfc7636_octets)
  /\ Base64url.encode rfc7636_octets = "dBjftJeZ4CVP-mB92K27uhbUJU1p1r_wW1gFWFOEjXk"
  /\ LegrandAuth.generateCodeChallenge (Base64url.encode rfc7636_octets)
       = "E9Melhoa2OwvFrEMTJguCHaoeK1t8URWbuGJSstw-cM"
  /\ Base64url.encode (Sha256.sha256 rfc7636_octets)
       = "38v3YOi6zQgk1xkqk6Y5dvSDoBHqZrTh3mmWHxxWvyk"
  /\ LegrandAuth.generateCodeChallenge (Base64url.encode rfc7636_octets)
       <> Base64url.encode (Sha256.sha256 rfc7636_octets).
Proof.
  repeat split; try (vm_compute; reflexivity).
  vm_compute. discriminate.
Qed.

(** C2, amended. For every generated PKCE pair the verifier is the
    base64url text (43 characters, no padding) of the 32 random bytes drawn,
    and the challenge is the base64url text (43 characters, no padding) of
    the SHA-256 digest of that verifier text, not of the 32 bytes. *)
Theorem pkce_challenge_is_the_digest_of_the_verifier_text :
  forall (s : LegrandAuth.state) (w : world),
    let rnd := map (entropy w) (seq (drawn w) 32) in
    let verifier := Base64url.encode rnd in
    run LegrandAuth.generateCodeVerifier s w = (Resolved verifier, s, snd (draw 32 w))
    /\ length rnd = 32%nat
    /\ String.length verifier = 43%nat
    /\ LegrandAuth.generateCodeChallenge verifier
         = Base64url.encode (Sha256.sha256 (utf8 verifier))
    /\ String.length (LegrandAuth.generateCodeChallenge verifier) = 43%nat.
Proof.
  intros s w rnd verifier.
  assert (Hlen : length rnd = 32%nat).
  { unfold rnd. rewrite length_map, length_seq. reflexivity. }
  split; [reflexivity|].
  split; [exact Hlen|].
  split; [unfold verifier; rewrite encode_length, Hlen; reflexivity|].
  split; [reflexivity|].
  unfold LegrandAuth.generateCodeChallenge.
  rewrite encode_length, sha256_length. reflexivity.
Qed.

(* ===================================================================== *)
(** * The cookie jar                                                      *)
(* ===================================================================== *)

Section Cookies.
  Import CookieJar.













End Cookies.

(* ===================================================================== *)
(** * S2: the verdict on the submitted credentials                        *)
(* ===================================================================== *)

Section Credentials.
  Context `{Runtime}.

  (** [submitCredentials] sends one request and decides on its reply. *)
Lemma run_submitCredentials csrfToken cookies tx (s : LegrandAuth.state) w :
    let req := LegrandAuth.credentialsRequest (LegrandAuth.email s) (LegrandAuth.password s)
                 csrfToken cookies tx in
    run (LegrandAuth.submitCredentials csrfToken cookies tx) s w =
    match fst (send req w) with
    | NetErr e => (Rejected e, s, snd (send req w))
    | Resp res =>
        run (LegrandAuth.credentials_verdict res
               (LegrandAuth.merge_cookies cookies (setCookie res))) s (snd (send req w))
    end.
  Proof.
    unfold LegrandAuth.submitCredentials. simpl.
    destruct (result _); reflexivity.
  Qed.

End Credentials.



(** The example of the specification: the body with status 400 and the
    message invalid credentials, under HTTP 200, is rejected with that
    message. *)
Example credentials_verdict_example :
  fst (fst (run (@LegrandAuth.submitCredentials Reference.runtime "abc123" ["c=1"]
                   "StateProperties=xyz")
              (LegrandAuth.new "user@example.com" "secret")
              (Fixtures.world0 0 (Fixtures.scripted 0 [Fixtures.refused]))))
  = Rejected (Js.Error "Login failed: invalid credentials").
Proof. vm_compute. reflexivity. Qed.

(* ===================================================================== *)
(** * The token cache: [LegrandAuth.getAccessToken]                       *)
(* ===================================================================== *)

Section TokenCache.
  Context `{Runtime}.
  Import LegrandAuth.

  (** A cache hit: nothing is read but the clock, nothing changes. *)
Lemma getAccessToken_hit s w :
    cached s (clock w) = true ->
    run getAccessToken s w = (Resolved (accessToken s), s, w).
  Proof.
    unfold cached, getAccessToken. intros Hc.
    apply andb_true_iff in Hc as [Ht Hv].
    rewrite run_get, Ht, run_now, Hv. reflexivity.
  Qed.

  (** A cache miss: the call goes on to renew the token. *)
Lemma getAccessToken_miss s w :
    cached s (clock w) = false ->
    run getAccessToken s w = run renew s w.
  Proof.
    unfold cached, getAccessToken. intros Hc. rewrite run_get.
    destruct (Json.truthy (accessToken s)); [|reflexivity].
    cbn [andb] in Hc. rewrite run_now, Hc. reflexivity.
  Qed.

  (** With a refresh token, renewal starts with the refresh request. *)
Lemma renew_refreshes_first s w :
    Json.truthy (refreshToken s) = true ->
    first_request renew s w (tokenRequest (refreshBody (refreshToken s))).
  Proof.
    intros Ht. unfold renew. apply first_request_get. rewrite Ht.
    apply first_request_try_catch, first_request_bind.
    unfold refreshAccessToken. apply first_request_get.
    rewrite Ht. cbn [negb]. apply first_request_log, first_request_bind.
    apply first_request_https.
  Qed.

Lemma renew_without_refresh s w :
    Json.truthy (refreshToken s) = false ->
    run renew s w = run fullAuthentication s w.
  Proof.
    intros Hr. unfold renew. rewrite run_get, Hr. reflexivity.
  Qed.

Lemma authenticate_without_credentials s w :
    hasCredentials s = false ->
    run authenticate s w =
      (Rejected (Js.Error "Email and password are required for authentication"),
       s, announced w).
  Proof.
    unfold hasCredentials, authenticate. intros Hc. rewrite run_log, run_get.
    rewrite <- negb_andb, Hc. reflexivity.
  Qed.

  (** With credentials, authentication starts with the authorize request
      of a PKCE pair and a state drawn for this login. *)
Lemma authenticate_authorizes_first s w :
    hasCredentials s = true ->
    first_request authenticate s w (opening w).
  Proof.
    unfold hasCredentials, authenticate. intros Hc.
    apply first_request_log, first_request_get.
    rewrite <- negb_andb, Hc. cbn [negb].
    apply first_request_try_catch.
    unfold choreography.
    eapply first_request_after; [reflexivity | reflexivity |].
    apply first_request_randomUUID, first_request_log, first_request_bind.
    apply first_request_https.
  Qed.

Lemma fullAuthentication_outcome s w :
    run fullAuthentication s w =
    match run authenticate s w with
    | (Resolved _, s', w') => (Resolved (accessToken s'), s', w')
    | (Rejected e, s', w') => (Rejected e, s', w')
    | (NeverSettles e, s', w') => (NeverSettles e, s', w')
    end.
  Proof.
    unfold fullAuthentication. rewrite run_bind.
    destruct (run authenticate s w) as [[[a|e|e] s'] w']; reflexivity.
  Qed.

  (** What [getAccessToken] resolves with is the token the object holds
      when it settles. *)
Lemma getAccessToken_returns_held s w r s' w' :
    run getAccessToken s w = (Resolved r, s', w') -> r = accessToken s'.
  Proof.
    destruct (cached s (clock w)) eqn:Hc.
    - rewrite getAccessToken_hit by exact Hc. intros E. injection E as <- <- <-. reflexivity.
    - rewrite getAccessToken_miss by exact Hc. unfold renew. rewrite run_get.
      assert (Hfull : forall s0 w0, run fullAuthentication s0 w0 = (Resolved r, s', w') ->
                                    r = accessToken s').
      { intros s0 w0. rewrite fullAuthentication_outcome.
        destruct (run authenticate s0 w0) as [[[a|e|e] s1] w1]; intros E;
          try discriminate E. injection E as <- <- <-. reflexivity. }
      destruct (Json.truthy (refreshToken s)); [|apply Hfull].
      rewrite run_try_catch, run_bind.
      destruct (run refreshAccessToken s w) as [[[a|e|e] s1] w1].
      + rewrite run_get. simpl. intros E. injection E as <- <- <-. reflexivity.
      + rewrite run_log. apply Hfull.
      + discriminate.
  Qed.

  (** Renewal by what the object holds: the refresh request first when
      it holds a refresh token; otherwise the authorize request of a login
      when it holds an email and a password; otherwise a rejection with
      nothing sent. *)
Lemma renew_triggers s w :
    (Json.truthy (refreshToken s) = true ->
       first_request renew s w (tokenRequest (refreshBody (refreshToken s))))
    /\ (Json.truthy (refreshToken s) = false -> hasCredentials s = true ->
          first_request renew s w (opening w))
    /\ (Json.truthy (refreshToken s) = false -> hasCredentials s = false ->
          run renew s w =
            (Rejected (Js.Error "Email and password are required for authentication"),
             s, announced w)).
  Proof.
    split; [apply renew_refreshes_first|]. split.
    - intros Hr Hc. pose proof (authenticate_authorizes_first s w Hc) as Hf.
      assert (Hfull : first_request fullAuthentication s w (opening w)).
      { unfold fullAuthentication. apply first_request_bind. exact Hf. }
      unfold first_request in *. rewrite renew_without_refresh by exact Hr. exact Hfull.
    - intros Hr Hc. rewrite renew_without_refresh by exact Hr.
      rewrite fullAuthentication_outcome, authenticate_without_credentials by exact Hc.
      reflexivity.
  Qed.

Lemma truthy_nonempty (tok : string) : tok <> EmptyString -> Js.truthy tok = true.
  Proof.
    intros Hne. unfold Js.truthy. destruct (String.eqb_spec tok EmptyString); auto.
  Qed.

End TokenCache.

(** C5. A held token is returned, with nothing sent, exactly when the
    clock is strictly before its expiry less 60 seconds; an expiry that is
    not a number never is. Otherwise the call renews, and what it does is
    fixed by what the object holds: with a refresh token the first request
    it sends is the refresh request for that token; without one and with
    an email and a password, the first request it sends is the authorize
    request of a login; with neither it is rejected with nothing sent. A
    token that expires 30 seconds from now is in that second case. And a
    second call within the window of the token a first call resolved with
    is a cache hit: it changes nothing and sends nothing. *)
Theorem cached_token_window :
  forall (R : Runtime) (s : LegrandAuth.state) (w : world),
    Json.truthy (LegrandAuth.accessToken s) = true ->
    let r := run LegrandAuth.getAccessToken s w in
    let fresh := Js.lt (Js.Num (clock w))
                   (Js.minus (LegrandAuth.tokenExpiry s) (Js.Num 60000)) in
    ((fst (fst r) = Resolved (LegrandAuth.accessToken s) /\ sent (snd r) = sent w)
       <-> fresh = true)
    /\ (fresh = true -> r = (Resolved (LegrandAuth.accessToken s), s, w))
    /\ (fresh = false ->
        (Json.truthy (LegrandAuth.refreshToken s) = true ->
           first_request LegrandAuth.getAccessToken s w
             (LegrandAuth.tokenRequest (LegrandAuth.refreshBody (LegrandAuth.refreshToken s))))
        /\ (Json.truthy (LegrandAuth.refreshToken s) = false ->
            LegrandAuth.hasCredentials s = true ->
            first_request LegrandAuth.getAccessToken s w (LegrandAuth.opening w))
        /\ (Json.truthy (LegrandAuth.refreshToken s) = false ->
            LegrandAuth.hasCredentials s = false ->
            r = (Rejected (Js.Error "Email and password are required for authentication"),
                 s, LegrandAuth.announced w)))
    /\ (LegrandAuth.tokenExpiry s = Js.Num (clock w + 30000) -> fresh = false)
    /\ (LegrandAuth.tokenExpiry s = Js.NaN -> fresh = false)
    /\ (forall tok' s1 w1 w2,
          r = (Resolved tok', s1, w1) -> Json.truthy tok' = true ->
          Js.lt (Js.Num (clock w2))
            (Js.minus (LegrandAuth.tokenExpiry s1) (Js.Num 60000)) = true ->
          run LegrandAuth.getAccessToken s1 w2 = (Resolved tok', s1, w2)).
Proof.
  intros R s w Ht r fresh.
  assert (Hhit : fresh = true -> r = (Resolved (LegrandAuth.accessToken s), s, w)).
  { intros Hlt. unfold r. apply getAccessToken_hit.
    unfold LegrandAuth.cached. rewrite Ht. exact Hlt. }
  assert (Hmiss : fresh = false -> r = run LegrandAuth.renew s w).
  { intros Hge. unfold r. apply getAccessToken_miss.
    unfold LegrandAuth.cached. rewrite Ht. exact Hge. }
  destruct (renew_triggers s w) as (T1 & T2 & T3).
  assert (Htrig : fresh = false ->
    (Json.truthy (LegrandAuth.refreshToken s) = true ->
       first_request LegrandAuth.getAccessToken s w
         (LegrandAuth.tokenRequest (LegrandAuth.refreshBody (LegrandAuth.refreshToken s))))
    /\ (Json.truthy (LegrandAuth.refreshToken s) = false ->
        LegrandAuth.hasCredentials s = true ->
        first_request LegrandAuth.getAccessToken s w (LegrandAuth.opening w))
    /\ (Json.truthy (LegrandAuth.refreshToken s) = false ->
        LegrandAuth.hasCredentials s = false ->
        r = (Rejected (Js.Error "Email and password are required for authentication"),
             s, LegrandAuth.announced w))).
  { intros Hge. specialize (Hmiss Hge). unfold first_request. fold r. rewrite Hmiss.
    auto. }
  split; [split|split; [exact Hhit|split; [exact Htrig|split; [|split]]]].
  - intros [Hres Hsent]. destruct fresh eqn:Hf; [reflexivity|]. exfalso.
    destruct (Htrig eq_refl) as (A & B & C).
    destruct (Json.truthy (LegrandAuth.refreshToken s)) eqn:Hr.
    + exact (first_request_sent _ _ _ _ (A eq_refl) Hsent).
    + destruct (LegrandAuth.hasCredentials s) eqn:Hc.
      * exact (first_request_sent _ _ _ _ (B eq_refl eq_refl) Hsent).
      * fold r in Hres. rewrite (C eq_refl eq_refl) in Hres. discriminate Hres.
  - intros Hlt. rewrite (Hhit Hlt). auto.
  - intros E. unfold fresh. rewrite E. cbn [Js.minus Js.lt]. apply Z.ltb_ge. lia.
  - intros E. unfold fresh. rewrite E. reflexivity.
  - intros tok' s1 w1 w2 Hr Hne' Hlt.
    pose proof (getAccessToken_returns_held s w _ s1 w1 Hr) as Hheld.
    rewrite getAccessToken_hit, <- Hheld; [reflexivity|].
    unfold LegrandAuth.cached. rewrite <- Hheld, Hne'. exact Hlt.
Qed.

(** The second call of the specification's scenario: a token held until
    3601020 is returned at 2000000 with nothing sent and nothing changed. *)
Lemma cached_token_window_witness :
  let s := LegrandAuth.State "user@example.com" "secret" (Some (JStr "tok1"))
             (Some (JStr "ref1")) (Js.Num 3601020) in
  let w := Fixtures.world0 2000000 (Fixtures.scripted 5 []) in
  run (@LegrandAuth.getAccessToken Reference.runtime) s w = (Resolved (Some (JStr "tok1")), s, w).
Proof.
  intros s w.
  apply (proj1 (proj2 (cached_token_window Reference.runtime s w eq_refl))).
  reflexivity.
Defined.

Section Refresh.
  Context `{Runtime}.
  Import LegrandAuth.

  (** A parsed body other than [null] has the three properties read, as
      values or as [undefined]. *)
Lemma prop_cases (tokens : json) :
    (tokens = JNull
     /\ forall k, Json.prop tokens k
                  = inl (Js.TypeError ("Cannot read properties of null (reading '"
                                       +++ k +++ "')")))
    \/ (tokens <> JNull /\ forall k, exists v, Json.prop tokens k = inr v).
  Proof.
    destruct tokens; try (right; split; [discriminate|intros k; eexists; reflexivity]).
    left. split; [reflexivity|intros k; reflexivity].
  Qed.

Lemma run_assignTokens tokens otherwise s w :
    run (assignTokens tokens otherwise) s w =
    match Json.prop tokens "access_token", Json.prop tokens "refresh_token",
          Json.prop tokens "expires_in" with
    | inr a, inr r, inr e =>
        (Resolved tt,
         with_tokens s a (if Json.truthy r then r else otherwise s) (expiry (clock w) e), w)
    | inl err, _, _ | _, inl err, _ | _, _, inl err => (Rejected err, s, w)
    end.
  Proof.
    unfold assignTokens.
    destruct (Json.prop tokens "access_token"), (Json.prop tokens "refresh_token"),
      (Json.prop tokens "expires_in"); reflexivity.
  Qed.

  (** The verdict of the exchange and the assignments that follow it,
      against the two ways the exchange is described by its reply. *)
Lemma exchange_cases (x : reply) (t : Z) (otherwise : state -> jsval) s w :
    (exists e, exchange_fails x e
               /\ match token_verdict x with
                  | inl e' => e' = e
                  | inr tokens =>
                      run (assignTokens tokens otherwise) s w = (Rejected e, s, w)
                  end)
    \/ (exists tokens s',
          token_verdict x = inr tokens
          /\ tokens_of x (clock w) (otherwise s) s s'
          /\ run (assignTokens tokens otherwise) s w = (Resolved tt, s', w)).
  Proof.
    unfold token_verdict. destruct x as [res|e].
    - destruct (Z.eqb_spec (statusCode res) 200) as [E|E].
      + destruct (JSON_parse (data res)) as [tokens|] eqn:P.
        * destruct (prop_cases tokens) as [[-> Hn]|[Hn Hp]].
          -- left. eexists. split.
             ++ right. right. right. exists res. repeat split; [exact E|exact P].
             ++ reflexivity.
          -- right. destruct (Hp "access_token") as [a Ea].
             destruct (Hp "refresh_token") as [r Er]. destruct (Hp "expires_in") as [e Ee].
             exists tokens. eexists. split; [reflexivity|]. split.
             ++ exists res, tokens, a, r, e. repeat split; try assumption.
             ++ rewrite run_assignTokens, Ea, Er, Ee. reflexivity.
        * left. eexists. split; [|reflexivity].
          right. right. left. exists res. repeat split; assumption.
      + left. eexists. split; [|reflexivity].
        right. left. exists res. repeat split; assumption.
    - left. exists e. split; [left; reflexivity|reflexivity].
  Qed.





End Refresh.

Section Choreography.
Context `{Runtime}.
Import LegrandAuth.

Lemma bind_stateless {A B} (p : prog state A) (f : A -> prog state B)
    (Q : outcome B * state * world -> Prop) s w :
  stateless p ->
  (forall a w', Q (run (f a) s w')) ->
  (forall e w', Q (Rejected e, s, w')) ->
  (forall e w', Q (NeverSettles e, s, w')) ->
  Q (run (bind p f) s w).
Proof.
  intros Hp Hf Hr Hn. rewrite run_bind. specialize (Hp s w).
  destruct (run p s w) as [[[a|e|e] s'] w']; simpl in Hp; subst s'; auto.
Qed.

Ltac settle_cases :=
  repeat match goal with
         | |- context [match ?x with _ => _ end] => destruct x
         end; reflexivity.

Lemma generateCodeVerifier_stateless : stateless generateCodeVerifier.
Proof. intros s w. reflexivity. Qed.

Lemma startAuthorization_stateless c st : stateless (startAuthorization c st).
Proof.
  intros s w. unfold startAuthorization. rewrite run_https.
  destruct (fst (send _ w)) as [res|e]; [|reflexivity]. settle_cases.
Qed.

Lemma submitCredentials_stateless c k t : stateless (submitCredentials c k t).
Proof.
  intros s w. rewrite run_submitCredentials. cbv zeta.
  destruct (fst (send _ w)) as [res|e]; [|reflexivity].
  unfold credentials_verdict. settle_cases.
Qed.

Lemma confirmAndGetCode_stateless k t c : stateless (confirmAndGetCode k t c).
Proof.
  intros s w. unfold confirmAndGetCode. rewrite run_https.
  destruct (fst (send _ w)) as [res|e]; [|reflexivity].
  unfold decode_code. settle_cases.
Qed.

Lemma postToTokenEndpoint_stateless body : stateless (postToTokenEndpoint body).
Proof.
  intros s w. unfold postToTokenEndpoint. rewrite run_https.
  destruct (token_verdict _); reflexivity.
Qed.

Lemma log_stateless l m : stateless (log l m).
Proof. intros s w. reflexivity. Qed.

Lemma randomUUID_stateless : stateless randomUUID.
Proof. intros s w. reflexivity. Qed.

Lemma startAuthorization_sends c st s w :
  sent (snd (run (startAuthorization c st) s w)) = (sent w ++ [authorizeRequest c st])%list.
Proof.
  unfold startAuthorization. rewrite run_https.
  destruct (fst (send _ w)) as [res|e]; [|reflexivity]. settle_cases.
Qed.

Lemma submitCredentials_sends c k t s w :
  sent (snd (run (submitCredentials c k t) s w))
  = (sent w ++ [credentialsRequest (email s) (password s) c k t])%list.
Proof.
  rewrite run_submitCredentials. cbv zeta.
  destruct (fst (send _ w)) as [res|e]; [|reflexivity].
  unfold credentials_verdict. settle_cases.
Qed.

Lemma confirmAndGetCode_sends k t c s w :
  sent (snd (run (confirmAndGetCode k t c) s w)) = (sent w ++ [confirmRequest k t c])%list.
Proof.
  unfold confirmAndGetCode. rewrite run_https.
  destruct (fst (send _ w)) as [res|e]; [|reflexivity].
  unfold decode_code. settle_cases.
Qed.

Lemma postToTokenEndpoint_sends body s w :
  sent (snd (run (postToTokenEndpoint body) s w)) = (sent w ++ [tokenRequest body])%list.
Proof.
  unfold postToTokenEndpoint. rewrite run_https.
  destruct (token_verdict _); reflexivity.
Qed.

Lemma truthy_nonempty_inv (v : string) : Js.truthy v = true -> v <> EmptyString.
Proof. intros Ht ->. discriminate Ht. Qed.

(** The login choreography: what it sends, and what it leaves. *)
Lemma choreography_spec s w :
  let verifier := Base64url.encode (fst (draw 32 w)) in
  let st := Js.removeDashes (Js.toUpperCase (fst (issue (snd (draw 32 w))))) in
  login_sent s verifier st (sent w) (run choreography s w)
  /\ login_post s w (run choreography s w).
Proof.
  intros verifier st. unfold choreography. rewrite run_bind.
  change (run generateCodeVerifier s w)
    with (@Resolved string (Base64url.encode (fst (draw 32 w))), s, snd (draw 32 w)).
  cbv beta iota. fold verifier.
  rewrite run_randomUUID, run_log, run_bind. fold st.
  set (w3 := record_log Debug "Step 1: Starting authorization flow..." _).
  assert (Hw3 : sent w3 = sent w) by reflexivity.
  assert (Hn3 : net w3 = net w) by reflexivity.
  pose proof (startAuthorization_stateless (generateCodeChallenge verifier) st s w3) as Hs1.
  pose proof (startAuthorization_sends (generateCodeChallenge verifier) st s w3) as Ht1.
  pose proof (run_net (startAuthorization (generateCodeChallenge verifier) st) s w3) as Hn4.
  rewrite Hw3 in Ht1. rewrite Hn3 in Hn4.
  destruct (run (startAuthorization (generateCodeChallenge verifier) st) s w3)
    as [[[a|e|e] s1] w4]; simpl in Hs1, Ht1, Hn4; subst s1;
    try (split; [|reflexivity];
         exists EmptyString, [], [], EmptyString, EmptyString, 1%nat;
         simpl; repeat split; try lia; try discriminate; exact Ht1).
  destruct (negb (Js.truthy (csrfToken a)) || negb (Js.truthy (tx a))) eqn:Hguard.
  { split; [|reflexivity].
    exists EmptyString, [], [], EmptyString, EmptyString, 1%nat.
    simpl; repeat split; try lia; try discriminate; exact Ht1. }
  apply orb_false_elim in Hguard as [Hcsrf Htx].
  apply negb_false_iff in Hcsrf, Htx.
  apply truthy_nonempty_inv in Hcsrf, Htx.
  rewrite run_log, run_bind.
  set (w5 := record_log Debug "Step 2: Submitting credentials..." w4).
  pose proof (submitCredentials_stateless (csrfToken a) (cookies a) (tx a) s w5) as Hs2.
  pose proof (submitCredentials_sends (csrfToken a) (cookies a) (tx a) s w5) as Ht2.
  pose proof (run_net (submitCredentials (csrfToken a) (cookies a) (tx a)) s w5) as Hn6.
  change (sent w5) with (sent w4) in Ht2. rewrite Ht1, <- app_assoc in Ht2.
  change (net w5) with (net w4) in Hn6. rewrite Hn4 in Hn6.
  destruct (run (submitCredentials (csrfToken a) (cookies a) (tx a)) s w5)
    as [[[updated|e|e] s2] w6]; simpl in Hs2, Ht2, Hn6; subst s2;
    try (split; [|reflexivity];
         exists (csrfToken a), (cookies a), [], (tx a), EmptyString, 2%nat;
         simpl; repeat split; try lia; try discriminate; assumption).
  rewrite run_log, run_bind.
  set (w7 := record_log Debug "Step 3: Confirming login..." w6).
  pose proof (confirmAndGetCode_stateless updated (tx a) (csrfToken a) s w7) as Hs3.
  pose proof (confirmAndGetCode_sends updated (tx a) (csrfToken a) s w7) as Ht3.
  pose proof (run_net (confirmAndGetCode updated (tx a) (csrfToken a)) s w7) as Hn8.
  change (sent w7) with (sent w6) in Ht3. rewrite Ht2, <- app_assoc in Ht3.
  change (net w7) with (net w6) in Hn8. rewrite Hn6 in Hn8.
  destruct (run (confirmAndGetCode updated (tx a) (csrfToken a)) s w7)
    as [[[code|e|e] s3] w8]; simpl in Hs3, Ht3, Hn8; subst s3;
    try (split; [|reflexivity];
         exists (csrfToken a), (cookies a), updated, (tx a), EmptyString, 3%nat;
         simpl; repeat split; try lia; try discriminate; assumption).
  rewrite run_log, run_bind.
  set (w9 := record_log Debug "Step 4: Exchanging code for tokens..." w8).
  change (exchangeCodeForTokens code verifier)
    with (postToTokenEndpoint (exchangeBody code verifier)).
  unfold postToTokenEndpoint. rewrite run_https.
  set (req := tokenRequest (exchangeBody code verifier)).
  set (x := fst (send req w9)). set (w10 := snd (send req w9)).
  assert (Ht4 : sent w10 = (sent w ++ login_requests s verifier st (csrfToken a) (cookies a)
                                       updated (tx a) code)%list).
  { unfold w10. rewrite sent_send. change (sent w9) with (sent w8). rewrite Ht3, <- app_assoc.
    reflexivity. }
  assert (Hx : x = result (net w (sent w10))).
  { unfold x, w10. rewrite sent_send. unfold send. cbn [fst]. change (net w9) with (net w8).
    rewrite Hn8. reflexivity. }
  assert (Hsent : forall o s' l m,
            login_sent s verifier st (sent w) ((o, s', record_log l m w10) : outcome unit * _ * _)
            /\ login_sent s verifier st (sent w) ((o, s', w10) : outcome unit * _ * _)).
  { intros o s' l m.
    split; exists (csrfToken a), (cookies a), updated, (tx a), code, 4%nat;
      cbn [fst snd sent record_log firstn]; repeat split; try lia; try assumption;
      exact Ht4. }
  destruct (exchange_cases x (clock w10) (fun _ => Some JNull) s w10)
    as [(e & Hf & Hv)|(tokens & s' & Hv & Ht' & Hr)].
  - destruct (token_verdict x) as [e'|tokens].
    + cbn [run]. split; [exact (proj2 (Hsent _ s Info EmptyString))|reflexivity].
    + cbn [run]. rewrite run_bind, Hv.
      split; [exact (proj2 (Hsent _ s Info EmptyString))|reflexivity].
  - rewrite Hv. cbn [run]. rewrite run_bind, Hr.
    change (run (log Info "Authentication successful!") s' w10)
      with (@Resolved unit tt, s', record_log Info "Authentication successful!" w10).
    split; [exact (proj1 (Hsent _ s' Info "Authentication successful!"))|].
    unfold login_post. cbn [sent clock record_log]. rewrite <- Hx. exact Ht'.
Qed.

Lemma run_rethrow {A} (p : prog state A) (line : Js.exn -> string) s w :
  run (try_catch p (fun error => bind (log Err (line error)) (fun _ => Throw error))) s w =
  match run p s w with
  | (Rejected e, s', w') => (Rejected e, s', record_log Err (line e) w')
  | r => r
  end.
Proof.
  rewrite run_try_catch. destruct (run p s w) as [[[a|e|e] s'] w']; reflexivity.
Qed.


(** A login with credentials sends its requests in order, the verifier
    and the state being those drawn for it. *)
Lemma authenticate_sent s w :
  hasCredentials s = true ->
  login_sent s (verifier_of w) (state_of w) (sent w) (run authenticate s w).
Proof.
  intros Hc. pose proof (proj1 (choreography_spec s (announced w))) as Ht.
  unfold authenticate. rewrite run_log, run_get.
  unfold hasCredentials in Hc. rewrite <- negb_andb, Hc. cbn [negb].
  rewrite run_rethrow. fold (announced w).
  destruct (run choreography s (announced w)) as [[[a|e|e] s'] w']; exact Ht.
Qed.

End Choreography.



(** The same scenario run to its end: the caller gets the token of the
    login, the refusal of the refresh is only a warning in the log, and
    five requests were sent. *)
Example refresh_failure_scenario :
  let s := LegrandAuth.State "user@example.com" "secret" (Some (JStr "tok1"))
             (Some (JStr "ref1")) (Js.Num 3601020) in
  let w := Fixtures.world0 3600000
             (Fixtures.scripted 5
                [ Fixtures.status 400 "invalid_grant"; Fixtures.loginPage; Fixtures.accepted;
                  Fixtures.redirected "AUTHCODE456"; Fixtures.tokens "tok2" "ref2" 3600 ]) in
  let r := run (@LegrandAuth.getAccessToken Reference.runtime) s w in
  fst (fst r) = Resolved (Some (JStr "tok2"))
  /\ LegrandAuth.refreshToken (snd (fst r)) = Some (JStr "ref2")
  /\ LegrandAuth.tokenExpiry (snd (fst r)) = Js.Num (3600025 + 3600 * 1000)
  /\ length (sent (snd r)) = 5%nat
  /\ In (Warn, "Token refresh failed: Error: Token request failed: 400 - invalid_grant")
        (logged (snd r)).
Proof.
  vm_compute. repeat split; auto.
Qed.

(* ===================================================================== *)
(** * Device commands: [LegrandCloudApi]                                  *)
(* ===================================================================== *)

Section Commands.
  Context `{Runtime}.
  Import LegrandCloudApi.

Lemma sent_debugged s line w : sent (debugged s line w) = sent w.
  Proof. unfold debugged. destruct (debug (config s)); reflexivity. Qed.

Lemma run_settle res s w :
    run (settle res) s w =
    (if is_2xx (Resp res)
     then Resolved (if Js.truthy (data res)
                    then match JSON_parse (data res) with Some j => j | None => JObj [] end
                    else JObj [])
     else Rejected (Js.Error ("HTTP " +++ Js.dec (statusCode res) +++ ": " +++ data res)),
     s, w).
  Proof.
    unfold settle, is_2xx.
    destruct ((statusCode res >=? 200)%Z && (statusCode res <? 300)%Z); [|reflexivity].
    destruct (Js.truthy (data res)); [|reflexivity].
    destruct (JSON_parse (data res)); reflexivity.
  Qed.

  (** [makeRequest]: the token, then one exchange, settled by its status. *)
Lemma run_makeRequest method url body s w :
    run (makeRequest method url body) s w =
    match run getAccessToken s w with
    | (Resolved token, s2, w2) =>
        let w3 := debugged s2 (method +++ " " +++ url) w2 in
        let req := commandRequest method url token body in
        match fst (send req w3) with
        | NetErr e => (Rejected e, s2, snd (send req w3))
        | Resp res => run (settle res) s2 (snd (send req w3))
        end
    | (Rejected e, s2, w2) => (Rejected e, s2, w2)
    | (NeverSettles e, s2, w2) => (NeverSettles e, s2, w2)
    end.
  Proof.
    unfold makeRequest. rewrite run_bind.
    destruct (run getAccessToken s w) as [[[token|e|e] s2] w2]; try reflexivity.
    rewrite run_get, run_when. cbv zeta. unfold debugged.
    destruct (debug (config s2)); [rewrite run_log|]; rewrite run_https;
      destruct (fst (send _ _)); reflexivity.
  Qed.

Lemma run_command url body onOk complaint s w :
    only_logs onOk ->
    let r := run (command url body onOk complaint) s w in
    match run ensureAuthenticated s w with
    | (Resolved _, s1, w1) =>
        let correlationId := fst (issue w1) in
        match run getAccessToken s1 (snd (issue w1)) with
        | (Resolved token, s2, w2) =>
            let req := commandRequest "POST" url token (Some (body correlationId)) in
            let w3 := debugged s2 ("POST " +++ url) w2 in
            sent (snd r) = (sent w2 ++ [req])%list
            /\ fst (fst r) = Resolved (is_2xx (fst (send req w3)))
        | (Rejected e, s2, w2) => fst (fst r) = Resolved false /\ sent (snd r) = sent w2
        | (NeverSettles e, s2, w2) => r = (NeverSettles e, s2, w2)
        end
    | (Rejected e, s1, w1) => r = (Rejected e, s1, w1)
    | (NeverSettles e, s1, w1) => r = (NeverSettles e, s1, w1)
    end.
  Proof.
    intros Hok r. unfold r, command. rewrite run_bind.
    destruct (run ensureAuthenticated s w) as [[[[]|e|e] s1] w1]; try reflexivity.
    rewrite run_randomUUID, run_try_catch, run_bind, run_makeRequest.
    destruct (run getAccessToken s1 (snd (issue w1))) as [[[token|e|e] s2] w2];
      [|split; reflexivity|reflexivity].
    cbv zeta.
    change (debugged s2 ("POST" +++ " " +++ url) w2)
      with (debugged s2 ("POST " +++ url) w2).
    set (req := commandRequest "POST" url token (Some (body (fst (issue w1))))).
    set (w3 := debugged s2 ("POST " +++ url) w2).
    assert (Hs : sent (snd (send req w3)) = (sent w2 ++ [req])%list).
    { rewrite sent_send. unfold w3. rewrite sent_debugged. reflexivity. }
    destruct (fst (send req w3)) as [res|e] eqn:Ex.
    - rewrite run_settle. unfold is_2xx.
      destruct ((statusCode res >=? 200)%Z && (statusCode res <? 300)%Z) eqn:E2;
        cbv beta iota.
      + match goal with
        | |- context [run (onOk ?j) ?sx ?wx] =>
            destruct (Hok j sx wx) as (w4 & Ew & Es)
        end.
        rewrite !Ew. cbv beta iota. cbn [fst snd]. rewrite Es, Hs. auto.
      + rewrite run_log. cbn [fst snd run record_log sent]. rewrite Hs. auto.
    - cbv beta iota. rewrite run_log. cbn [fst snd run record_log sent]. rewrite Hs. auto.
  Qed.

Lemma debugResponse_logs what j s w :
    exists w', run (debugResponse what j) s w = (Resolved tt, s, w') /\ sent w' = sent w.
  Proof.
    unfold debugResponse. rewrite run_get. unfold when.
    destruct (debug (config s)); eexists; split; reflexivity.
  Qed.

Lemma setState_is_command deviceId st :
    setState deviceId st =
    command (setStateUrl deviceId)
      (fun cid => Json.stringify (setStateBody (power_string st) cid))
      (fun response => bind (debugResponse "setState" response) (fun _ => Ret true))
      (fun error => "Failed to set state: " +++ Js.to_string error).
  Proof. reflexivity. Qed.

Lemma setBrightness_is_command deviceId level :
    setBrightness deviceId level =
    command (setStateUrl deviceId)
      (fun cid => Json.stringify
                    (setBrightnessBody (if (clamp level >? 0)%Z then "on" else "off")
                       (clamp level) cid))
      (fun response =>
         bind (debugResponse "setBrightness" response)
           (fun _ => bind (log Info ("Set " +++ deviceId +++ " brightness to "
                                     +++ Js.dec (clamp level) +++ "%"))
                       (fun _ => Ret true)))
      (fun error => "Failed to set brightness: " +++ Js.to_string error).
  Proof. reflexivity. Qed.

Lemma setState_onOk_only_logs :
    only_logs (fun response => bind (debugResponse "setState" response) (fun _ => Ret true)).
  Proof.
    intros j s w. rewrite run_bind.
    destruct (debugResponse_logs "setState" j s w) as (w' & E & Es).
    rewrite E. exists w'. auto.
  Qed.

Lemma setBrightness_onOk_only_logs deviceId level :
    only_logs (fun response =>
         bind (debugResponse "setBrightness" response)
           (fun _ => bind (log Info ("Set " +++ deviceId +++ " brightness to "
                                     +++ Js.dec (clamp level) +++ "%"))
                       (fun _ => Ret true))).
  Proof.
    intros j s w. rewrite run_bind.
    destruct (debugResponse_logs "setBrightness" j s w) as (w' & E & Es).
    rewrite E. eexists. split; [reflexivity|]. exact Es.
  Qed.

End Commands.

(** C10. [setState] rejects exactly when its authentication step rejects,
    with that error. Once that step has passed and the bearer token is at
    hand, one POST to the setState endpoint of the device is sent and the
    call resolves to true when the exchange ends with a status from 200 to
    299, whatever the body, and to false when it ends with another status
    or with a transport error; a failure to obtain the token at that point
    also gives false. [turnOn] and [turnOff] are [setState] after a log
    line. *)
Theorem setState_resolves_by_status :
  forall (R : Runtime) (deviceId : string) (st : LegrandCloudApi.power)
         (s : LegrandCloudApi.state) (w : world),
    let r := run (LegrandCloudApi.setState deviceId st) s w in
    (forall e, fst (fst r) = Rejected e <->
               fst (fst (run LegrandCloudApi.ensureAuthenticated s w)) = Rejected e)
    /\ match run LegrandCloudApi.ensureAuthenticated s w with
       | (Resolved _, s1, w1) =>
           let correlationId := fst (issue w1) in
           let body := Json.stringify
                         (LegrandCloudApi.setStateBody (LegrandCloudApi.power_string st)
                            correlationId) in
           match run LegrandCloudApi.getAccessToken s1 (snd (issue w1)) with
           | (Resolved token, s2, w2) =>
               let req := LegrandCloudApi.commandRequest "POST"
                            (LegrandCloudApi.setStateUrl deviceId) token (Some body) in
               let w3 := LegrandCloudApi.debugged s2
                           ("POST " +++ LegrandCloudApi.setStateUrl deviceId) w2 in
               sent (snd r) = (sent w2 ++ [req])%list
               /\ fst (fst r) = Resolved (LegrandCloudApi.is_2xx (fst (send req w3)))
           | (Rejected e, s2, w2) => fst (fst r) = Resolved false /\ sent (snd r) = sent w2
           | (NeverSettles e, s2, w2) => r = (NeverSettles e, s2, w2)
           end
       | (Rejected e, s1, w1) => r = (Rejected e, s1, w1)
       | (NeverSettles e, s1, w1) => r = (NeverSettles e, s1, w1)
       end
    /\ run (LegrandCloudApi.turnOn deviceId) s w
         = run (LegrandCloudApi.setState deviceId LegrandCloudApi.PowerOn) s
             (record_log Info ("Turning on device " +++ deviceId) w)
    /\ run (LegrandCloudApi.turnOff deviceId) s w
         = run (LegrandCloudApi.setState deviceId LegrandCloudApi.PowerOff) s
             (record_log Info ("Turning off device " +++ deviceId) w).
Proof.
  intros R deviceId st s w r.
  pose proof (run_command (LegrandCloudApi.setStateUrl deviceId)
                (fun cid => Json.stringify
                   (LegrandCloudApi.setStateBody (LegrandCloudApi.power_string st) cid))
                _ (fun error => "Failed to set state: " +++ Js.to_string error) s w
                setState_onOk_only_logs) as Hc.
  rewrite <- setState_is_command in Hc. cbv zeta in Hc. fold r in Hc.
  split; [|split; [exact Hc|split; reflexivity]].
  intros e0.
  destruct (run LegrandCloudApi.ensureAuthenticated s w) as [[[[]|e|e] s1] w1].
  - destruct (run LegrandCloudApi.getAccessToken s1 (snd (issue w1)))
      as [[[token|e|e] s2] w2].
    + destruct Hc as [_ Hc]. rewrite Hc. simpl. split; discriminate.
    + destruct Hc as [Hc _]. rewrite Hc. simpl. split; discriminate.
    + rewrite Hc. simpl. split; discriminate.
  - rewrite Hc. simpl. split; intros E; injection E as ->; reflexivity.
  - rewrite Hc. simpl. split; discriminate.
Qed.

Section BrightnessBody.
Import LegrandCloudApi.

Lemma append_assoc (a b c : string) : (a +++ b) +++ c = a +++ b +++ c.
Proof. induction a as [|x a IH]; simpl; [reflexivity|rewrite IH; reflexivity]. Qed.

(** The JSON text of the body of a brightness command. *)
Lemma setBrightnessBody_text (st : string) (clampedLevel : Z) (correlationId : string) :
  Json.stringify (setBrightnessBody st clampedLevel correlationId)
  = "{" +++ Json.dq +++ "command" +++ Json.dq +++ ":{"
    +++ Json.dq +++ "state" +++ Json.dq +++ ":" +++ Json.quote st +++ ","
    +++ Json.dq +++ "level" +++ Json.dq +++ ":" +++ Js.dec clampedLevel +++ ","
    +++ Json.dq +++ "correlationID" +++ Json.dq +++ ":" +++ Json.quote correlationId +++ "},"
    +++ Json.dq +++ "timeout" +++ Json.dq +++ ":10}".
Proof.
  unfold setBrightnessBody. cbn [Json.stringify map fst snd Js.join].
  change (Js.dec 10) with "10".
  change (Json.quote "command") with (Json.dq +++ "command" +++ Json.dq).
  change (Json.quote "state") with (Json.dq +++ "state" +++ Json.dq).
  change (Json.quote "level") with (Json.dq +++ "level" +++ Json.dq).
  change (Json.quote "correlationID") with (Json.dq +++ "correlationID" +++ Json.dq).
  change (Json.quote "timeout") with (Json.dq +++ "timeout" +++ Json.dq).
  generalize (Json.quote st) (Json.quote correlationId) (Js.dec clampedLevel).
  intros a b c. unfold Json.dq.
  cbn [String.append]. rewrite !append_assoc. cbn [String.append].
  rewrite !append_assoc. cbn [String.append]. reflexivity.
Qed.

End BrightnessBody.

(** C9. For every integer level, the level [setBrightness] transmits is
    the level clamped into the range 0 to 100, and the state it transmits
    with it is off when the clamped level is 0 and on when it is positive.
    Once authentication has passed and the bearer token is at hand, exactly
    one request is sent, a POST to the setState command of the device, and
    its body is the text
    {"command":{"state":S,"level":L,"correlationID":C},"timeout":10}
    with L the decimal digits of the clamped level, S the word on or off
    in quotes, and C the correlation id; when authentication or the token
    fails, nothing is sent by the command. 150 is sent as level 100, and
    -5 as level 0 with the state off. *)
Theorem setBrightness_clamps_level :
  forall (R : Runtime) (deviceId : string) (level : Z)
         (s : LegrandCloudApi.state) (w : world),
    let clampedLevel := LegrandCloudApi.clamp level in
    let st := if (clampedLevel >? 0)%Z then "on" else "off" in
    let r := run (LegrandCloudApi.setBrightness deviceId level) s w in
    let text (correlationId : string) :=
      "{" +++ Json.dq +++ "command" +++ Json.dq +++ ":{"
      +++ Json.dq +++ "state" +++ Json.dq +++ ":" +++ Json.dq +++ st +++ Json.dq +++ ","
      +++ Json.dq +++ "level" +++ Json.dq +++ ":" +++ Js.dec clampedLevel +++ ","
      +++ Json.dq +++ "correlationID" +++ Json.dq +++ ":" +++ Json.quote correlationId +++ "},"
      +++ Json.dq +++ "timeout" +++ Json.dq +++ ":10}" in
    (0 <= clampedLevel <= 100)%Z
    /\ clampedLevel = (if level <? 0 then 0 else if 100 <? level then 100 else level)%Z
    /\ (clampedLevel = 0%Z -> st = "off")
    /\ ((0 < clampedLevel)%Z -> st = "on")
    /\ match run LegrandCloudApi.ensureAuthenticated s w with
       | (Resolved _, s1, w1) =>
           let correlationId := fst (issue w1) in
           match run LegrandCloudApi.getAccessToken s1 (snd (issue w1)) with
           | (Resolved token, s2, w2) =>
               let req := LegrandCloudApi.commandRequest "POST"
                            (LegrandCloudApi.setStateUrl deviceId) token
                            (Some (text correlationId)) in
               let w3 := LegrandCloudApi.debugged s2
                           ("POST " +++ LegrandCloudApi.setStateUrl deviceId) w2 in
               sent (snd r) = (sent w2 ++ [req])%list
               /\ method req = "POST"
               /\ url req = LegrandCloudApi.setStateUrl deviceId
               /\ body req = Some (text correlationId)
               /\ fst (fst r) = Resolved (LegrandCloudApi.is_2xx (fst (send req w3)))
           | (Rejected e, s2, w2) => fst (fst r) = Resolved false /\ sent (snd r) = sent w2
           | (NeverSettles e, s2, w2) => r = (NeverSettles e, s2, w2)
           end
       | (Rejected e, s1, w1) => r = (Rejected e, s1, w1)
       | (NeverSettles e, s1, w1) => r = (NeverSettles e, s1, w1)
       end
    /\ LegrandCloudApi.clamp 150 = 100
    /\ Js.dec (LegrandCloudApi.clamp 150) = "100"
    /\ LegrandCloudApi.clamp (-5) = 0
    /\ Js.dec (LegrandCloudApi.clamp (-5)) = "0"
    /\ (if (LegrandCloudApi.clamp (-5) >? 0)%Z then "on" else "off") = "off".
Proof.
  intros R deviceId level s w clampedLevel st r text.
  split; [unfold clampedLevel, LegrandCloudApi.clamp; lia|].
  split.
  { unfold clampedLevel, LegrandCloudApi.clamp.
    destruct (Z.ltb_spec level 0); destruct (Z.ltb_spec 100 level); lia. }
  split; [intros E; unfold st; rewrite E; reflexivity|].
  split.
  { intros Hpos. unfold st. destruct (Z.gtb_spec clampedLevel 0); [reflexivity|lia]. }
  split; [|repeat split; reflexivity].
  assert (Htext : forall cid,
            Json.stringify (LegrandCloudApi.setBrightnessBody st clampedLevel cid) = text cid).
  { intros cid. rewrite setBrightnessBody_text. unfold text.
    assert (Hq : Json.quote st = Json.dq +++ st +++ Json.dq).
    { unfold st. destruct (clampedLevel >? 0)%Z; reflexivity. }
    rewrite Hq, !append_assoc. reflexivity. }
  pose proof (run_command (LegrandCloudApi.setStateUrl deviceId)
                (fun cid => Json.stringify
                   (LegrandCloudApi.setBrightnessBody st clampedLevel cid))
                _ (fun error => "Failed to set brightness: " +++ Js.to_string error) s w
                (setBrightness_onOk_only_logs deviceId level)) as Hc.
  unfold st, clampedLevel in Hc. rewrite <- setBrightness_is_command in Hc.
  fold clampedLevel in Hc. fold st in Hc. fold r in Hc. cbv zeta in Hc.
  destruct (run LegrandCloudApi.ensureAuthenticated s w) as [[[[]|e|e] s1] w1];
    try exact Hc.
  destruct (run LegrandCloudApi.getAccessToken s1 (snd (issue w1))) as [[[token|e|e] s2] w2];
    try exact Hc.
  rewrite Htext in Hc. destruct Hc as [Hsent Hres].
  split; [exact Hsent|]. split; [reflexivity|]. split; [reflexivity|].
  split; [|exact Hres].
  unfold text, st. destruct (clampedLevel >? 0)%Z; reflexivity.
Qed.

(** What goes on the wire for 150 and for -5, with a manual token that
    is still valid: one request each, with level 100 and state on, and
    with level 0 and state off. *)
Example setBrightness_on_the_wire :
  let api := LegrandCloudApi.State (LegrandCloudApi.Config EmptyString EmptyString false)
               None (Some "manual") 3600000 in
  let w := Fixtures.world0 1000 (Fixtures.scripted 5 [Fixtures.status 200 EmptyString]) in
  let q := Fixtures.q in
  map body (sent (snd (run (@LegrandCloudApi.setBrightness Reference.runtime "dev1" 150) api w)))
    = [ Some ("{" +++ q "command" +++ ":{" +++ q "state" +++ ":" +++ q "on" +++ ","
              +++ q "level" +++ ":100," +++ q "correlationID" +++ ":"
              +++ q "c0ffee00-0000-4000-8000-000000000000" +++ "},"
              +++ q "timeout" +++ ":10}") ]
  /\ map body (sent (snd (run (@LegrandCloudApi.setBrightness Reference.runtime "dev1" (-5)) api w)))
    = [ Some ("{" +++ q "command" +++ ":{" +++ q "state" +++ ":" +++ q "off" +++ ","
              +++ q "level" +++ ":0," +++ q "correlationID" +++ ":"
              +++ q "c0ffee00-0000-4000-8000-000000000000" +++ "},"
              +++ q "timeout" +++ ":10}") ]
  /\ fst (fst (run (@LegrandCloudApi.setBrightness Reference.runtime "dev1" 150) api w))
       = Resolved true.
Proof.
  vm_compute. repeat split; reflexivity.
Qed.

(* ===================================================================== *)
(** * A token supplied by hand                                            *)
(* ===================================================================== *)

(** C4, as stated, fails. No email and no password were supplied, so the
    client holds no [LegrandAuth]. A token set by hand at time 1000 for
    3600 seconds has expired at time 4000000, and yet the authentication
    step passes and [turnOn] sends its request with that token as the
    bearer, and resolves to true. *)
Lemma expired_manual_token_is_still_sent :
  let api0 := LegrandCloudApi.new (LegrandCloudApi.Config EmptyString EmptyString false) in
  let api := snd (fst (run (LegrandCloudApi.setAccessToken "manual" 3600)
                         api0 (Fixtures.world0 1000 (Fixtures.scripted 5 [])))) in
  let w := Fixtures.world0 4000000 (Fixtures.scripted 5 [Fixtures.status 200 EmptyString]) in
  let r := run (@LegrandCloudApi.turnOn Reference.runtime "dev1") api w in
  LegrandCloudApi.auth api = None
  /\ LegrandCloudApi.manualTokenExpiry api = 3601000
  /\ run (@LegrandCloudApi.ensureAuthenticated Reference.runtime) api w = (Resolved tt, api, w)
  /\ fst (fst r) = Resolved true
  /\ map (fun q => (url q, List.find (fun h => (fst h =? "Authorization")%string) (headers q)))
         (sent (snd r))
     = [ ("https://api.developer.legrand.com/devicemanagement/api/v2.0/modules/dev1/commands/setState",
          Some ("Authorization", "Bearer manual")) ].
Proof.
  vm_compute. repeat split; reflexivity.
Qed.

Section ManualToken.
  Context `{Runtime}.

Lemma ensureAuthenticated_without_auth (s : LegrandCloudApi.state) w :
    LegrandCloudApi.auth s = None ->
    run LegrandCloudApi.ensureAuthenticated s w =
    if Js.truthy_opt (LegrandCloudApi.manualToken s) then (Resolved tt, s, w)
    else (Rejected (Js.Error ("No authentication available. " +++
            "Please provide email/password in config or set an access token manually.")),
          s, w).
  Proof.
    intros Ha. unfold LegrandCloudApi.ensureAuthenticated. rewrite run_get, Ha.
    destruct (Js.truthy_opt (LegrandCloudApi.manualToken s)) eqn:Hm; [|reflexivity].
    change (bind now ?f) with (DateNow f). simpl.
    destruct (clock w <? LegrandCloudApi.manualTokenExpiry s - 60000)%Z; reflexivity.
  Qed.

Lemma getAccessToken_without_auth (s : LegrandCloudApi.state) w :
    LegrandCloudApi.auth s = None ->
    run LegrandCloudApi.getAccessToken s w =
    if Js.truthy_opt (LegrandCloudApi.manualToken s)
    then (Resolved (Json.of_string (LegrandCloudApi.manualToken s)), s, w)
    else (Rejected (Js.Error "No access token available"), s, w).
  Proof.
    intros Ha. unfold LegrandCloudApi.getAccessToken. rewrite run_get, Ha.
    destruct (Js.truthy_opt (LegrandCloudApi.manualToken s)); reflexivity.
  Qed.

Lemma setTokens_then_expired (a : LegrandAuth.state) w tok expiresIn w' :
    LegrandAuth.hasCredentials a = false ->
    let a' := snd (fst (run (LegrandAuth.setTokens tok None expiresIn) a w)) in
    (clock w + expiresIn * 1000 - 60000 <= clock w')%Z ->
    LegrandAuth.refreshToken a' = Some JNull
    /\ LegrandAuth.tokenExpiry a' = Js.Num (clock w + expiresIn * 1000)
    /\ run LegrandAuth.getAccessToken a' w' =
         (Rejected (Js.Error "Email and password are required for authentication"),
          a', LegrandAuth.announced w').
  Proof.
    intros Hc a' Hexp. split; [reflexivity|]. split; [reflexivity|].
    rewrite getAccessToken_miss.
    - rewrite renew_without_refresh by reflexivity.
      rewrite fullAuthentication_outcome, authenticate_without_credentials; [reflexivity|].
      exact Hc.
    - unfold LegrandAuth.cached.
      change (LegrandAuth.tokenExpiry a') with (Js.Num (clock w + expiresIn * 1000)).
      cbn [Js.minus Js.lt].
      destruct (Z.ltb_spec (clock w') (clock w + expiresIn * 1000 - 60000)); [lia|].
      apply andb_false_r.
  Qed.

End ManualToken.

(** C4, amended. When no email and password were supplied the client holds
    no [LegrandAuth], and a token set by hand is never refused for its age:
    whatever its expiry, the authentication step passes, changes nothing,
    and the token is the bearer of the request. The step fails, with the
    error No authentication available, only when no token was set either.
    In [LegrandAuth] itself, a token set by [setTokens] without a refresh
    token does fall back to full authentication once it is within 60
    seconds of its expiry, and that is rejected when the email or the
    password is empty. *)
Theorem manual_token_without_credentials :
  forall (R : Runtime) (s : LegrandCloudApi.state) (w : world),
    LegrandCloudApi.auth s = None ->
    (Js.truthy_opt (LegrandCloudApi.manualToken s) = true ->
       run LegrandCloudApi.ensureAuthenticated s w = (Resolved tt, s, w)
       /\ run LegrandCloudApi.getAccessToken s w
            = (Resolved (Json.of_string (LegrandCloudApi.manualToken s)), s, w))
    /\ (Js.truthy_opt (LegrandCloudApi.manualToken s) = false ->
          run LegrandCloudApi.ensureAuthenticated s w
            = (Rejected (Js.Error ("No authentication available. " +++
                 "Please provide email/password in config or set an access token manually.")),
               s, w))
    /\ (forall (a : LegrandAuth.state) (w0 w' : world) (tok : string) (expiresIn : Z),
          LegrandAuth.hasCredentials a = false ->
          let a' := snd (fst (run (LegrandAuth.setTokens tok None expiresIn) a w0)) in
          LegrandAuth.tokenExpiry a' = Js.Num (clock w0 + expiresIn * 1000)
          /\ ((clock w0 + expiresIn * 1000 - 60000 <= clock w')%Z ->
              run LegrandAuth.getAccessToken a' w' =
                (Rejected (Js.Error "Email and password are required for authentication"),
                 a', LegrandAuth.announced w'))).
Proof.
  intros R s w Ha. split; [|split].
  - intros Hm. rewrite ensureAuthenticated_without_auth, getAccessToken_without_auth by exact Ha.
    rewrite Hm. auto.
  - intros Hm. rewrite ensureAuthenticated_without_auth by exact Ha. rewrite Hm. reflexivity.
  - intros a w0 w' tok expiresIn Hc a'. split; [reflexivity|]. intros Hexp.
    apply (setTokens_then_expired a w0 tok expiresIn w' Hc Hexp).
Qed.

(** The theorem at the expired token of the scenario above. *)
Lemma manual_token_without_credentials_witness :
  let api := LegrandCloudApi.State (LegrandCloudApi.Config EmptyString EmptyString false)
               None (Some "manual") 3601000 in
  let w := Fixtures.world0 4000000 (Fixtures.scripted 5 [Fixtures.status 200 EmptyString]) in
  run (@LegrandCloudApi.ensureAuthenticated Reference.runtime) api w = (Resolved tt, api, w)
  /\ run (@LegrandCloudApi.getAccessToken Reference.runtime) api w
       = (Resolved (Some (JStr "manual")), api, w).
Proof.
  intros api w.
  exact (proj1 (manual_token_without_credentials Reference.runtime api w eq_refl) eq_refl).
Defined.

(* ===================================================================== *)
(** * Polling                                                             *)
(* ===================================================================== *)

(** C3: what the code does where the claim says polling halts. The
    identity provider answers the credentials with 401; the error message
    contains 401, so the first poll logs the authentication error and
    returns before the second device. The interval timer stays armed, and
    each time it fires another poll is started, which logs in again:
    after the start and two intervals, each poll having had its two
    replies, there were three polls, all of them resolved, six requests
    to the identity provider, three of them opening a login, and the
    error was logged three times. *)
Theorem polling_goes_on_after_a_credential_failure :
  let y := @LegrandCloudPlatform.fire_all Reference.runtime
             [ LegrandCloudPlatform.Started;
               LegrandCloudPlatform.Arrive 0 Fixtures.loginPage;
               LegrandCloudPlatform.Arrive 0 Fixtures.unauthorized;
               LegrandCloudPlatform.IntervalElapsed;
               LegrandCloudPlatform.Arrive 1 Fixtures.loginPage;
               LegrandCloudPlatform.Arrive 1 Fixtures.unauthorized;
               LegrandCloudPlatform.IntervalElapsed;
               LegrandCloudPlatform.Arrive 2 Fixtures.loginPage;
               LegrandCloudPlatform.Arrive 2 Fixtures.unauthorized ]
             (LegrandCloudPlatform.System Fixtures.refusedPlatform Fixtures.refusingWorld 0 []) in
  LegrandCloudPlatform.polls y = 3%nat
  /\ LegrandCloudPlatform.pollingTimer (LegrandCloudPlatform.platform y) = Some 30000
  /\ length (sent (LegrandCloudPlatform.outside y)) = 6%nat
  /\ length (Fixtures.logins (sent (LegrandCloudPlatform.outside y))) = 3%nat
  /\ List.filter
       (fun l => match fst l with Err => Js.startsWith (snd l) "Polling failed" | _ => false end)
       (logged (LegrandCloudPlatform.outside y))
     = repeat (Err, "Polling failed: Authentication error - check email/password") 3
  /\ EventLoop.settled (LegrandCloudPlatform.running y)
     = repeat (Some (Resolved tt)) 3.
Proof.
  vm_compute. repeat split; reflexivity.
Qed.

(* ===================================================================== *)
(** * Overlapping calls of [getAccessToken]                               *)
(* ===================================================================== *)

(** C1, as stated, fails. Two calls of [getAccessToken] on a fresh
    [LegrandAuth], the second made before any reply to the first: two
    authorize requests are in flight at once, two login choreographies run
    to their end (eight requests), and the two callers receive different
    tokens. *)
Lemma two_callers_two_logins :
  let method := @LegrandAuth.getAccessToken Reference.runtime in
  let started := EventLoop.steps method (firstn 2 Fixtures.twoCallers) Fixtures.freshLoop in
  let done := EventLoop.steps method Fixtures.twoCallers Fixtures.freshLoop in
  length (EventLoop.in_flight started) = 2%nat
  /\ Fixtures.logins (EventLoop.in_flight started) = EventLoop.in_flight started
  /\ length (Fixtures.logins (sent (EventLoop.env done))) = 2%nat
  /\ length (sent (EventLoop.env done)) = 8%nat
  /\ EventLoop.outcomes done
     = [ Some (Resolved (Some (JStr "tokA"))); Some (Resolved (Some (JStr "tokB"))) ].
Proof.
  vm_compute. repeat split; reflexivity.
Qed.

Section Advance.
  Context {S : Type}.

Lemma advance_bind {A B} (p : prog S A) (f : A -> prog S B) s w :
    EventLoop.advance (bind p f) s w =
    match EventLoop.advance p s w with
    | (EventLoop.Settled (Resolved a), s', w') => EventLoop.advance (f a) s' w'
    | (EventLoop.Settled (Rejected e), s', w') => (EventLoop.Settled (Rejected e), s', w')
    | (EventLoop.Settled (NeverSettles e), s', w') =>
        (EventLoop.Settled (NeverSettles e), s', w')
    | (EventLoop.Waiting r k, s', w') => (EventLoop.Waiting r (fun x => bind (k x) f), s', w')
    end.
  Proof.
    revert s w; induction p; intros; simpl; auto.
  Qed.

Lemma advance_try_catch {A} (p : prog S A) h s w :
    EventLoop.advance (try_catch p h) s w =
    match EventLoop.advance p s w with
    | (EventLoop.Settled (Rejected e), s', w') => EventLoop.advance (h e) s' w'
    | (EventLoop.Waiting r k, s', w') =>
        (EventLoop.Waiting r (fun x => try_catch (k x) h), s', w')
    | r => r
    end.
  Proof.
    revert s w; induction p; intros; simpl; auto.
  Qed.

Lemma advance_get {A} (f : S -> prog S A) s w :
    EventLoop.advance (bind get f) s w = EventLoop.advance (f s) s w.
  Proof. reflexivity. Qed.

Lemma advance_now {A} (f : Z -> prog S A) s w :
    EventLoop.advance (bind now f) s w = EventLoop.advance (f (clock w)) s w.
  Proof. reflexivity. Qed.

Lemma advance_log {A} l m (f : unit -> prog S A) s w :
    EventLoop.advance (bind (log l m) f) s w = EventLoop.advance (f tt) s (record_log l m w).
  Proof. reflexivity. Qed.

Lemma advance_randomBytes {A} n (f : list byte -> prog S A) s w :
    EventLoop.advance (bind (randomBytes n) f) s w
    = EventLoop.advance (f (fst (draw n w))) s (snd (draw n w)).
  Proof. reflexivity. Qed.

Lemma advance_randomUUID {A} (f : string -> prog S A) s w :
    EventLoop.advance (bind randomUUID f) s w
    = EventLoop.advance (f (fst (issue w))) s (snd (issue w)).
  Proof. reflexivity. Qed.

Lemma advance_https {A} r (f : reply -> prog S A) s w :
    EventLoop.advance (bind (https_request r) f) s w
    = (EventLoop.Waiting r (fun x => bind (Ret x) f), s,
       World (clock w) (entropy w) (drawn w) (uuids w) (issued w) (net w)
             (sent w ++ [r]) (logged w)).
  Proof. reflexivity. Qed.

End Advance.

Section Overlap.
  Context `{Runtime}.
  Import LegrandAuth.

Lemma advance_renew s w :
    cached s (clock w) = false ->
    EventLoop.advance getAccessToken s w = EventLoop.advance renew s w.
  Proof.
    intros Hc. unfold getAccessToken, cached in *. rewrite advance_get.
    destruct (Json.truthy (accessToken s)); [|reflexivity].
    rewrite advance_now. cbn [andb] in Hc. rewrite Hc. reflexivity.
  Qed.

  (** A call that finds no valid token on an object that holds a refresh
      token runs up to the refresh request and waits there. *)
Lemma advance_refresh s w :
    cached s (clock w) = false -> Json.truthy (refreshToken s) = true ->
    exists k,
      EventLoop.advance getAccessToken s w
      = (EventLoop.Waiting (tokenRequest (refreshBody (refreshToken s))) k, s,
         World (clock w) (entropy w) (drawn w) (uuids w) (issued w) (net w)
           (sent w ++ [tokenRequest (refreshBody (refreshToken s))])
           (logged w ++ [(Debug, "Refreshing access token...")])).
  Proof.
    intros Hc Hr. rewrite advance_renew by exact Hc. unfold renew.
    rewrite advance_get, Hr, advance_try_catch, advance_bind. unfold refreshAccessToken.
    rewrite advance_get, Hr. cbn [negb]. rewrite advance_log, advance_bind.
    unfold postToTokenEndpoint. rewrite advance_https.
    eexists. reflexivity.
  Qed.

  (** Without a refresh token and with credentials it runs up to the
      authorize request of a login of its own. *)
Lemma advance_login s w :
    cached s (clock w) = false -> Json.truthy (refreshToken s) = false ->
    hasCredentials s = true ->
    exists k,
      EventLoop.advance getAccessToken s w
      = (EventLoop.Waiting (opening w) k, s,
         World (clock w) (entropy w) (drawn w + 32) (uuids w) (S (issued w)) (net w)
           (sent w ++ [opening w])
           (logged w ++ [(Info, "Authenticating with Legrand cloud...")]
                     ++ [(Debug, "Step 1: Starting authorization flow...")])).
  Proof.
    intros Hc Hr Hcan. rewrite advance_renew by exact Hc. unfold renew.
    rewrite advance_get, Hr.
    unfold fullAuthentication. rewrite advance_bind. unfold authenticate.
    rewrite advance_log, advance_get.
    unfold hasCredentials in Hcan. rewrite <- negb_andb, Hcan. cbn [negb].
    rewrite advance_try_catch. unfold choreography. rewrite advance_bind.
    unfold generateCodeVerifier. rewrite advance_randomBytes. cbn [EventLoop.advance].
    rewrite advance_randomUUID, advance_log, advance_bind.
    unfold startAuthorization. rewrite advance_https.
    eexists. cbn [draw issue record_log fst snd clock entropy drawn uuids issued net sent logged].
    rewrite <- app_assoc. reflexivity.
  Qed.

  (** With neither it is rejected before anything is sent. *)
Lemma advance_denied s w :
    cached s (clock w) = false -> Json.truthy (refreshToken s) = false ->
    hasCredentials s = false ->
    EventLoop.advance getAccessToken s w
    = (EventLoop.Settled
         (Rejected (Js.Error "Email and password are required for authentication")),
       s, announced w).
  Proof.
    intros Hc Hr Hcan. rewrite advance_renew by exact Hc. unfold renew.
    rewrite advance_get, Hr.
    unfold fullAuthentication. rewrite advance_bind. unfold authenticate.
    rewrite advance_log, advance_get.
    unfold hasCredentials in Hcan. rewrite <- negb_andb, Hcan. reflexivity.
  Qed.

Lemma refreshes_pile_up s (n : nat) : forall l : EventLoop.loop state jsval,
    EventLoop.object l = s ->
    cached s (clock (EventLoop.env l)) = false ->
    Json.truthy (refreshToken s) = true ->
    let l' := EventLoop.steps getAccessToken (repeat EventLoop.Call n) l in
    EventLoop.object l' = s
    /\ EventLoop.in_flight l'
       = (EventLoop.in_flight l ++ repeat (tokenRequest (refreshBody (refreshToken s))) n)%list
    /\ sent (EventLoop.env l')
       = (sent (EventLoop.env l) ++ repeat (tokenRequest (refreshBody (refreshToken s))) n)%list.
  Proof.
    induction n as [|n IH]; intros l Hs Hc Hr.
    - simpl. rewrite !app_nil_r. auto.
    - cbn [repeat EventLoop.steps fold_left].
      destruct (advance_refresh s (EventLoop.env l) Hc Hr) as (k & Ea).
      set (l1 := EventLoop.step getAccessToken EventLoop.Call l).
      assert (El1 : l1 = EventLoop.Loop s
                           (World (clock (EventLoop.env l)) (entropy (EventLoop.env l))
                              (drawn (EventLoop.env l)) (uuids (EventLoop.env l))
                              (issued (EventLoop.env l)) (net (EventLoop.env l))
                              (sent (EventLoop.env l)
                               ++ [tokenRequest (refreshBody (refreshToken s))])
                              (logged (EventLoop.env l)
                               ++ [(Debug, "Refreshing access token...")]))
                           (EventLoop.tasks l
                            ++ [EventLoop.Waiting
                                  (tokenRequest (refreshBody (refreshToken s))) k])).
      { unfold l1, EventLoop.step. rewrite Hs, Ea. reflexivity. }
      destruct (IH l1 ltac:(rewrite El1; reflexivity) ltac:(rewrite El1; exact Hc) Hr)
        as (Hobj & Hfl & Hsent).
      fold (EventLoop.steps getAccessToken (repeat EventLoop.Call n) l1).
      split; [exact Hobj|]. split.
      + rewrite Hfl, El1. unfold EventLoop.in_flight, EventLoop.pending. cbn [EventLoop.tasks].
        rewrite flat_map_app. cbn [flat_map]. rewrite app_nil_r, <- app_assoc. reflexivity.
      + rewrite Hsent, El1. cbn [EventLoop.env sent]. rewrite <- app_assoc. reflexivity.
  Qed.

Lemma logins_pile_up s w (n : nat) : forall (l : EventLoop.loop state jsval) (i : nat),
    EventLoop.object l = s ->
    cached s (clock (EventLoop.env l)) = false ->
    Json.truthy (refreshToken s) = false -> hasCredentials s = true ->
    entropy (EventLoop.env l) = entropy w -> uuids (EventLoop.env l) = uuids w ->
    drawn (EventLoop.env l) = (drawn w + 32 * i)%nat ->
    issued (EventLoop.env l) = (issued w + i)%nat ->
    let l' := EventLoop.steps getAccessToken (repeat EventLoop.Call n) l in
    EventLoop.object l' = s
    /\ EventLoop.in_flight l' = (EventLoop.in_flight l ++ map (opening_at w) (seq i n))%list
    /\ sent (EventLoop.env l') = (sent (EventLoop.env l) ++ map (opening_at w) (seq i n))%list.
  Proof.
    induction n as [|n IH]; intros l i Hs Hc Hr Hcan He Hu Hd Hi.
    - simpl. rewrite !app_nil_r. auto.
    - cbn [repeat EventLoop.steps fold_left].
      destruct (advance_login s (EventLoop.env l) Hc Hr Hcan) as (k & Ea).
      assert (Eo : opening (EventLoop.env l) = opening_at w i).
      { unfold opening, opening_at, verifier_of, state_of.
        cbn [draw issue announced record_log fst snd entropy drawn uuids issued].
        rewrite He, Hu, Hd, Hi. reflexivity. }
      rewrite Eo in Ea.
      set (l1 := EventLoop.step getAccessToken EventLoop.Call l).
      assert (El1 : exists w1,
                 l1 = EventLoop.Loop s w1
                        (EventLoop.tasks l ++ [EventLoop.Waiting (opening_at w i) k])
                 /\ clock w1 = clock (EventLoop.env l)
                 /\ entropy w1 = entropy w /\ uuids w1 = uuids w
                 /\ drawn w1 = (drawn w + 32 * S i)%nat /\ issued w1 = (issued w + S i)%nat
                 /\ sent w1 = (sent (EventLoop.env l) ++ [opening_at w i])%list).
      { eexists. split; [unfold l1, EventLoop.step; rewrite Hs, Ea; reflexivity|].
        cbn [clock entropy uuids drawn issued sent]. repeat split; try assumption; lia. }
      destruct El1 as (w1 & El1 & Hk1 & He1 & Hu1 & Hd1 & Hi1 & Hs1).
      destruct (IH l1 (S i) ltac:(rewrite El1; reflexivity)
                  ltac:(rewrite El1; cbn [EventLoop.env]; rewrite Hk1; exact Hc) Hr Hcan
                  ltac:(rewrite El1; exact He1) ltac:(rewrite El1; exact Hu1)
                  ltac:(rewrite El1; exact Hd1) ltac:(rewrite El1; exact Hi1))
        as (Hobj & Hfl & Hsent).
      fold (EventLoop.steps getAccessToken (repeat EventLoop.Call n) l1).
      split; [exact Hobj|]. split.
      + rewrite Hfl, El1. unfold EventLoop.in_flight, EventLoop.pending. cbn [EventLoop.tasks].
        rewrite flat_map_app. cbn [flat_map seq map]. rewrite app_nil_r, <- app_assoc.
        reflexivity.
      + rewrite Hsent, El1. cbn [EventLoop.env seq map]. rewrite Hs1, <- app_assoc.
        reflexivity.
  Qed.

Lemma denials_pile_up s (n : nat) : forall l : EventLoop.loop state jsval,
    EventLoop.object l = s ->
    cached s (clock (EventLoop.env l)) = false ->
    Json.truthy (refreshToken s) = false -> hasCredentials s = false ->
    let l' := EventLoop.steps getAccessToken (repeat EventLoop.Call n) l in
    EventLoop.object l' = s
    /\ EventLoop.in_flight l' = EventLoop.in_flight l
    /\ sent (EventLoop.env l') = sent (EventLoop.env l)
    /\ EventLoop.outcomes l'
       = (EventLoop.outcomes l
          ++ repeat (Some (Rejected
                             (Js.Error "Email and password are required for authentication")))
               n)%list.
  Proof.
    induction n as [|n IH]; intros l Hs Hc Hr Hcan.
    - simpl. rewrite !app_nil_r. auto.
    - cbn [repeat EventLoop.steps fold_left].
      pose proof (advance_denied s (EventLoop.env l) Hc Hr Hcan) as Ea.
      set (l1 := EventLoop.step getAccessToken EventLoop.Call l).
      assert (El1 : l1 = EventLoop.Loop s (announced (EventLoop.env l))
                           (EventLoop.tasks l
                            ++ [EventLoop.Settled
                                  (Rejected (Js.Error
                                     "Email and password are required for authentication"))])).
      { unfold l1, EventLoop.step. rewrite Hs, Ea. reflexivity. }
      destruct (IH l1 ltac:(rewrite El1; reflexivity) ltac:(rewrite El1; exact Hc) Hr Hcan)
        as (Hobj & Hfl & Hsent & Hout).
      fold (EventLoop.steps getAccessToken (repeat EventLoop.Call n) l1).
      split; [exact Hobj|]. split; [|split].
      + rewrite Hfl, El1. unfold EventLoop.in_flight, EventLoop.pending. cbn [EventLoop.tasks].
        rewrite flat_map_app. cbn [flat_map]. rewrite app_nil_r. reflexivity.
      + rewrite Hsent, El1. reflexivity.
      + rewrite Hout, El1. unfold EventLoop.outcomes, EventLoop.settled.
        cbn [EventLoop.tasks]. rewrite map_app. cbn [map]. rewrite <- app_assoc. reflexivity.
  Qed.

End Overlap.

(** C1, amended. [getAccessToken] keeps no lock and shares no pending
    attempt. Every call that finds no valid cached token makes an attempt
    of its own, and which one is fixed by what the object holds: after n
    calls made before any reply arrives, with a refresh token held, n
    refresh requests for that token are in flight; with no refresh token
    and with an email and a password, n authorize requests are in
    flight, the one of call i with the challenge of the 32 bytes and with
    the UUID drawn for that call; and with neither, every call is already
    rejected and nothing was sent. The token state is untouched, and what
    was sent is what is in flight. Only a call made while a valid token
    is cached is served without an attempt: it settles at once with the
    cached token. *)
Theorem overlapping_calls_each_open_an_attempt :
  forall (R : Runtime) (s : LegrandAuth.state) (w : world) (n : nat),
    LegrandAuth.cached s (clock w) = false ->
    let l := EventLoop.steps LegrandAuth.getAccessToken (repeat EventLoop.Call n)
               (EventLoop.Loop s w []) in
    EventLoop.object l = s
    /\ sent (EventLoop.env l) = (sent w ++ EventLoop.in_flight l)%list
    /\ (Json.truthy (LegrandAuth.refreshToken s) = true ->
        EventLoop.in_flight l
        = repeat (LegrandAuth.tokenRequest
                    (LegrandAuth.refreshBody (LegrandAuth.refreshToken s))) n)
    /\ (Json.truthy (LegrandAuth.refreshToken s) = false ->
        LegrandAuth.hasCredentials s = true ->
        EventLoop.in_flight l = map (LegrandAuth.opening_at w) (seq 0 n))
    /\ (Json.truthy (LegrandAuth.refreshToken s) = false ->
        LegrandAuth.hasCredentials s = false ->
        EventLoop.in_flight l = []
        /\ EventLoop.outcomes l
           = repeat (Some (Rejected
                             (Js.Error "Email and password are required for authentication")))
               n)
    /\ (forall l0 : EventLoop.loop LegrandAuth.state jsval,
          LegrandAuth.cached (EventLoop.object l0) (clock (EventLoop.env l0)) = true ->
          EventLoop.step LegrandAuth.getAccessToken EventLoop.Call l0
          = EventLoop.Loop (EventLoop.object l0) (EventLoop.env l0)
              (EventLoop.tasks l0
               ++ [EventLoop.Settled (Resolved (LegrandAuth.accessToken (EventLoop.object l0)))])).
Proof.
  intros R s w n Hc l.
  assert (Hall : EventLoop.object l = s
                 /\ sent (EventLoop.env l) = (sent w ++ EventLoop.in_flight l)%list).
  { destruct (Json.truthy (LegrandAuth.refreshToken s)) eqn:Hr;
      [|destruct (LegrandAuth.hasCredentials s) eqn:Hcan].
    - destruct (refreshes_pile_up s n (EventLoop.Loop s w []) eq_refl Hc Hr) as (A & B & C).
      fold l in A, B, C. split; [exact A|]. rewrite B, C. reflexivity.
    - destruct (logins_pile_up s w n (EventLoop.Loop s w []) 0 eq_refl Hc Hr Hcan
                  eq_refl eq_refl ltac:(cbn; lia) ltac:(cbn; lia)) as (A & B & C).
      fold l in A, B, C. split; [exact A|]. rewrite B, C. reflexivity.
    - destruct (denials_pile_up s n (EventLoop.Loop s w []) eq_refl Hc Hr Hcan)
        as (A & B & C & D).
      fold l in A, B, C. split; [exact A|]. rewrite B, C. cbn. rewrite app_nil_r.
      reflexivity. }
  split; [exact (proj1 Hall)|]. split; [exact (proj2 Hall)|].
  split; [|split; [|split]].
  - intros Hr.
    destruct (refreshes_pile_up s n (EventLoop.Loop s w []) eq_refl Hc Hr) as (_ & B & _).
    exact B.
  - intros Hr Hcan.
    destruct (logins_pile_up s w n (EventLoop.Loop s w []) 0 eq_refl Hc Hr Hcan
                eq_refl eq_refl ltac:(cbn; lia) ltac:(cbn; lia)) as (_ & B & _).
    exact B.
  - intros Hr Hcan.
    destruct (denials_pile_up s n (EventLoop.Loop s w []) eq_refl Hc Hr Hcan)
      as (_ & B & _ & D).
    split; [exact B|exact D].
  - intros l0 Hhit. unfold EventLoop.step, LegrandAuth.getAccessToken, LegrandAuth.cached in *.
    apply andb_true_iff in Hhit as [Ht Hv].
    rewrite advance_get, Ht, advance_now, Hv. reflexivity.
Qed.

(** The theorem at two calls on a fresh object with credentials: two
    authorize requests are in flight, each with a challenge of its own. *)
Lemma overlapping_calls_each_open_an_attempt_witness :
  EventLoop.in_flight
    (EventLoop.steps (@LegrandAuth.getAccessToken Reference.runtime)
       (repeat EventLoop.Call 2) Fixtures.freshLoop)
  = [ LegrandAuth.opening_at (Fixtures.world0 1000 (Fixtures.scripted 5 [])) 0;
      LegrandAuth.opening_at (Fixtures.world0 1000 (Fixtures.scripted 5 [])) 1 ].
Proof.
  exact (proj1 (proj2 (proj2 (proj2 (overlapping_calls_each_open_an_attempt Reference.runtime
                         (LegrandAuth.new "user@example.com" "secret")
                         (Fixtures.world0 1000 (Fixtures.scripted 5 [])) 2
                         eq_refl)))) eq_refl eq_refl).
Defined.

(* ===================================================================== *)
(** * Methods of member objects                                           *)
(* ===================================================================== *)

Section Zoom.
Context {S T : Type} (get : T -> S) (set : S -> T -> T).
Hypothesis get_set : forall a t, get (set a t) = a.
Hypothesis set_set : forall a b t, set a (set b t) = set a t.

(** A method of a member runs as it does on the member alone, and the
    owner ends with the member's final state written back. *)
Lemma run_zoom {A} (p : prog S A) : forall t w,
  set (get t) t = t ->
  run (zoom get set p) t w =
  (fst (fst (run p (get t) w)), set (snd (fst (run p (get t) w))) t, snd (run p (get t) w)).
Proof.
  induction p as [a|e|e|k IH|s' k IH|k IH|n k IH|k IH|l m k IH|req k IH];
    intros t w Ht; cbn [zoom run fst snd]; try (rewrite Ht; reflexivity); auto.
  - rewrite IH by (rewrite get_set, set_set; reflexivity).
    rewrite get_set, set_set. reflexivity.
  - apply (IH _ t (snd (draw n w)) Ht).
  - apply (IH _ t (snd (issue w)) Ht).
  - apply (IH _ t (snd (send req w)) Ht).
Qed.

End Zoom.

Section Members.
Context `{Runtime}.

Lemma run_on_cloudApi {A} (p : prog LegrandCloudApi.state A) s w :
  run (LegrandCloudPlatform.on_cloudApi p) s w =
  (fst (fst (run p (LegrandCloudPlatform.cloudApi s) w)),
   LegrandCloudPlatform.set_cloudApi
     (snd (fst (run p (LegrandCloudPlatform.cloudApi s) w))) s,
   snd (run p (LegrandCloudPlatform.cloudApi s) w)).
Proof.
  unfold LegrandCloudPlatform.on_cloudApi. apply run_zoom; auto.
  destruct s; reflexivity.
Qed.

Lemma run_on_auth {A} (p : prog LegrandAuth.state A) a s w :
  LegrandCloudApi.auth s = Some a ->
  run (LegrandCloudApi.on_auth a p) s w =
  (fst (fst (run p a w)), LegrandCloudApi.set_auth (snd (fst (run p a w))) s,
   snd (run p a w)).
Proof.
  intros Ha. unfold LegrandCloudApi.on_auth.
  rewrite run_zoom; auto.
  - rewrite Ha. reflexivity.
  - rewrite Ha. destruct s; simpl in *. rewrite Ha. reflexivity.
Qed.

End Members.

(* ===================================================================== *)
(** * The login choreography                                              *)
(* ===================================================================== *)






(** On that provider the record after the refresh holds the new access
    token, the refresh token in use and the new expiry. *)
Example refresh_without_refresh_token :
  let s := LegrandAuth.State "user@example.com" "secret"
             (Some (JStr "tok1")) (Some (JStr "ref1")) (Js.Num 3601020) in
  let w := Fixtures.world0 3600000
             (Fixtures.scripted 5
                [ Fixtures.status 200
                    ("{" +++ Fixtures.q "access_token" +++ ":" +++ Fixtures.q "tok2" +++ ","
                     +++ Fixtures.q "expires_in" +++ ":3600}") ]) in
  fst (run (@LegrandAuth.refreshAccessToken Reference.runtime) s w)
  = (Resolved tt,
     LegrandAuth.State "user@example.com" "secret"
       (Some (JStr "tok2")) (Some (JStr "ref1")) (Js.Num 7200005)).
Proof. vm_compute. reflexivity. Qed.

(** A body that is JSON but no token record is stored as it is: the
    access token becomes undefined and the expiry not a number. *)
Example refresh_with_an_empty_object :
  let s := LegrandAuth.State "user@example.com" "secret"
             (Some (JStr "tok1")) (Some (JStr "ref1")) (Js.Num 3601020) in
  let w := Fixtures.world0 3600000 (Fixtures.scripted 5 [ Fixtures.status 200 "{}" ]) in
  fst (run (@LegrandAuth.refreshAccessToken Reference.runtime) s w)
  = (Resolved tt,
     LegrandAuth.State "user@example.com" "secret" None (Some (JStr "ref1")) Js.NaN).
Proof. vm_compute. reflexivity. Qed.

(** X4. With an empty email or an empty password, which is when
    [hasCredentials] answers false, [authenticate] is rejected at once
    with the error Email and password are required for authentication: no
    request is sent and nothing changes but the log. *)
Theorem authenticate_needs_credentials :
  forall (R : Runtime) (s : LegrandAuth.state) (w : world),
    (LegrandAuth.hasCredentials s = false <->
       LegrandAuth.email s = EmptyString \/ LegrandAuth.password s = EmptyString)
    /\ (LegrandAuth.hasCredentials s = false ->
        run LegrandAuth.authenticate s w =
          (Rejected (Js.Error "Email and password are required for authentication"),
           s, LegrandAuth.announced w)
        /\ sent (snd (run LegrandAuth.authenticate s w)) = sent w).
Proof.
  intros R s w. split.
  - unfold LegrandAuth.hasCredentials, Js.truthy.
    destruct (String.eqb_spec (LegrandAuth.email s) EmptyString) as [->|He];
      destruct (String.eqb_spec (LegrandAuth.password s) EmptyString) as [->|Hp];
      simpl; split; auto; try discriminate.
    intros [E|E]; contradiction.
  - intros Hc. rewrite authenticate_without_credentials by exact Hc. auto.
Qed.


(** X5. A login with credentials sends at most four requests, always in
    the order authorize, credentials, confirm, token, and stops at the
    first step that fails: what it has sent is a non-empty prefix of that
    sequence, and it succeeds only after all four. The challenge in the
    authorize request is derived from the verifier that the token request
    carries, the CSRF token and the transaction id of the credentials
    request are those of the confirm request, and the credentials are sent
    only when both of them are non-empty. *)
Theorem login_sends_its_requests_in_order :
  forall (R : Runtime) (s : LegrandAuth.state) (w : world),
    LegrandAuth.hasCredentials s = true ->
    let r := run LegrandAuth.authenticate s w in
    let verifier := Base64url.encode (fst (draw 32 (LegrandAuth.announced w))) in
    exists st csrf cookies cookies' tx code n,
      sent (snd r)
      = (sent w ++ firstn n
           [ LegrandAuth.authorizeRequest (LegrandAuth.generateCodeChallenge verifier) st;
             LegrandAuth.credentialsRequest (LegrandAuth.email s) (LegrandAuth.password s)
               csrf cookies tx;
             LegrandAuth.confirmRequest cookies' tx csrf;
             LegrandAuth.tokenRequest (LegrandAuth.exchangeBody code verifier) ])%list
      /\ (1 <= n <= 4)%nat
      /\ (forall x, fst (fst r) = Resolved x -> n = 4%nat)
      /\ ((2 <= n)%nat -> csrf <> EmptyString /\ tx <> EmptyString).
Proof.
  intros R s w Hc r verifier.
  destruct (authenticate_sent s w Hc) as (csrf & cookies & cookies' & tx & code & n & Hs).
  exists (LegrandAuth.state_of w), csrf, cookies, cookies', tx, code, n. exact Hs.
Qed.

(** The theorem on the login of the end-to-end scenario. *)
Lemma login_sends_its_requests_in_order_witness :
  let s := LegrandAuth.new "user@example.com" "secret" in
  let w := Fixtures.world0 1000
             (Fixtures.scripted 5
                [ Fixtures.loginPage; Fixtures.accepted; Fixtures.redirected "AUTHCODE123";
                  Fixtures.tokens "tok1" "ref1" 3600 ]) in
  LegrandAuth.login_trace s (Base64url.encode (fst (draw 32 (LegrandAuth.announced w)))) w
    (run (@LegrandAuth.authenticate Reference.runtime) s w).
Proof.
  intros s w.
  exact (login_sends_its_requests_in_order Reference.runtime s w eq_refl).
Defined.

(* ===================================================================== *)
(** * PKCE values on the wire                                             *)
(* ===================================================================== *)

Section UrlSafe.

Lemma digit_unreserved (z : Z) : Http.unreserved (Base64url.digit z) = true.
Proof.
  unfold Base64url.digit. generalize (Z.to_nat z) as n. intros n.
  do 64 (destruct n as [|n]; [reflexivity|]). reflexivity.
Qed.

Lemma form_encode_cons (c : ascii) (s : string) :
  Http.unreserved c = true -> Http.form_encode (String c s) = String c (Http.form_encode s).
Proof.
  intros Hc. cbn [Http.form_encode]. rewrite Hc. reflexivity.
Qed.

Lemma form_encode_base64url (bs : list byte) :
  Http.form_encode (Base64url.encode bs) = Base64url.encode bs.
Proof.
  induction bs as [| a | a b | a b c l IH] using list_ind3;
    cbn [Base64url.encode];
    rewrite ?form_encode_cons by apply digit_unreserved;
    try reflexivity.
  rewrite IH. reflexivity.
Qed.

End UrlSafe.

(** X6. The PKCE verifier and the challenge derived from it consist of
    unreserved characters only: form encoding leaves both as they are, so
    the authorize URL carries the challenge and the token request carries
    the verifier character for character, without percent escapes. *)
Theorem pkce_values_are_sent_verbatim :
  forall (rnd : list byte),
    let verifier := Base64url.encode rnd in
    let challenge := LegrandAuth.generateCodeChallenge verifier in
    Http.form_encode verifier = verifier
    /\ Http.form_encode challenge = challenge
    /\ Http.URLSearchParams [("code_verifier", verifier)] = "code_verifier=" +++ verifier
    /\ Http.URLSearchParams [("code_challenge", challenge)] = "code_challenge=" +++ challenge.
Proof.
  intros rnd verifier challenge.
  assert (Hv : Http.form_encode verifier = verifier) by apply form_encode_base64url.
  assert (Hc : Http.form_encode challenge = challenge) by apply form_encode_base64url.
  repeat split; auto.
  - unfold Http.URLSearchParams. cbn [map Js.join fst snd]. rewrite Hv. reflexivity.
  - unfold Http.URLSearchParams. cbn [map Js.join fst snd]. rewrite Hc. reflexivity.
Qed.

(* ===================================================================== *)
(** * Queries: [getStatus], [getPlants], [getModules]                     *)
(* ===================================================================== *)

Section Queries.
Context `{Runtime}.
Import LegrandCloudApi.

(** A query in a [try] whose [catch] logs and answers [fallback]: once the
    token is at hand, one request, and an answer whatever the reply. *)
Lemma run_guarded_request {A} method url body (ok : json -> A) (after : json -> prog state unit)
    (fallback : A) (complaint : Js.exn -> string) s w :
  (forall j s0 w0, exists w', run (after j) s0 w0 = (Resolved tt, s0, w') /\ sent w' = sent w0) ->
  let r := run (try_catch
                  (bind (makeRequest method url body)
                     (fun response => bind (after response) (fun _ => Ret (ok response))))
                  (fun error => bind (log Err (complaint error)) (fun _ => Ret fallback))) s w in
  match run getAccessToken s w with
  | (Resolved token, s2, w2) =>
      let req := commandRequest method url token body in
      let w3 := debugged s2 (method +++ " " +++ url) w2 in
      sent (snd r) = (sent w2 ++ [req])%list
      /\ fst r = (Resolved (answer ok fallback (fst (send req w3))), s2)
  | (Rejected e, s2, w2) => fst r = (Resolved fallback, s2) /\ sent (snd r) = sent w2
  | (NeverSettles e, s2, w2) => r = (NeverSettles e, s2, w2)
  end.
Proof.
  intros Hafter r. unfold r. rewrite run_try_catch, run_bind, run_makeRequest.
  destruct (run getAccessToken s w) as [[[token|e|e] s2] w2];
    [|split; reflexivity|reflexivity].
  cbv zeta.
  set (req := commandRequest method url token body).
  set (w3 := debugged s2 (method +++ " " +++ url) w2).
  assert (Hs : sent (snd (send req w3)) = (sent w2 ++ [req])%list).
  { rewrite sent_send. unfold w3. rewrite sent_debugged. reflexivity. }
  unfold answer. destruct (fst (send req w3)) as [res|e] eqn:Ex.
  - rewrite run_settle. fold (parsed_body res).
    destruct (is_2xx (Resp res)) eqn:E2; cbv beta iota.
    + rewrite run_bind.
      destruct (Hafter (parsed_body res) s2 (snd (send req w3))) as (w4 & Ew & Es).
      rewrite Ew. cbv beta iota. cbn [fst snd run]. rewrite Es, Hs. auto.
    + rewrite run_log. cbn [fst snd run record_log sent]. rewrite Hs. auto.
  - cbv beta iota. rewrite run_log. cbn [fst snd run record_log sent]. rewrite Hs. auto.
Qed.

Lemma nothing_after (j : json) (s0 : state) (w0 : world) :
  exists w', run (Ret tt : prog state unit) s0 w0 = (Resolved tt, s0, w') /\ sent w' = sent w0.
Proof. exists w0. auto. Qed.

End Queries.

(** X7. [getStatus] is rejected exactly when its authentication step is
    rejected, with that error, and it never settles when that step or
    the fetch of the bearer token never settles. When the step resolves
    and the token is fetched, exactly one request is sent, a POST to the
    getState endpoint of the device, and when that exchange ends the call
    resolves: with the state read out of the parsed body when the status
    is from 200 to 299, and with null on any other status and on a
    transport error. When the fetch of the token is rejected, nothing is
    sent and the call resolves with null. A body that is empty or is
    not JSON is parsed as the empty object, which gives null. *)
Theorem getStatus_settles :
  forall (R : Runtime) (deviceId : string) (s : LegrandCloudApi.state) (w : world),
    let r := run (LegrandCloudApi.getStatus deviceId) s w in
    (forall e, fst (fst r) = Rejected e <->
               fst (fst (run LegrandCloudApi.ensureAuthenticated s w)) = Rejected e)
    /\ match run LegrandCloudApi.ensureAuthenticated s w with
       | (Resolved _, s1, w1) =>
           let body := Json.stringify (LegrandCloudApi.getStateBody (fst (issue w1))) in
           match run LegrandCloudApi.getAccessToken s1 (snd (issue w1)) with
           | (Resolved token, s2, w2) =>
               let req := LegrandCloudApi.commandRequest "POST"
                            (LegrandCloudApi.getStateUrl deviceId) token (Some body) in
               let w3 := LegrandCloudApi.debugged s2
                           ("POST " +++ LegrandCloudApi.getStateUrl deviceId) w2 in
               sent (snd r) = (sent w2 ++ [req])%list
               /\ fst r =
                  (Resolved
                     match fst (send req w3) with
                     | Resp res =>
                         if (statusCode res >=? 200)%Z && (statusCode res <? 300)%Z
                         then LegrandCloudApi.readState (LegrandCloudApi.parsed_body res)
                         else None
                     | NetErr _ => None
                     end, s2)
           | (Rejected e, s2, w2) => fst r = (Resolved None, s2) /\ sent (snd r) = sent w2
           | (NeverSettles e, s2, w2) => r = (NeverSettles e, s2, w2)
           end
       | (Rejected e, s1, w1) => r = (Rejected e, s1, w1)
       | (NeverSettles e, s1, w1) => r = (NeverSettles e, s1, w1)
       end
    /\ (forall res, Js.truthy (data res) = false \/ JSON_parse (data res) = None ->
          LegrandCloudApi.parsed_body res = JObj [])
    /\ LegrandCloudApi.readState (JObj []) = None.
Proof.
  intros R deviceId s w r.
  assert (Hq : match run LegrandCloudApi.ensureAuthenticated s w with
       | (Resolved _, s1, w1) =>
           let body := Json.stringify (LegrandCloudApi.getStateBody (fst (issue w1))) in
           match run LegrandCloudApi.getAccessToken s1 (snd (issue w1)) with
           | (Resolved token, s2, w2) =>
               let req := LegrandCloudApi.commandRequest "POST"
                            (LegrandCloudApi.getStateUrl deviceId) token (Some body) in
               let w3 := LegrandCloudApi.debugged s2
                           ("POST " +++ LegrandCloudApi.getStateUrl deviceId) w2 in
               sent (snd r) = (sent w2 ++ [req])%list
               /\ fst r = (Resolved (LegrandCloudApi.answer LegrandCloudApi.readState None
                                       (fst (send req w3))), s2)
           | (Rejected e, s2, w2) => fst r = (Resolved None, s2) /\ sent (snd r) = sent w2
           | (NeverSettles e, s2, w2) => r = (NeverSettles e, s2, w2)
           end
       | (Rejected e, s1, w1) => r = (Rejected e, s1, w1)
       | (NeverSettles e, s1, w1) => r = (NeverSettles e, s1, w1)
       end).
  { unfold r, LegrandCloudApi.getStatus. rewrite run_bind.
    destruct (run LegrandCloudApi.ensureAuthenticated s w) as [[[[]|e|e] s1] w1];
      try reflexivity.
    rewrite run_randomUUID.
    exact (run_guarded_request "POST" (LegrandCloudApi.getStateUrl deviceId)
             (Some (Json.stringify (LegrandCloudApi.getStateBody (fst (issue w1)))))
             LegrandCloudApi.readState (LegrandCloudApi.debugResponse "getState") None
             (fun error => "Failed to get device status: " +++ Js.to_string error)
             s1 (snd (issue w1)) (debugResponse_logs "getState")). }
  split; [|split; [|split; [|reflexivity]]].
  - intros e0.
    destruct (run LegrandCloudApi.ensureAuthenticated s w) as [[[[]|e|e] s1] w1].
    + cbv zeta in Hq.
      destruct (run LegrandCloudApi.getAccessToken s1 (snd (issue w1)))
        as [[[token|e|e] s2] w2].
      * destruct Hq as [_ Hq]. rewrite (surjective_pairing (fst r)) in Hq.
        injection Hq as Hq _. rewrite Hq. simpl. split; discriminate.
      * destruct Hq as [Hq _]. rewrite (surjective_pairing (fst r)) in Hq.
        injection Hq as Hq _. rewrite Hq. simpl. split; discriminate.
      * rewrite Hq. simpl. split; discriminate.
    + rewrite Hq. simpl. split; intros E; injection E as ->; reflexivity.
    + rewrite Hq. simpl. split; discriminate.
  - destruct (run LegrandCloudApi.ensureAuthenticated s w) as [[[[]|e|e] s1] w1];
      try exact Hq.
    cbv zeta in Hq |- *.
    destruct (run LegrandCloudApi.getAccessToken s1 (snd (issue w1)))
      as [[[token|e|e] s2] w2]; try exact Hq.
    destruct Hq as [Hq1 Hq2]. split; [exact Hq1|]. rewrite Hq2.
    unfold LegrandCloudApi.answer, LegrandCloudApi.is_2xx.
    destruct (fst (send _ _)); reflexivity.
  - intros res [Hd|Hp]; unfold LegrandCloudApi.parsed_body.
    + rewrite Hd. reflexivity.
    + rewrite Hp. destruct (Js.truthy (data res)); reflexivity.
Qed.

(** X8. [getPlants] and [getModules] are rejected exactly when their
    authentication step is rejected, with that error, and never settle
    when that step or the fetch of the bearer token never settles. When
    the step resolves and the token is fetched, exactly one request is
    sent, a GET without a body, and when that exchange ends the call
    resolves: with the elements of the parsed body when the status is
    from 200 to 299 and the body is a JSON array, and with the empty list
    on a body that is no array, on any other status and on a transport
    error. When the fetch of the token is rejected, nothing is sent and
    the call resolves with the empty list. *)
Theorem listings_settle :
  forall (R : Runtime) (plantId : string) (s : LegrandCloudApi.state) (w : world),
    let settled (url : string) (r : outcome (list json) * LegrandCloudApi.state * world) :=
      (forall e, fst (fst r) = Rejected e <->
                 fst (fst (run LegrandCloudApi.ensureAuthenticated s w)) = Rejected e)
      /\ match run LegrandCloudApi.ensureAuthenticated s w with
         | (Resolved _, s1, w1) =>
             match run LegrandCloudApi.getAccessToken s1 w1 with
             | (Resolved token, s2, w2) =>
                 let req := LegrandCloudApi.commandRequest "GET" url token None in
                 let w3 := LegrandCloudApi.debugged s2 ("GET " +++ url) w2 in
                 sent (snd r) = (sent w2 ++ [req])%list
                 /\ method req = "GET" /\ Http.url req = url /\ body req = None
                 /\ fst r =
                    (Resolved
                       match fst (send req w3) with
                       | Resp res =>
                           if (statusCode res >=? 200)%Z && (statusCode res <? 300)%Z
                           then match LegrandCloudApi.parsed_body res with
                                | JArr items => items
                                | _ => []
                                end
                           else []
                       | NetErr _ => []
                       end, s2)
             | (Rejected e, s2, w2) => fst r = (Resolved [], s2) /\ sent (snd r) = sent w2
             | (NeverSettles e, s2, w2) => r = (NeverSettles e, s2, w2)
             end
         | (Rejected e, s1, w1) => r = (Rejected e, s1, w1)
         | (NeverSettles e, s1, w1) => r = (NeverSettles e, s1, w1)
         end in
    settled LegrandCloudApi.plantsUrl (run LegrandCloudApi.getPlants s w)
    /\ settled (LegrandCloudApi.modulesUrl plantId) (run (LegrandCloudApi.getModules plantId) s w).
Proof.
  intros R plantId s w settled.
  assert (Hl : forall url what,
            settled url (run (bind LegrandCloudApi.ensureAuthenticated
                                (fun _ => LegrandCloudApi.listing url what)) s w)).
  { intros url what. unfold settled. rewrite run_bind.
    destruct (run LegrandCloudApi.ensureAuthenticated s w) as [[[[]|e|e] s1] w1];
      [|split; [intros e0; simpl; split; intros E; injection E as ->; reflexivity
               |reflexivity]
       |split; [intros e0; simpl; split; discriminate|reflexivity]].
    pose proof (run_guarded_request "GET" url None LegrandCloudApi.asArray
                  (fun _ => Ret tt) []
                  (fun error => "Failed to get " +++ what +++ ": " +++ Js.to_string error)
                  s1 w1 nothing_after) as Hq.
    cbv zeta in Hq.
    change (run (try_catch _ _) s1 w1) with (run (LegrandCloudApi.listing url what) s1 w1) in Hq.
    set (r0 := run (LegrandCloudApi.listing url what) s1 w1) in *.
    destruct (run LegrandCloudApi.getAccessToken s1 w1) as [[[token|e|e] s2] w2].
    - destruct Hq as [Hq1 Hq2]. split.
      + intros e0. rewrite Hq2. simpl. split; discriminate.
      + split; [exact Hq1|]. split; [reflexivity|]. split; [reflexivity|].
        split; [reflexivity|]. rewrite Hq2.
        unfold LegrandCloudApi.answer, LegrandCloudApi.is_2xx, LegrandCloudApi.asArray.
        destruct (fst (send _ _)); reflexivity.
    - split; [|exact Hq]. destruct Hq as [Hq _].
      intros e0. rewrite Hq. simpl. split; discriminate.
    - split; [|exact Hq]. intros e0. rewrite Hq. simpl. split; discriminate. }
  split; apply Hl.
Qed.

(* ===================================================================== *)
(** * [setAccessToken] and the window of a token set by hand              *)
(* ===================================================================== *)

Section SetToken.
Context `{Runtime}.
Import LegrandCloudApi.

Lemma run_setAccessToken token expiresIn s w :
  run (setAccessToken token expiresIn) s w =
  (Resolved tt, token_set token (clock w + expiresIn * 1000) s,
   record_log Info "Access token set manually" w).
Proof.
  unfold setAccessToken, token_set. rewrite run_get, run_now, run_put.
  destruct (auth s) as [a|] eqn:Ha.
  - rewrite run_bind.
    rewrite (run_on_auth _ a (set_manual (Some token) (clock w + expiresIn * 1000) s) w Ha).
    reflexivity.
  - cbn [bind run record_log]. unfold set_manual. rewrite Ha. reflexivity.
Qed.

Lemma token_set_window token expiry (s : state) w :
  token <> EmptyString -> (clock w < expiry - 60000)%Z ->
  let s' := token_set token expiry s in
  run ensureAuthenticated s' w = (Resolved tt, s', w)
  /\ run getAccessToken s' w = (Resolved (Some (JStr token)), s', w).
Proof.
  intros Hne Hlt s'. pose proof (truthy_nonempty token Hne) as Ht.
  apply Z.ltb_lt in Hlt. subst s'. unfold token_set. split.
  - unfold ensureAuthenticated. rewrite run_get. cbn [manualToken Js.truthy_opt].
    rewrite Ht. change (bind now ?f) with (DateNow f). cbn [run manualTokenExpiry].
    rewrite Hlt. reflexivity.
  - unfold getAccessToken. rewrite run_get. cbn [auth].
    destruct (auth s) as [a|]; cbn [option_map].
    + rewrite run_on_auth by reflexivity.
      rewrite getAccessToken_hit.
      * reflexivity.
      * unfold LegrandAuth.cached. cbn. rewrite Ht, Hlt. reflexivity.
    + cbn [manualToken Js.truthy_opt]. rewrite Ht. reflexivity.
Qed.

End SetToken.

(** X9. [setAccessToken] stores the token with the expiry now plus the
    lifetime, in the client and, when credentials were configured, in its
    [LegrandAuth] too, where it drops any refresh token held. Until 60
    seconds before that expiry the authentication step passes without
    sending anything and the bearer of a request is that token, with or
    without credentials. *)
Theorem manual_token_is_the_bearer_in_its_window :
  forall (R : Runtime) (token : string) (expiresIn : Z)
         (s : LegrandCloudApi.state) (w w' : world),
    token <> EmptyString ->
    let expiry := clock w + expiresIn * 1000 in
    let s' := snd (fst (run (LegrandCloudApi.setAccessToken token expiresIn) s w)) in
    clock w' < expiry - 60000 ->
    LegrandCloudApi.manualToken s' = Some token
    /\ LegrandCloudApi.manualTokenExpiry s' = expiry
    /\ LegrandCloudApi.auth s'
       = option_map (fun a => LegrandAuth.State (LegrandAuth.email a) (LegrandAuth.password a)
                                (Some (JStr token)) (Some JNull) (Js.Num expiry))
           (LegrandCloudApi.auth s)
    /\ run LegrandCloudApi.ensureAuthenticated s' w' = (Resolved tt, s', w')
    /\ run LegrandCloudApi.getAccessToken s' w' = (Resolved (Some (JStr token)), s', w').
Proof.
  intros R token expiresIn s w w' Hne expiry s' Hlt.
  unfold s'. rewrite run_setAccessToken. cbn [fst snd]. fold expiry.
  split; [reflexivity|]. split; [reflexivity|]. split; [reflexivity|].
  apply token_set_window; assumption.
Qed.

(** The theorem on a client with credentials: a token set by hand at time
    1000 for an hour is the bearer at time 2000000, and nothing is sent. *)
Lemma manual_token_is_the_bearer_in_its_window_witness :
  let s := LegrandCloudApi.new (LegrandCloudApi.Config "user@example.com" "secret" false) in
  let w := Fixtures.world0 1000 (Fixtures.scripted 5 []) in
  let w' := Fixtures.world0 2000000 (Fixtures.scripted 5 []) in
  let s' := snd (fst (run (LegrandCloudApi.setAccessToken "manual" 3600) s w)) in
  run (@LegrandCloudApi.getAccessToken Reference.runtime) s' w'
  = (Resolved (Some (JStr "manual")), s', w').
Proof.
  intros s w w' s'.
  apply (manual_token_is_the_bearer_in_its_window Reference.runtime "manual" 3600 s w w');
    [discriminate|reflexivity].
Defined.

(* ===================================================================== *)
(** * What a poll keeps                                                   *)
(* ===================================================================== *)

Section PollKeeps.
Context `{Runtime}.
Import LegrandCloudPlatform.

Lemma same_shape_refl s : same_shape s s.
Proof. repeat split. Qed.

Lemma same_shape_trans s1 s2 s3 : same_shape s1 s2 -> same_shape s2 s3 -> same_shape s1 s3.
Proof.
  intros (A1 & A2 & A3) (B1 & B2 & B3). repeat split; congruence.
Qed.

Lemma update_handler_keys deviceId f hs :
  map fst (update_handler deviceId f hs) = map fst hs.
Proof.
  induction hs as [|[k h] hs IH]; simpl; auto.
  destruct (k =? deviceId)%string; simpl; [reflexivity|]. rewrite IH. reflexivity.
Qed.

Lemma run_log_all l ms (s : state) w :
  fst (run (log_all l ms) s w) = (Resolved tt, s).
Proof.
  revert w. induction ms as [|m ms IH]; intros w; simpl; auto.
Qed.

Lemma when_log_run (b : bool) l m (s : state) w :
  fst (run (when b (log l m)) s w) = (Resolved tt, s).
Proof. destruct b; reflexivity. Qed.

(** The [try] block for one device settles, or is rejected by the
    authentication step, and keeps the shape of the platform. *)
Lemma pollOne_shape deviceId s w :
  same_shape s (snd (fst (run (pollOne deviceId) s w))).
Proof.
  unfold pollOne. rewrite run_bind, run_on_cloudApi.
  set (c := run (LegrandCloudApi.getStatus deviceId) (cloudApi s) w).
  destruct c as [[[st|e|e] a'] w1]; cbn [fst snd]; try (repeat split; fail).
  rewrite run_get.
  set (s1 := set_cloudApi a' s).
  assert (H1 : same_shape s s1) by (repeat split).
  destruct st as [ds|].
  - rewrite run_bind.
    pose proof (when_log_run (debug (config s1)) Debug
                  ("  " +++ deviceId +++ ": on=" +++ bool_text (LegrandCloudApi.on ds)
                   +++ ", brightness=" +++ brightness_text (LegrandCloudApi.brightness ds))
                  s1 w1) as Hw.
    destruct (run (when _ _) s1 w1) as [[o s2] w2]. simpl in Hw. injection Hw as -> ->.
    destruct (find_handler deviceId (accessoryHandlers s1)) as [handler|];
      [|exact H1].
    destruct (updateState _ _ handler) as [h' lines].
    rewrite run_put.
    pose proof (run_log_all Debug lines
                  (set_handlers (update_handler deviceId (fun _ => h') (accessoryHandlers s1)) s1)
                  w2) as Hl.
    destruct (run (log_all Debug lines) _ w2) as [[o3 s3] w3]. simpl in Hl.
    injection Hl as -> ->. cbn [fst snd].
    apply (same_shape_trans s s1); [exact H1|].
    repeat split. simpl. apply update_handler_keys.
  - pose proof (when_log_run (debug (config s1)) Debug
                  ("  " +++ deviceId +++ ": no state returned") s1 w1) as Hw.
    destruct (run (when _ _) s1 w1) as [[o s2] w2]. simpl in Hw. injection Hw as -> ->.
    exact H1.
Qed.

Lemma pollLoop_keeps keys : forall s w,
  same_shape s (snd (fst (run (pollLoop keys) s w)))
  /\ forall e, fst (fst (run (pollLoop keys) s w)) <> Rejected e.
Proof.
  induction keys as [|deviceId rest IH]; intros s w.
  - split; [apply same_shape_refl|discriminate].
  - cbn [pollLoop]. rewrite run_bind, run_try_catch, run_bind.
    pose proof (pollOne_shape deviceId s w) as Hp.
    destruct (run (pollOne deviceId) s w) as [[[[]|e|e] s1] w1]; cbn [fst snd] in Hp.
    + cbn [run]. destruct (IH s1 w1) as [IH1 IH2].
      split; [exact (same_shape_trans _ _ _ Hp IH1)|exact IH2].
    + destruct (Js.includes (Js.message e) "401" || Js.includes (Js.message e) "auth").
      * rewrite run_log. cbn [run fst snd]. split; [exact Hp|discriminate].
      * rewrite run_log. cbn [run].
        destruct (IH s1 (record_log Warn
                           ("Polling error for " +++ deviceId +++ ": " +++ Js.message e) w1))
          as [IH1 IH2].
        split; [exact (same_shape_trans _ _ _ Hp IH1)|exact IH2].
    + cbn [fst snd]. split; [exact Hp|discriminate].
Qed.

Lemma pollDeviceStatus_keeps s w :
  same_shape s (snd (fst (run pollDeviceStatus s w)))
  /\ forall e, fst (fst (run pollDeviceStatus s w)) <> Rejected e.
Proof.
  unfold pollDeviceStatus. rewrite run_get, run_when.
  destruct (debug (config s)); [rewrite run_log|]; apply pollLoop_keeps.
Qed.

End PollKeeps.

(** X10. A poll is never rejected, so the call the timer makes without
    awaiting it cannot leave an unhandled rejection, and whatever happens
    in it, a credential failure included, it leaves the interval timer, the
    configuration and the set of devices as they were: nothing in a poll
    stops the polling. *)
Theorem poll_never_rejects_and_keeps_the_timer :
  forall (R : Runtime) (s : LegrandCloudPlatform.state) (w : world),
    let r := run LegrandCloudPlatform.pollDeviceStatus s w in
    (forall e, fst (fst r) <> Rejected e)
    /\ LegrandCloudPlatform.pollingTimer (snd (fst r)) = LegrandCloudPlatform.pollingTimer s
    /\ LegrandCloudPlatform.config (snd (fst r)) = LegrandCloudPlatform.config s
    /\ map fst (LegrandCloudPlatform.accessoryHandlers (snd (fst r)))
       = map fst (LegrandCloudPlatform.accessoryHandlers s).
Proof.
  intros R s w r. destruct (pollDeviceStatus_keeps s w) as [(A & B & C) D]. auto.
Qed.

Section Timer.
Context `{Runtime}.
Import LegrandCloudPlatform.

Lemma keeps_bind {A B} (p : prog state A) (f : A -> prog state B) :
  (forall a t, keeps_timer t (f a)) ->
  forall t, keeps_timer t p -> keeps_timer t (bind p f).
Proof.
  intros Hf. induction p as [a|e|e|k IH|s' k IH|k IH|n k IH|k IH|l m k IH|r k IH];
    intros t Hp; cbn [bind keeps_timer] in *; auto.
  destruct Hp as [Ht Hk]. split; [exact Ht|apply IH, Hk].
Qed.

Lemma keeps_try_catch {A} (p : prog state A) (h : Js.exn -> prog state A) :
  (forall e t, keeps_timer t (h e)) ->
  forall t, keeps_timer t p -> keeps_timer t (try_catch p h).
Proof.
  intros Hh. induction p as [a|e|e|k IH|s' k IH|k IH|n k IH|k IH|l m k IH|r k IH];
    intros t Hp; cbn [try_catch keeps_timer] in *; auto.
  destruct Hp as [Ht Hk]. split; [exact Ht|apply IH, Hk].
Qed.

(** Nothing the cloud client does touches the timer. *)
Lemma keeps_on_cloudApi {A} (p : prog LegrandCloudApi.state A) :
  forall t, keeps_timer t (on_cloudApi p).
Proof.
  unfold on_cloudApi.
  induction p as [a|e|e|k IH|s' k IH|k IH|n k IH|k IH|l m k IH|r k IH];
    intros t; cbn [zoom keeps_timer]; auto.
Qed.

Lemma keeps_log_all l ms : forall t, keeps_timer t (log_all (S := state) l ms).
Proof.
  induction ms as [|m ms IH]; intros t; cbn [log_all keeps_timer]; auto.
Qed.

Lemma keeps_when (b : bool) l m : forall t, keeps_timer t (when (S := state) b (log l m)).
Proof. intros t. destruct b; exact I. Qed.

Lemma keeps_pollOne deviceId : forall t, keeps_timer t (pollOne deviceId).
Proof.
  intros t. unfold pollOne. apply keeps_bind; [|apply keeps_on_cloudApi].
  intros st t'. cbn [get bind keeps_timer]. intros s Hs.
  destruct st as [ds|]; [|apply keeps_when].
  assert (Hrest : keeps_timer t'
                    match find_handler deviceId (accessoryHandlers s) with
                    | Some handler =>
                        let '(h', lines) :=
                          updateState (LegrandCloudApi.on ds) (LegrandCloudApi.brightness ds)
                            handler in
                        (put (set_handlers
                                (update_handler deviceId (fun _ => h') (accessoryHandlers s)) s) ;;
                         log_all Debug lines)%prog
                    | None => Ret tt
                    end).
  { destruct (find_handler deviceId (accessoryHandlers s)) as [handler|]; [|exact I].
    destruct (updateState _ _ handler) as [h' lines].
    cbn [put bind keeps_timer]. split; [exact Hs|apply keeps_log_all]. }
  destruct (debug (config s)); exact Hrest.
Qed.

Lemma keeps_pollLoop keys : forall t, keeps_timer t (pollLoop keys).
Proof.
  induction keys as [|deviceId rest IH]; intros t; [exact I|].
  cbn [pollLoop]. apply keeps_bind.
  - intros [|] t'; [apply IH|exact I].
  - apply keeps_try_catch.
    + intros e t'. destruct (_ || _); exact I.
    + apply keeps_bind; [intros; exact I|apply keeps_pollOne].
Qed.

Lemma keeps_pollDeviceStatus : forall t, keeps_timer t pollDeviceStatus.
Proof.
  intros t. unfold pollDeviceStatus. cbn [get bind keeps_timer]. intros s Hs.
  destruct (debug (config s)); cbn [when log bind keeps_timer]; apply keeps_pollLoop.
Qed.

(** A stretch that keeps the timer leaves it as it was when it stops at
    its next exchange, and what is left of it keeps the timer too. *)
Lemma advance_keeps {A} (p : prog state A) : forall s w,
  keeps_timer (pollingTimer s) p ->
  pollingTimer (snd (fst (EventLoop.advance p s w))) = pollingTimer s
  /\ task_keeps_timer (fst (fst (EventLoop.advance p s w))).
Proof.
  induction p as [a|e|e|k IH|s' k IH|k IH|n k IH|k IH|l m k IH|r k IH];
    intros s w Hp; cbn [EventLoop.advance keeps_timer] in *;
    try (split; [reflexivity|exact I]).
  - apply IH, Hp. reflexivity.
  - destruct Hp as [Ht Hk]. rewrite <- Ht in Hk. destruct (IH s' w Hk) as [A1 A2].
    split; [rewrite A1; exact Ht|exact A2].
  - apply IH, Hp.
  - destruct (draw n w) as [b w']. apply IH, Hp.
  - destruct (issue w) as [u w']. apply IH, Hp.
  - apply IH, Hp.
  - split; [reflexivity|exact Hp].
Qed.

(** [this.pollDeviceStatus()], wherever it is called. *)
Lemma launch_spec y :
  polls (launch y) = S (polls y)
  /\ pollingTimer (platform (launch y)) = pollingTimer (platform y)
  /\ (exists tk, running (launch y) = (running y ++ [tk])%list /\ task_keeps_timer tk).
Proof.
  unfold launch.
  destruct (advance_keeps pollDeviceStatus (platform y) (outside y)
              (keeps_pollDeviceStatus _)) as [A1 A2].
  destruct (EventLoop.advance pollDeviceStatus (platform y) (outside y)) as [[tk s] w].
  cbn [fst snd polls platform running] in *. split; [reflexivity|]. split; [exact A1|].
  exists tk. split; [reflexivity|exact A2].
Qed.

Lemma fire_shutdown y :
  pollingTimer (platform (fire Shutdown y)) = None
  /\ polls (fire Shutdown y) = polls y
  /\ running (fire Shutdown y) = running y
  /\ sent (outside (fire Shutdown y)) = sent (outside y)
  /\ cloudApi (platform (fire Shutdown y)) = cloudApi (platform y)
  /\ accessoryHandlers (platform (fire Shutdown y)) = accessoryHandlers (platform y).
Proof.
  unfold fire, stopPolling. rewrite run_log, run_get.
  destruct (pollingTimer (platform y)) eqn:Ht; cbn; repeat split; auto.
Qed.

Lemma fire_arrive i x y :
  Forall task_keeps_timer (running y) ->
  polls (fire (Arrive i x) y) = polls y
  /\ pollingTimer (platform (fire (Arrive i x) y)) = pollingTimer (platform y)
  /\ Forall task_keeps_timer (running (fire (Arrive i x) y)).
Proof.
  intros Hall. unfold fire.
  destruct (running y !! i) as [[req k|o]|] eqn:Ei; auto.
  assert (Hk : forall x t, keeps_timer t (k x)).
  { rewrite Forall_lookup in Hall. exact (Hall i _ Ei). }
  destruct (advance_keeps (k x) (platform y) (outside y) (Hk x _)) as [A1 A2].
  destruct (EventLoop.advance (k x) (platform y) (outside y)) as [[tk s] w].
  cbn [fst snd polls platform running] in *. split; [reflexivity|]. split; [exact A1|].
  apply Forall_insert; assumption.
Qed.

(** Every poll the platform has started keeps the timer, whatever
    happens. *)
Lemma fire_keeps e y :
  Forall task_keeps_timer (running y) -> Forall task_keeps_timer (running (fire e y)).
Proof.
  intros Hall. destruct e as [| | |i x|d].
  - unfold fire, startPolling. destruct (pollingTimer (platform y)); [exact Hall|].
    cbn [running].
    match goal with |- context [launch ?y0] =>
      destruct (launch_spec y0) as (_ & _ & tk & -> & Htk) end.
    cbn [running]. apply Forall_app. split; [exact Hall|]. constructor; [exact Htk|constructor].
  - unfold fire. destruct (pollingTimer (platform y)); [|exact Hall].
    destruct (launch_spec y) as (_ & _ & tk & -> & Htk).
    apply Forall_app. split; [exact Hall|]. constructor; [exact Htk|constructor].
  - destruct (fire_shutdown y) as (_ & _ & -> & _). exact Hall.
  - apply fire_arrive, Hall.
  - exact Hall.
Qed.

Lemma fire_all_keeps es : forall y,
  Forall task_keeps_timer (running y) -> Forall task_keeps_timer (running (fire_all es y)).
Proof.
  induction es as [|e es IH]; intros y Hall; [exact Hall|].
  cbn [fire_all fold_left]. apply IH, fire_keeps, Hall.
Qed.

Lemma fire_interval_armed y t :
  pollingTimer (platform y) = Some t ->
  polls (fire IntervalElapsed y) = S (polls y)
  /\ pollingTimer (platform (fire IntervalElapsed y)) = Some t.
Proof.
  intros Ht. unfold fire. rewrite Ht.
  destruct (launch_spec y) as (A & B & _). rewrite A, B. auto.
Qed.

Lemma intervals_poll n : forall y t,
  pollingTimer (platform y) = Some t ->
  polls (fire_all (repeat IntervalElapsed n) y) = (polls y + n)%nat
  /\ pollingTimer (platform (fire_all (repeat IntervalElapsed n) y)) = Some t.
Proof.
  induction n as [|n IH]; intros y t Ht.
  - simpl. split; [lia|exact Ht].
  - cbn [repeat fire_all fold_left].
    destruct (fire_interval_armed y t Ht) as [Hp Hk].
    destruct (IH (fire IntervalElapsed y) t Hk) as [IH1 IH2].
    unfold fire_all in IH1, IH2. rewrite IH1, IH2, Hp. split; [lia|reflexivity].
Qed.

(** An armed timer stays armed through everything but a shutdown, and
    each of its firings starts a poll. *)
Lemma armed_stays_armed es : forall y t,
  Forall task_keeps_timer (running y) ->
  pollingTimer (platform y) = Some t ->
  forallb (fun e => negb (is_shutdown e)) es = true ->
  pollingTimer (platform (fire_all es y)) = Some t
  /\ polls (fire_all es y) = (polls y + intervals es)%nat.
Proof.
  induction es as [|e es IH]; intros y t Hall Ht Hes.
  - split; [exact Ht|]. cbn. lia.
  - cbn [forallb] in Hes. apply andb_true_iff in Hes as [He Hes].
    cbn [fire_all fold_left].
    assert (Hstep : pollingTimer (platform (fire e y)) = Some t
                    /\ polls (fire e y)
                       = (polls y + intervals [e])%nat).
    { destruct e as [| | |i x|d]; [| |discriminate He| |].
      - unfold fire, startPolling. rewrite Ht. cbn. split; [exact Ht|lia].
      - destruct (fire_interval_armed y t Ht) as [A B]. rewrite A, B. cbn. split; [auto|lia].
      - destruct (fire_arrive i x y Hall) as (A & B & _). rewrite A, B. cbn.
        split; [exact Ht|lia].
      - cbn. split; [exact Ht|lia]. }
    destruct Hstep as [Ht1 Hp1].
    destruct (IH (fire e y) t (fire_keeps e y Hall) Ht1 Hes) as [A B].
    unfold fire_all in A, B. rewrite A, B, Hp1. split; [reflexivity|].
    unfold intervals. destruct e; cbn; lia.
Qed.

(** Once the timer is cleared, only [startPolling] starts a poll. *)
Lemma idle_stays_idle es : forall y,
  Forall task_keeps_timer (running y) ->
  pollingTimer (platform y) = None ->
  forallb (fun e => negb (is_start e)) es = true ->
  pollingTimer (platform (fire_all es y)) = None
  /\ polls (fire_all es y) = polls y.
Proof.
  induction es as [|e es IH]; intros y Hall Ht Hes; [auto|].
  cbn [forallb] in Hes. apply andb_true_iff in Hes as [He Hes].
  cbn [fire_all fold_left].
  assert (Hstep : pollingTimer (platform (fire e y)) = None /\ polls (fire e y) = polls y).
  { destruct e as [| | |i x|d]; [discriminate He| | | |].
    - unfold fire. rewrite Ht. auto.
    - destruct (fire_shutdown y) as (A & B & _). auto.
    - destruct (fire_arrive i x y Hall) as (A & B & _). rewrite A, B. auto.
    - auto. }
  destruct Hstep as [Ht1 Hp1].
  destruct (IH (fire e y) (fire_keeps e y Hall) Ht1 Hes) as [A B].
  unfold fire_all in A, B. rewrite A, B, Hp1. auto.
Qed.

End Timer.

(** X11. While the interval timer is armed, every interval starts a
    poll and leaves the timer armed with the same period, whatever the
    polls run into: n intervals give n polls. *)
Theorem every_interval_polls_while_armed :
  forall (R : Runtime) (y : LegrandCloudPlatform.system) (period : Z) (n : nat),
    LegrandCloudPlatform.pollingTimer (LegrandCloudPlatform.platform y) = Some period ->
    let y' := LegrandCloudPlatform.fire_all (repeat LegrandCloudPlatform.IntervalElapsed n) y in
    LegrandCloudPlatform.polls y' = (LegrandCloudPlatform.polls y + n)%nat
    /\ LegrandCloudPlatform.pollingTimer (LegrandCloudPlatform.platform y') = Some period.
Proof.
  intros R y period n Ht. apply intervals_poll, Ht.
Qed.

(** The theorem after the start of the platform whose credentials are
    refused: five more intervals, five more polls. *)
Lemma every_interval_polls_while_armed_witness :
  let y := @LegrandCloudPlatform.fire Reference.runtime LegrandCloudPlatform.Started
             (LegrandCloudPlatform.System Fixtures.refusedPlatform Fixtures.refusingWorld 0 []) in
  LegrandCloudPlatform.polls
    (@LegrandCloudPlatform.fire_all Reference.runtime
       (repeat LegrandCloudPlatform.IntervalElapsed 5) y)
  = (LegrandCloudPlatform.polls y + 5)%nat.
Proof.
  intros y.
  apply (every_interval_polls_while_armed Reference.runtime y 30000 5).
  vm_compute. reflexivity.
Defined.

(** X24. An armed timer stays armed, with the same period, through
    everything that happens to the platform except a shutdown: replies
    arriving for polls in flight, whatever they are, time passing, the
    timer firing, [startPolling] being called again. Each firing of the
    timer starts one poll and nothing else does: the polls started are as
    many as the firings. This holds of every state the platform reaches
    from one where no poll is in flight. *)
Theorem armed_timer_outlives_its_polls :
  forall (R : Runtime) (s : LegrandCloudPlatform.state) (w : world) (n : nat)
         (before es : list LegrandCloudPlatform.event) (period : Z),
    let y := LegrandCloudPlatform.fire_all before (LegrandCloudPlatform.System s w n []) in
    let y' := LegrandCloudPlatform.fire_all es y in
    forallb (fun e => negb (LegrandCloudPlatform.is_shutdown e)) es = true ->
    LegrandCloudPlatform.pollingTimer (LegrandCloudPlatform.platform y) = Some period ->
    LegrandCloudPlatform.pollingTimer (LegrandCloudPlatform.platform y') = Some period
    /\ LegrandCloudPlatform.polls y'
       = (LegrandCloudPlatform.polls y + LegrandCloudPlatform.intervals es)%nat.
Proof.
  intros R s w n before es period y y' Hes Ht.
  apply armed_stays_armed; [|exact Ht|exact Hes].
  apply fire_all_keeps. constructor.
Qed.

(** The theorem on the platform whose credentials are refused, started
    and then going through replies, two firings of the timer and a second
    call of [startPolling]: three polls in all, the timer at 30 seconds. *)
Lemma armed_timer_outlives_its_polls_witness :
  let y := @LegrandCloudPlatform.fire_all Reference.runtime [LegrandCloudPlatform.Started]
             (LegrandCloudPlatform.System Fixtures.refusedPlatform Fixtures.refusingWorld 0 []) in
  let y' := @LegrandCloudPlatform.fire_all Reference.runtime
              [ LegrandCloudPlatform.Arrive 0 Fixtures.loginPage;
                LegrandCloudPlatform.IntervalElapsed;
                LegrandCloudPlatform.Arrive 0 Fixtures.unauthorized;
                LegrandCloudPlatform.Started;
                LegrandCloudPlatform.Elapse 30000;
                LegrandCloudPlatform.IntervalElapsed ] y in
  LegrandCloudPlatform.pollingTimer (LegrandCloudPlatform.platform y') = Some 30000
  /\ LegrandCloudPlatform.polls y' = 3%nat.
Proof.
  intros y y'.
  exact (armed_timer_outlives_its_polls Reference.runtime Fixtures.refusedPlatform
           Fixtures.refusingWorld 0 [LegrandCloudPlatform.Started]
           [ LegrandCloudPlatform.Arrive 0 Fixtures.loginPage;
             LegrandCloudPlatform.IntervalElapsed;
             LegrandCloudPlatform.Arrive 0 Fixtures.unauthorized;
             LegrandCloudPlatform.Started;
             LegrandCloudPlatform.Elapse 30000;
             LegrandCloudPlatform.IntervalElapsed ] 30000 eq_refl eq_refl).
Defined.

(** X12. The shutdown handler clears the timer and does nothing else: it
    starts no poll, sends nothing, and leaves the cloud client, the
    accessories and the polls in flight as they are. A poll in flight is
    not cancelled: it goes on when the reply it waits for arrives. After
    the shutdown, whatever replies arrive and however many intervals and
    how much time pass, no poll is started and the timer stays cleared,
    as long as [startPolling] is not called again. This holds of every
    state the platform reaches from one where no poll is in flight. *)
Theorem no_poll_after_shutdown :
  forall (R : Runtime) (s : LegrandCloudPlatform.state) (w : world) (n : nat)
         (before after : list LegrandCloudPlatform.event),
    forallb (fun e => negb (LegrandCloudPlatform.is_start e)) after = true ->
    let y := LegrandCloudPlatform.fire_all before (LegrandCloudPlatform.System s w n []) in
    let y1 := LegrandCloudPlatform.fire LegrandCloudPlatform.Shutdown y in
    let y' := LegrandCloudPlatform.fire_all after y1 in
    LegrandCloudPlatform.pollingTimer (LegrandCloudPlatform.platform y1) = None
    /\ LegrandCloudPlatform.polls y1 = LegrandCloudPlatform.polls y
    /\ LegrandCloudPlatform.running y1 = LegrandCloudPlatform.running y
    /\ sent (LegrandCloudPlatform.outside y1) = sent (LegrandCloudPlatform.outside y)
    /\ LegrandCloudPlatform.cloudApi (LegrandCloudPlatform.platform y1)
       = LegrandCloudPlatform.cloudApi (LegrandCloudPlatform.platform y)
    /\ LegrandCloudPlatform.accessoryHandlers (LegrandCloudPlatform.platform y1)
       = LegrandCloudPlatform.accessoryHandlers (LegrandCloudPlatform.platform y)
    /\ LegrandCloudPlatform.pollingTimer (LegrandCloudPlatform.platform y') = None
    /\ LegrandCloudPlatform.polls y' = LegrandCloudPlatform.polls y.
Proof.
  intros R s w n before after Hafter y y1 y'.
  destruct (fire_shutdown y) as (A & B & C & D & E & F). fold y1 in A, B, C, D, E, F.
  assert (Hall : Forall LegrandCloudPlatform.task_keeps_timer (LegrandCloudPlatform.running y)).
  { apply fire_all_keeps. constructor. }
  assert (Hall1 : Forall LegrandCloudPlatform.task_keeps_timer (LegrandCloudPlatform.running y1)).
  { rewrite C. exact Hall. }
  destruct (idle_stays_idle after y1 Hall1 A Hafter) as [G K]. fold y' in G, K.
  repeat split; assumption.
Qed.

(** The theorem on the platform whose credentials are refused: it is
    started, shut down while its first poll waits for the login page, and
    then the page arrives and three intervals pass. *)
Lemma no_poll_after_shutdown_witness :
  let y := @LegrandCloudPlatform.fire_all Reference.runtime [LegrandCloudPlatform.Started]
             (LegrandCloudPlatform.System Fixtures.refusedPlatform Fixtures.refusingWorld 0 []) in
  let y' := @LegrandCloudPlatform.fire_all Reference.runtime
              [ LegrandCloudPlatform.Arrive 0 Fixtures.loginPage;
                LegrandCloudPlatform.IntervalElapsed; LegrandCloudPlatform.IntervalElapsed;
                LegrandCloudPlatform.Elapse 30000; LegrandCloudPlatform.IntervalElapsed ]
              (@LegrandCloudPlatform.fire Reference.runtime LegrandCloudPlatform.Shutdown y) in
  LegrandCloudPlatform.pollingTimer (LegrandCloudPlatform.platform y') = None
  /\ LegrandCloudPlatform.polls y' = LegrandCloudPlatform.polls y.
Proof.
  intros y y'.
  exact (proj2 (proj2 (proj2 (proj2 (proj2 (proj2
           (no_poll_after_shutdown Reference.runtime Fixtures.refusedPlatform
              Fixtures.refusingWorld 0 [LegrandCloudPlatform.Started]
              [ LegrandCloudPlatform.Arrive 0 Fixtures.loginPage;
                LegrandCloudPlatform.IntervalElapsed; LegrandCloudPlatform.IntervalElapsed;
                LegrandCloudPlatform.Elapse 30000; LegrandCloudPlatform.IntervalElapsed ]
              eq_refl))))))).
Defined.

(** In that run the poll that was in flight at the shutdown goes on: the
    login page that arrives after it makes the poll send the credentials. *)
Example poll_in_flight_outlives_shutdown :
  let y := @LegrandCloudPlatform.fire_all Reference.runtime
             [LegrandCloudPlatform.Started; LegrandCloudPlatform.Shutdown]
             (LegrandCloudPlatform.System Fixtures.refusedPlatform Fixtures.refusingWorld 0 []) in
  let y' := @LegrandCloudPlatform.fire Reference.runtime
              (LegrandCloudPlatform.Arrive 0 Fixtures.loginPage) y in
  length (sent (LegrandCloudPlatform.outside y)) = 1%nat
  /\ length (sent (LegrandCloudPlatform.outside y')) = 2%nat
  /\ LegrandCloudPlatform.pollingTimer (LegrandCloudPlatform.platform y') = None.
Proof. vm_compute. repeat split; reflexivity. Qed.

(** X13. [startPolling] on an armed timer does nothing but log: no poll
    is started, nothing is sent, the platform and the polls in flight are
    untouched. On a timer that is not armed it logs, starts one poll
    without waiting for it, and arms the timer at once, whatever that
    poll runs into, with the period [setInterval] gives the configured
    number of seconds, 30 when none is configured, times 1000: that
    number of milliseconds when it lies between 1 and 2^31 - 1, and 1
    millisecond otherwise. *)
Theorem startPolling_arms_once :
  forall (R : Runtime) (y : LegrandCloudPlatform.system),
    let y' := LegrandCloudPlatform.fire LegrandCloudPlatform.Started y in
    let cfg := LegrandCloudPlatform.config (LegrandCloudPlatform.platform y) in
    let seconds := if (LegrandCloudPlatform.pollingInterval cfg =? 0)%Z then 30
                   else LegrandCloudPlatform.pollingInterval cfg in
    match LegrandCloudPlatform.pollingTimer (LegrandCloudPlatform.platform y) with
    | Some period =>
        LegrandCloudPlatform.polls y' = LegrandCloudPlatform.polls y
        /\ LegrandCloudPlatform.platform y' = LegrandCloudPlatform.platform y
        /\ LegrandCloudPlatform.running y' = LegrandCloudPlatform.running y
        /\ sent (LegrandCloudPlatform.outside y') = sent (LegrandCloudPlatform.outside y)
        /\ logged (LegrandCloudPlatform.outside y')
           = (logged (LegrandCloudPlatform.outside y)
              ++ [(Debug, "Polling already running")])%list
    | None =>
        LegrandCloudPlatform.polls y' = S (LegrandCloudPlatform.polls y)
        /\ (exists poll,
              LegrandCloudPlatform.running y'
              = (LegrandCloudPlatform.running y ++ [poll])%list)
        /\ LegrandCloudPlatform.pollingTimer (LegrandCloudPlatform.platform y')
           = Some (if (1 <=? seconds * 1000)%Z && (seconds * 1000 <=? 2147483647)%Z
                   then seconds * 1000 else 1)
        /\ (LegrandCloudPlatform.pollingInterval cfg = 0 ->
            LegrandCloudPlatform.pollingTimer (LegrandCloudPlatform.platform y') = Some 30000)
    end.
Proof.
  intros R y y' cfg seconds. unfold y', LegrandCloudPlatform.fire,
    LegrandCloudPlatform.startPolling.
  destruct (LegrandCloudPlatform.pollingTimer (LegrandCloudPlatform.platform y)) as [t|] eqn:Ht.
  - cbn. auto.
  - fold cfg. fold seconds.
    match goal with |- context [LegrandCloudPlatform.launch ?y0] =>
      destruct (launch_spec y0) as (A & B & tk & C & _) end.
    cbn [LegrandCloudPlatform.polls LegrandCloudPlatform.platform
         LegrandCloudPlatform.running LegrandCloudPlatform.pollingTimer
         LegrandCloudPlatform.set_timer] in *.
    split; [exact A|]. split; [exists tk; exact C|]. split; [reflexivity|].
    intros H0. unfold seconds. rewrite H0. reflexivity.
Qed.

(** A configured interval of 2147484 seconds is more milliseconds than a
    timer takes: the platform then polls every millisecond. *)
Example startPolling_out_of_range :
  LegrandCloudPlatform.setInterval (2147484 * 1000) = 1
  /\ LegrandCloudPlatform.setInterval (2147483 * 1000) = 2147483000
  /\ LegrandCloudPlatform.setInterval (-5 * 1000) = 1.
Proof. repeat split; reflexivity. Qed.


(* ===================================================================== *)
(** * [LegrandCloudAccessory]                                             *)
(* ===================================================================== *)

(** X14. [updateState] makes the accessory reflect the polled state: its
    power is the polled one and, for a dimmer given a brightness, so is
    its brightness; a switch never changes its brightness, and the name
    and kind never change. It reports a change only when there is one: a
    second update with the same values changes nothing and logs nothing. *)
Theorem updateState_reflects_and_settles :
  forall (isOn : bool) (brightness : option Z) (h : LegrandCloudPlatform.accessory),
    let h' := fst (LegrandCloudPlatform.updateState isOn brightness h) in
    LegrandCloudPlatform.acc_on h' = isOn
    /\ LegrandCloudPlatform.acc_brightness h'
       = match brightness with
         | Some b => if LegrandCloudPlatform.isDimmer h then b
                     else LegrandCloudPlatform.acc_brightness h
         | None => LegrandCloudPlatform.acc_brightness h
         end
    /\ LegrandCloudPlatform.deviceName h' = LegrandCloudPlatform.deviceName h
    /\ LegrandCloudPlatform.isDimmer h' = LegrandCloudPlatform.isDimmer h
    /\ LegrandCloudPlatform.updateState isOn brightness h' = (h', [])
    /\ (snd (LegrandCloudPlatform.updateState isOn brightness h) = [] -> h' = h).
Proof.
  intros isOn brightness [name dimmer on level] h'. unfold h'.
  unfold LegrandCloudPlatform.updateState.
  cbn [LegrandCloudPlatform.acc_on LegrandCloudPlatform.acc_brightness
       LegrandCloudPlatform.deviceName LegrandCloudPlatform.isDimmer].
  destruct brightness as [b|];
    [destruct (Z.eqb_spec level b) as [E|E]; [subst b|]|];
    destruct on, isOn, dimmer; cbn;
    rewrite ?Z.eqb_refl; cbn;
    try (destruct (Z.eqb_spec level b) as [E'|E']; [congruence|]); cbn;
    repeat split; try reflexivity; try discriminate;
    rewrite ?Z.eqb_refl;
    try (destruct (Z.eqb_spec level b) as [E'|E']; [congruence|]);
    cbn; try reflexivity; try discriminate.
Qed.

Lemma find_update_handler deviceId f hs :
  LegrandCloudPlatform.find_handler deviceId (LegrandCloudPlatform.update_handler deviceId f hs)
  = option_map f (LegrandCloudPlatform.find_handler deviceId hs).
Proof.
  induction hs as [|[k h] rest IH]; [reflexivity|].
  cbn [LegrandCloudPlatform.update_handler LegrandCloudPlatform.find_handler].
  destruct (k =? deviceId)%string eqn:E;
    cbn [LegrandCloudPlatform.find_handler]; rewrite E; [reflexivity|exact IH].
Qed.

(** The body shared by the two SET handlers: the call on the cloud API,
    the record on success, the error otherwise, logged and thrown again. *)
Lemma run_set_handler `{Runtime} (call : prog LegrandCloudApi.state bool)
    (f : LegrandCloudPlatform.accessory -> LegrandCloudPlatform.accessory)
    (deviceId failure : string) (done : prog LegrandCloudPlatform.state unit)
    (line : Js.exn -> string) s w :
  (forall s0 w0, exists w', run done s0 w0 = (Resolved tt, s0, w') /\ sent w' = sent w0) ->
  let r := run (try_catch
                  (bind (LegrandCloudPlatform.on_cloudApi call)
                     (fun success : bool =>
                        if success then
                          bind get (fun s1 =>
                          bind (put (LegrandCloudPlatform.set_handlers
                                       (LegrandCloudPlatform.update_handler deviceId f
                                          (LegrandCloudPlatform.accessoryHandlers s1)) s1))
                               (fun _ => done))
                        else Throw (Js.Error failure)))
                  (fun error => bind (log Err (line error)) (fun _ => Throw error))) s w in
  let api := run call (LegrandCloudPlatform.cloudApi s) w in
  sent (snd r) = sent (snd api)
  /\ match fst (fst api) with
     | Resolved true =>
         fst (fst r) = Resolved tt
         /\ LegrandCloudPlatform.accessoryHandlers (snd (fst r))
            = LegrandCloudPlatform.update_handler deviceId f
                (LegrandCloudPlatform.accessoryHandlers s)
     | Resolved false =>
         fst (fst r) = Rejected (Js.Error failure)
         /\ LegrandCloudPlatform.accessoryHandlers (snd (fst r))
            = LegrandCloudPlatform.accessoryHandlers s
     | Rejected e =>
         fst (fst r) = Rejected e
         /\ LegrandCloudPlatform.accessoryHandlers (snd (fst r))
            = LegrandCloudPlatform.accessoryHandlers s
     | NeverSettles e =>
         fst (fst r) = NeverSettles e
         /\ LegrandCloudPlatform.accessoryHandlers (snd (fst r))
            = LegrandCloudPlatform.accessoryHandlers s
     end.
Proof.
  intros Hdone r api. unfold r. rewrite run_try_catch, run_bind, run_on_cloudApi. fold api.
  destruct api as [[[[|]|e|e] a'] w1]; cbn [fst snd]; try (repeat split; reflexivity).
  rewrite run_get, run_put.
  match goal with |- context [run done ?s0 ?w0] => destruct (Hdone s0 w0) as (w' & -> & Hs) end.
  cbn [fst snd]. repeat split; try exact Hs.
Qed.

(** X15. The SET On handler and the GET On handler agree with the cloud:
    when the command was accepted (the cloud API answered true) the
    handler resolves and a later GET On gives the value set; in every
    other case the handler does not resolve and GET On gives what it
    gave before, and a cloud API answer of false is rejected with
    'Failed to set power state'. The handler sends nothing of its own,
    and a device that is not registered stays unregistered. *)
Theorem setOn_records_what_the_cloud_accepted :
  forall (R : Runtime) (deviceId name : string) (isOn : bool)
         (s : LegrandCloudPlatform.state) (w : world),
    let r := run (LegrandCloudAccessory.setOn deviceId name isOn) s w in
    let api := run (if isOn then LegrandCloudApi.turnOn deviceId
                    else LegrandCloudApi.turnOff deviceId)
                   (LegrandCloudPlatform.cloudApi s)
                   (record_log Debug ("Setting " +++ name +++ " to "
                                      +++ LegrandCloudPlatform.onoff_text isOn) w) in
    let before := LegrandCloudAccessory.getOn deviceId s in
    let after := LegrandCloudAccessory.getOn deviceId (snd (fst r)) in
    sent (snd r) = sent (snd api)
    /\ match fst (fst api) with
       | Resolved true =>
           fst (fst r) = Resolved tt
           /\ after = match before with Some _ => Some isOn | None => None end
       | Resolved false =>
           fst (fst r) = Rejected (Js.Error "Failed to set power state") /\ after = before
       | Rejected e => fst (fst r) = Rejected e /\ after = before
       | NeverSettles e => fst (fst r) = NeverSettles e /\ after = before
       end.
Proof.
  intros R deviceId name isOn s w r api before after.
  unfold after, before, LegrandCloudAccessory.getOn, r, LegrandCloudAccessory.setOn.
  rewrite run_log.
  match goal with
  | |- context [run (try_catch (bind (LegrandCloudPlatform.on_cloudApi ?c) _) ?h) ?s0 ?w0] =>
      pose proof (run_set_handler c (LegrandCloudAccessory.set_on isOn) deviceId
                    "Failed to set power state"
                    (log Info (name +++ " is now " +++ LegrandCloudPlatform.onoff_text isOn))
                    (fun error => "Error setting power: " +++ Js.to_string error) s0 w0) as P
  end.
  cbv zeta beta in P. fold api in P.
  destruct P as [P1 P2]; [intros s0 w0; eexists; split; reflexivity|].
  split; [exact P1|].
  destruct (fst (fst api)) as [[|]|e|e]; destruct P2 as [P2 P3]; rewrite P3;
    (split; [exact P2|]); try reflexivity.
  rewrite find_update_handler.
  destruct (LegrandCloudPlatform.find_handler deviceId (LegrandCloudPlatform.accessoryHandlers s));
    reflexivity.
Qed.

(** X16. The SET Brightness handler: when the cloud API answered true it
    resolves, and afterwards GET Brightness gives the value as it was
    given to the handler (not the value clamped for the cloud) and GET On
    gives whether that value is above 0; in every other case the handler
    does not resolve and both GET handlers give what they gave before,
    and a cloud API answer of false is rejected with 'Failed to set
    brightness'. *)
Theorem setBrightness_records_what_the_cloud_accepted :
  forall (R : Runtime) (deviceId name : string) (brightness : Z)
         (s : LegrandCloudPlatform.state) (w : world),
    let r := run (LegrandCloudAccessory.setBrightness deviceId name brightness) s w in
    let api := run (LegrandCloudApi.setBrightness deviceId brightness)
                   (LegrandCloudPlatform.cloudApi s)
                   (record_log Debug ("Setting " +++ name +++ " brightness to "
                                      +++ Js.dec brightness +++ "%") w) in
    let s' := snd (fst r) in
    let unchanged :=
      LegrandCloudAccessory.getBrightness deviceId s' = LegrandCloudAccessory.getBrightness deviceId s
      /\ LegrandCloudAccessory.getOn deviceId s' = LegrandCloudAccessory.getOn deviceId s in
    sent (snd r) = sent (snd api)
    /\ match fst (fst api) with
       | Resolved true =>
           fst (fst r) = Resolved tt
           /\ LegrandCloudAccessory.getBrightness deviceId s'
              = match LegrandCloudAccessory.getBrightness deviceId s with
                | Some _ => Some brightness
                | None => None
                end
           /\ LegrandCloudAccessory.getOn deviceId s'
              = match LegrandCloudAccessory.getOn deviceId s with
                | Some _ => Some (brightness >? 0)%Z
                | None => None
                end
       | Resolved false =>
           fst (fst r) = Rejected (Js.Error "Failed to set brightness") /\ unchanged
       | Rejected e => fst (fst r) = Rejected e /\ unchanged
       | NeverSettles e => fst (fst r) = NeverSettles e /\ unchanged
       end.
Proof.
  intros R deviceId name brightness s w r api s' unchanged.
  unfold unchanged, s', LegrandCloudAccessory.getOn, LegrandCloudAccessory.getBrightness,
    r, LegrandCloudAccessory.setBrightness.
  rewrite run_log.
  match goal with
  | |- context [run (try_catch ?p ?h) ?s0 ?w0] =>
      pose proof (run_set_handler (LegrandCloudApi.setBrightness deviceId brightness)
                    (LegrandCloudAccessory.set_level brightness) deviceId
                    "Failed to set brightness" (Ret tt)
                    (fun error => "Error setting brightness: " +++ Js.to_string error) s0 w0) as P
  end.
  cbv zeta beta in P. fold api in P.
  destruct P as [P1 P2]; [intros s0 w0; eexists; split; reflexivity|].
  split; [exact P1|].
  destruct (fst (fst api)) as [[|]|e|e]; destruct P2 as [P2 P3];
    (split; [exact P2|]);
    match goal with
    | |- context [LegrandCloudPlatform.accessoryHandlers (snd (fst ?x))] =>
        change (LegrandCloudPlatform.accessoryHandlers (snd (fst x))) with
          (LegrandCloudPlatform.accessoryHandlers (snd (fst
             (run (try_catch
                     (bind (LegrandCloudPlatform.on_cloudApi
                              (LegrandCloudApi.setBrightness deviceId brightness))
                        (fun success : bool =>
                           if success then
                             bind get (fun s1 =>
                             bind (put (LegrandCloudPlatform.set_handlers
                                          (LegrandCloudPlatform.update_handler deviceId
                                             (LegrandCloudAccessory.set_level brightness)
                                             (LegrandCloudPlatform.accessoryHandlers s1)) s1))
                                  (fun _ => Ret tt))
                           else Throw (Js.Error "Failed to set brightness")))
                     (fun error => bind (log Err ("Error setting brightness: "
                                                  +++ Js.to_string error))
                                     (fun _ => Throw error)))
                  s (record_log Debug ("Setting " +++ name +++ " brightness to "
                                       +++ Js.dec brightness +++ "%") w)))))
    end;
    rewrite P3; try (split; reflexivity).
  rewrite find_update_handler.
  destruct (LegrandCloudPlatform.find_handler deviceId (LegrandCloudPlatform.accessoryHandlers s));
    split; reflexivity.
Qed.

(* ===================================================================== *)
(** * A client with nothing to authenticate with                          *)
(* ===================================================================== *)

Section Unauthenticated.

Import LegrandCloudApi.
Context `{Runtime}.

Lemma ensureAuthenticated_without {A} (f : unit -> prog state A) s w :
  auth s = None -> Js.truthy_opt (manualToken s) = false ->
  run (bind ensureAuthenticated f) s w = (Rejected noAuthentication, s, w).
Proof.
  intros Ha Hm. rewrite run_bind. unfold ensureAuthenticated.
  rewrite run_get, Hm, Ha. reflexivity.
Qed.

End Unauthenticated.

(** X17. A client built without both an email and a password, and given
    no token, cannot reach the cloud: every method that needs the cloud
    rejects with 'No authentication available. ...', sends no request
    and leaves the client as it was. The methods do not turn this error
    into [false], [null] or an empty list, as they do with a failed
    request. *)
Theorem no_credentials_no_request :
  forall (R : Runtime) (s : LegrandCloudApi.state) (w : world)
         (deviceId plantId : string) (st : LegrandCloudApi.power) (level : Z),
    LegrandCloudApi.auth s = None ->
    Js.truthy_opt (LegrandCloudApi.manualToken s) = false ->
    run (LegrandCloudApi.getStatus deviceId) s w = (Rejected noAuthentication, s, w)
    /\ run (LegrandCloudApi.setState deviceId st) s w = (Rejected noAuthentication, s, w)
    /\ run (LegrandCloudApi.setBrightness deviceId level) s w = (Rejected noAuthentication, s, w)
    /\ run LegrandCloudApi.getPlants s w = (Rejected noAuthentication, s, w)
    /\ run (LegrandCloudApi.getModules plantId) s w = (Rejected noAuthentication, s, w)
    /\ run LegrandCloudApi.discoverDevices s w = (Rejected noAuthentication, s, w)
    /\ sent (snd (run (LegrandCloudApi.turnOn deviceId) s w)) = sent w
    /\ sent (snd (run (LegrandCloudApi.turnOff deviceId) s w)) = sent w
    /\ fst (run (LegrandCloudApi.turnOn deviceId) s w) = (Rejected noAuthentication, s)
    /\ fst (run (LegrandCloudApi.turnOff deviceId) s w) = (Rejected noAuthentication, s).
Proof.
  intros R s w deviceId plantId st level Ha Hm.
  assert (E : forall A (f : unit -> prog LegrandCloudApi.state A) w0,
             run (bind LegrandCloudApi.ensureAuthenticated f) s w0
             = (Rejected noAuthentication, s, w0))
    by (intros; apply ensureAuthenticated_without; assumption).
  repeat split.
  - apply E.
  - apply E.
  - apply E.
  - apply E.
  - apply E.
  - unfold LegrandCloudApi.discoverDevices. rewrite run_bind.
    unfold LegrandCloudApi.getPlants. rewrite E. reflexivity.
  - unfold LegrandCloudApi.turnOn. rewrite run_log.
    unfold LegrandCloudApi.setState. rewrite E. reflexivity.
  - unfold LegrandCloudApi.turnOff. rewrite run_log.
    unfold LegrandCloudApi.setState. rewrite E. reflexivity.
  - unfold LegrandCloudApi.turnOn. rewrite run_log.
    unfold LegrandCloudApi.setState. rewrite E. reflexivity.
  - unfold LegrandCloudApi.turnOff. rewrite run_log.
    unfold LegrandCloudApi.setState. rewrite E. reflexivity.
Qed.

Lemma no_credentials_no_request_witness :
  run (@LegrandCloudApi.getStatus Reference.runtime "dev1")
      (LegrandCloudApi.new (LegrandCloudApi.Config "user@example.com" "" false))
      Fixtures.refusingWorld
  = (Rejected noAuthentication,
     LegrandCloudApi.new (LegrandCloudApi.Config "user@example.com" "" false),
     Fixtures.refusingWorld).
Proof.
  exact (proj1 (no_credentials_no_request Reference.runtime
                  (LegrandCloudApi.new (LegrandCloudApi.Config "user@example.com" "" false))
                  Fixtures.refusingWorld "dev1" "plant1" LegrandCloudApi.PowerOn 50
                  eq_refl eq_refl)).
Defined.

(** X18. A poll on a platform whose client has nothing to authenticate
    with stops at its first device: it resolves, sends no request, leaves
    the platform as it was, and logs the authentication error exactly
    once, however many devices are registered. *)
Theorem poll_without_credentials_stops_at_the_first_device :
  forall (R : Runtime) (s : LegrandCloudPlatform.state) (w : world),
    LegrandCloudApi.auth (LegrandCloudPlatform.cloudApi s) = None ->
    Js.truthy_opt (LegrandCloudApi.manualToken (LegrandCloudPlatform.cloudApi s)) = false ->
    LegrandCloudPlatform.accessoryHandlers s <> [] ->
    let r := run LegrandCloudPlatform.pollDeviceStatus s w in
    fst r = (Resolved tt, s)
    /\ sent (snd r) = sent w
    /\ logged (snd r)
       = (logged w
          ++ (if LegrandCloudPlatform.debug (LegrandCloudPlatform.config s)
              then [(Debug, "Polling for device status (using getState command)...")]
              else [])
          ++ [(Err, "Polling failed: Authentication error - check email/password")])%list.
Proof.
  intros R s w Ha Hm Hd r. unfold r, LegrandCloudPlatform.pollDeviceStatus.
  rewrite run_get, run_when.
  destruct (LegrandCloudPlatform.accessoryHandlers s) as [|[deviceId h] rest] eqn:Hh;
    [congruence|].
  assert (P : forall w0,
             run (LegrandCloudPlatform.pollLoop
                    (map fst ((deviceId, h) :: rest))) s w0
             = (Resolved tt, s,
                record_log Err "Polling failed: Authentication error - check email/password" w0)).
  { intros w0. cbn [map fst LegrandCloudPlatform.pollLoop].
    rewrite run_bind, run_try_catch, run_bind.
    unfold LegrandCloudPlatform.pollOne. rewrite run_bind, run_on_cloudApi.
    unfold LegrandCloudApi.getStatus.
    rewrite (ensureAuthenticated_without _ _ w0 Ha Hm). cbn [fst snd].
    replace (LegrandCloudPlatform.set_cloudApi (LegrandCloudPlatform.cloudApi s) s) with s
      by (destruct s; reflexivity).
    reflexivity. }
  destruct (LegrandCloudPlatform.debug (LegrandCloudPlatform.config s)).
  - rewrite run_log, P. cbn [fst snd record_log sent logged].
    repeat split. rewrite <- app_assoc. reflexivity.
  - rewrite P. cbn [fst snd record_log sent logged]. repeat split.
Qed.

Lemma poll_without_credentials_stops_at_the_first_device_witness :
  fst (run (@LegrandCloudPlatform.pollDeviceStatus Reference.runtime)
         Fixtures.barePlatform Fixtures.refusingWorld)
  = (Resolved tt, Fixtures.barePlatform).
Proof.
  refine (proj1 (poll_without_credentials_stops_at_the_first_device Reference.runtime
                   Fixtures.barePlatform Fixtures.refusingWorld eq_refl eq_refl _)).
  discriminate.
Defined.

Section PollUpdates.

Import LegrandCloudPlatform.
Context `{Runtime}.

Lemma updateState_fields isOn brightness h :
  acc_on (fst (updateState isOn brightness h)) = isOn
  /\ acc_brightness (fst (updateState isOn brightness h))
     = match brightness with
       | Some b => if isDimmer h then b else acc_brightness h
       | None => acc_brightness h
       end.
Proof.
  destruct h as [name dimmer on level]. unfold updateState.
  cbn [acc_on acc_brightness deviceName isDimmer].
  destruct brightness as [b|]; destruct on, isOn, dimmer; cbn;
    try (destruct (Z.eqb_spec level b) as [E|E]); cbn; split; congruence.
Qed.

Lemma update_handler_at deviceId f g hs h :
  find_handler deviceId hs = Some h -> f h = g h ->
  update_handler deviceId f hs = update_handler deviceId g hs.
Proof.
  induction hs as [|[k h0] rest IH]; [discriminate|].
  cbn [find_handler update_handler]. destruct (k =? deviceId)%string.
  - intros [= ->] E. rewrite E. reflexivity.
  - intros F E. rewrite (IH F E). reflexivity.
Qed.

Lemma update_handler_absent deviceId f hs :
  find_handler deviceId hs = None -> update_handler deviceId f hs = hs.
Proof.
  induction hs as [|[k h0] rest IH]; [reflexivity|].
  cbn [find_handler update_handler]. destruct (k =? deviceId)%string; [discriminate|].
  intros F. rewrite (IH F). reflexivity.
Qed.

Lemma run_when_log (b : bool) l m (s : state) w :
  run (when b (log l m)) s w = (Resolved tt, s, if b then record_log l m w else w).
Proof. destruct b; reflexivity. Qed.

Lemma run_log_all_sent l ms (s : state) w :
  sent (snd (run (log_all l ms) s w)) = sent w.
Proof.
  revert w. induction ms as [|m ms IH]; intros w; [reflexivity|].
  cbn [log_all run]. rewrite IH. reflexivity.
Qed.

(** One iteration of the poll loop, by what the status call gave. *)
Lemma run_pollOne deviceId s w :
  let api := run (LegrandCloudApi.getStatus deviceId) (cloudApi s) w in
  let r := run (pollOne deviceId) s w in
  sent (snd r) = sent (snd api)
  /\ match fst (fst api) with
     | Resolved (Some ds) =>
         fst (fst r) = Resolved tt
         /\ accessoryHandlers (snd (fst r))
            = update_handler deviceId
                (fun h => fst (updateState (LegrandCloudApi.on ds)
                                 (LegrandCloudApi.brightness ds) h))
                (accessoryHandlers s)
     | Resolved None =>
         fst (fst r) = Resolved tt /\ accessoryHandlers (snd (fst r)) = accessoryHandlers s
     | Rejected e =>
         fst (fst r) = Rejected e /\ accessoryHandlers (snd (fst r)) = accessoryHandlers s
     | NeverSettles e =>
         fst (fst r) = NeverSettles e /\ accessoryHandlers (snd (fst r)) = accessoryHandlers s
     end.
Proof.
  intros api r. unfold r, pollOne. rewrite run_bind, run_on_cloudApi. fold api.
  destruct api as [[[[ds|]|e|e] a'] w1]; cbn [fst snd]; try (repeat split; reflexivity).
  - rewrite run_get, run_bind, run_when_log.
    set (s1 := set_cloudApi a' s).
    set (w2 := if debug (config s1) then _ else w1).
    assert (Hw : sent w2 = sent w1) by (unfold w2; destruct (debug (config s1)); reflexivity).
    change (accessoryHandlers s1) with (accessoryHandlers s).
    destruct (find_handler deviceId (accessoryHandlers s)) as [handler|] eqn:F.
    + destruct (updateState (LegrandCloudApi.on ds) (LegrandCloudApi.brightness ds) handler)
        as [h' lines] eqn:U.
      rewrite run_put.
      pose proof (run_log_all Debug lines
                    (set_handlers (update_handler deviceId (fun _ => h') (accessoryHandlers s)) s1)
                    w2) as L.
      pose proof (run_log_all_sent Debug lines
                    (set_handlers (update_handler deviceId (fun _ => h') (accessoryHandlers s)) s1)
                    w2) as L'.
      destruct (run (log_all Debug lines) _ w2) as [[o s3] w3].
      cbn [fst snd] in *. injection L as -> ->. cbn [accessoryHandlers set_handlers].
      repeat split; [congruence|].
      apply (update_handler_at _ _ _ _ handler F). rewrite U. reflexivity.
    + cbn [run fst snd]. repeat split; [exact Hw|].
      symmetry. apply update_handler_absent. exact F.
  - rewrite run_get, run_when_log. cbn [fst snd].
    destruct (debug (config (set_cloudApi a' s))); repeat split.
Qed.

End PollUpdates.

(** X19. What one iteration of the poll loop does to the accessory it
    polls. When the status call gave a state, the iteration resolves and
    GET On then gives the polled power; GET Brightness gives the polled
    brightness for a dimmer when the cloud reported one, and what it gave
    before otherwise. When the status call gave no state, or did not
    resolve, the accessories are as they were. The iteration sends
    nothing beyond the status call. *)
Theorem poll_brings_the_accessory_up_to_date :
  forall (R : Runtime) (deviceId : string) (s : LegrandCloudPlatform.state) (w : world),
    let api := run (LegrandCloudApi.getStatus deviceId) (LegrandCloudPlatform.cloudApi s) w in
    let r := run (LegrandCloudPlatform.pollOne deviceId) s w in
    let s' := snd (fst r) in
    sent (snd r) = sent (snd api)
    /\ match fst (fst api) with
       | Resolved (Some ds) =>
           fst (fst r) = Resolved tt
           /\ LegrandCloudAccessory.getOn deviceId s'
              = option_map (fun _ => LegrandCloudApi.on ds) (LegrandCloudAccessory.getOn deviceId s)
           /\ LegrandCloudAccessory.getBrightness deviceId s'
              = option_map
                  (fun h => match LegrandCloudApi.brightness ds with
                            | Some b => if LegrandCloudPlatform.isDimmer h then b
                                        else LegrandCloudPlatform.acc_brightness h
                            | None => LegrandCloudPlatform.acc_brightness h
                            end)
                  (LegrandCloudPlatform.find_handler deviceId
                     (LegrandCloudPlatform.accessoryHandlers s))
       | Resolved None =>
           fst (fst r) = Resolved tt
           /\ LegrandCloudPlatform.accessoryHandlers s' = LegrandCloudPlatform.accessoryHandlers s
       | Rejected e =>
           fst (fst r) = Rejected e
           /\ LegrandCloudPlatform.accessoryHandlers s' = LegrandCloudPlatform.accessoryHandlers s
       | NeverSettles e =>
           fst (fst r) = NeverSettles e
           /\ LegrandCloudPlatform.accessoryHandlers s' = LegrandCloudPlatform.accessoryHandlers s
       end.
Proof.
  intros R deviceId s w api r s'.
  destruct (run_pollOne deviceId s w) as [P1 P2]. fold api in P1, P2. fold r in P1, P2.
  split; [exact P1|].
  destruct (fst (fst api)) as [[ds|]|e|e]; try exact P2.
  destruct P2 as [P2 P3]. split; [exact P2|].
  unfold LegrandCloudAccessory.getOn, LegrandCloudAccessory.getBrightness, s'.
  rewrite P3, find_update_handler.
  destruct (LegrandCloudPlatform.find_handler deviceId (LegrandCloudPlatform.accessoryHandlers s))
    as [h|]; [|split; reflexivity].
  cbn [option_map].
  destruct (updateState_fields (LegrandCloudApi.on ds) (LegrandCloudApi.brightness ds) h)
    as [U1 U2].
  rewrite U1, U2. split; reflexivity.
Qed.

(* ===================================================================== *)
(** * Registering accessories with Homebridge                             *)
(* ===================================================================== *)

Section Registry.

Import Registration.
Context `{Host}.

Lemma splice_out_absent acc l :
  ~ In acc l -> splice_out acc l = l.
Proof.
  induction l as [|a rest IH]; [reflexivity|]. intros N. cbn [splice_out].
  destruct (accessory_eq_dec a acc) as [->|_]; [exfalso; apply N; left; reflexivity|].
  rewrite IH; [reflexivity|]. intros I. apply N. right. exact I.
Qed.

Lemma splice_out_app acc pre l :
  ~ In acc pre -> splice_out acc (pre ++ acc :: l) = (pre ++ l)%list.
Proof.
  induction pre as [|a rest IH]; intros N; cbn [splice_out app].
  - destruct (accessory_eq_dec acc acc); [reflexivity|congruence].
  - destruct (accessory_eq_dec a acc) as [->|_]; [exfalso; apply N; left; reflexivity|].
    rewrite IH; [reflexivity|]. intros I. apply N. right. exact I.
Qed.

(** Taking out, one by one, the entries a test picks leaves the entries
    it does not pick, in their order. *)
Lemma splice_all (P : PlatformAccessory -> bool) l : forall pre,
  (forall a, In a pre -> P a = false) ->
  fold_left (fun l acc => splice_out acc l) (List.filter P l) (pre ++ l)%list
  = (pre ++ List.filter (fun a => negb (P a)) l)%list.
Proof.
  induction l as [|a rest IH]; intros pre Hpre; [reflexivity|].
  cbn [List.filter]. destruct (P a) eqn:Pa; cbn [negb fold_left].
  - rewrite splice_out_app; [apply IH; exact Hpre|].
    intros I. apply Hpre in I. congruence.
  - replace (pre ++ a :: rest)%list with ((pre ++ [a]) ++ rest)%list
      by (rewrite <- app_assoc; reflexivity).
    rewrite IH.
    + rewrite <- app_assoc. reflexivity.
    + intros b I. apply in_app_or in I. destruct I as [I|[<-|[]]]; [apply Hpre; exact I|exact Pa].
Qed.

Lemma run_announceRemovals l (s : state) w :
  fst (run (announceRemovals l) s w) = (Resolved tt, s)
  /\ sent (snd (run (announceRemovals l) s w)) = sent w.
Proof.
  revert w. induction l as [|a rest IH]; intros w; [split; reflexivity|].
  cbn [announceRemovals]. rewrite run_log.
  destruct (IH (record_log Info ("Removing old accessory: " +++ displayName a) w)) as [I1 I2].
  split; [exact I1|rewrite I2; reflexivity].
Qed.

Lemma find_handler_map_set key v m :
  LegrandCloudPlatform.find_handler key (map_set key v m) = Some v.
Proof.
  induction m as [|[k x] rest IH]; cbn [map_set LegrandCloudPlatform.find_handler].
  - rewrite String.eqb_refl. reflexivity.
  - destruct (k =? key)%string eqn:E; cbn [LegrandCloudPlatform.find_handler]; rewrite E;
      [reflexivity|exact IH].
Qed.

Lemma map_set_twice {V} key (v : V) m :
  map_set key v (map_set key v m) = map_set key v m.
Proof.
  induction m as [|[k x] rest IH]; cbn [map_set].
  - rewrite String.eqb_refl. reflexivity.
  - destruct (k =? key)%string eqn:E; cbn [map_set]; rewrite E; [reflexivity|].
    rewrite IH. reflexivity.
Qed.

Lemma set_context_uuids uuid f l :
  (forall a, UUID (f a) = UUID a) ->
  map UUID (set_context uuid f l) = map UUID l.
Proof.
  intros Hf. induction l as [|a rest IH]; [reflexivity|]. cbn [set_context].
  destruct (UUID a =? uuid)%string; cbn [map]; [rewrite Hf|rewrite IH]; reflexivity.
Qed.

Lemma find_set_context uuid f l a :
  (forall a, UUID (f a) = UUID a) ->
  find (fun acc => (UUID acc =? uuid)%string) l = Some a ->
  find (fun acc => (UUID acc =? uuid)%string) (set_context uuid f l) = Some (f a).
Proof.
  intros Hf. induction l as [|b rest IH]; [discriminate|]. cbn [find set_context].
  destruct (UUID b =? uuid)%string eqn:E.
  - intros [= ->]. cbn [find]. rewrite Hf, E. reflexivity.
  - intros F. cbn [find]. rewrite E. exact (IH F).
Qed.

Lemma find_app_new uuid l a :
  find (fun acc => (UUID acc =? uuid)%string) l = None ->
  UUID a = uuid ->
  find (fun acc => (UUID acc =? uuid)%string) (l ++ [a]) = Some a.
Proof.
  intros F U. induction l as [|b rest IH]; cbn [find app].
  - rewrite U, String.eqb_refl. reflexivity.
  - cbn [find] in F. destruct (UUID b =? uuid)%string; [discriminate|]. exact (IH F).
Qed.

Lemma set_context_fixed uuid f l a :
  find (fun acc => (UUID acc =? uuid)%string) l = Some a -> f a = a ->
  set_context uuid f l = l.
Proof.
  induction l as [|b rest IH]; [discriminate|]. cbn [find set_context].
  destruct (UUID b =? uuid)%string.
  - intros [= ->] ->. reflexivity.
  - intros F E. rewrite (IH F E). reflexivity.
Qed.

Lemma find_none_not_in uuid l :
  find (fun acc => (UUID acc =? uuid)%string) l = None -> ~ In uuid (map UUID l).
Proof.
  induction l as [|b rest IH]; [intros _ []|]. cbn [find map].
  destruct (UUID b =? uuid)%string eqn:E; [discriminate|].
  intros F [I|I]; [|exact (IH F I)].
  apply String.eqb_neq in E. congruence.
Qed.

Lemma chosen_name_truthy device : Js.truthy (chosen_name device) = true.
Proof.
  unfold chosen_name. destruct (name device) as [n|]; [|reflexivity].
  destruct (Js.truthy (trim n)) eqn:E; [exact E|reflexivity].
Qed.

(** [addDevice], step by step. *)
Lemma run_addDevice device s w :
  let dName := chosen_name device in
  let dType := or_switch (type device) in
  let uuid := generate ("legrand-cloud-" +++ id device) in
  let handlers := map_set (id device) (new_handler dName dType) (accessoryHandlers s) in
  run (addDevice device) s w =
  match find (fun acc => (UUID acc =? uuid)%string) (accessories s) with
  | Some existing =>
      (Resolved tt,
       State (set_context uuid (with_context (id device) dName dType) (accessories s))
         handlers
         (homebridge s
          ++ [updatePlatformAccessories [with_context (id device) dName dType existing]]),
       record_log Info ("Restoring existing accessory: " +++ displayName existing) w)
  | None =>
      (Resolved tt,
       State (accessories s ++ [NewAccessory dName uuid (Some (id device)) (Some dName)
                                  (Some dType)])
         handlers
         (homebridge s
          ++ [registerPlatformAccessories
                [NewAccessory dName uuid (Some (id device)) (Some dName) (Some dType)]]),
       record_log Info ("Adding new accessory: " +++ dName) w)
  end.
Proof.
  intros dName dType uuid handlers. unfold addDevice.
  rewrite chosen_name_truthy. cbn [negb]. rewrite run_get.
  fold uuid.
  destruct (find (fun acc => (UUID acc =? uuid)%string) (accessories s)); reflexivity.
Qed.

End Registry.

(** X20. [cleanupOldAccessories] keeps exactly the cached accessories
    whose device id is among the valid ids, in their order, and removes
    the others, those without a device id included. Homebridge is told
    once, with exactly the accessories removed, and is not called when
    there is nothing to remove. The handlers are not touched and nothing
    is sent. *)
Theorem cleanup_keeps_exactly_the_valid :
  forall (H : Registration.Host) (validIds : list string) (s : Registration.state) (w : world),
    let r := run (Registration.cleanupOldAccessories validIds) s w in
    let removed := List.filter
                     (fun a => negb (Registration.has validIds (Registration.deviceId a)))
                     (Registration.accessories s) in
    fst (fst r) = Resolved tt
    /\ Registration.accessories (snd (fst r))
       = List.filter (fun a => Registration.has validIds (Registration.deviceId a))
           (Registration.accessories s)
    /\ Registration.accessoryHandlers (snd (fst r)) = Registration.accessoryHandlers s
    /\ Registration.homebridge (snd (fst r))
       = (Registration.homebridge s
          ++ match removed with
             | [] => []
             | _ :: _ => [Registration.unregisterPlatformAccessories removed]
             end)%list
    /\ sent (snd r) = sent w.
Proof.
  intros H validIds s w r removed. unfold r, Registration.cleanupOldAccessories.
  rewrite run_get, run_bind. fold removed.
  destruct (run_announceRemovals removed s w) as [A1 A2].
  destruct (run (Registration.announceRemovals removed) s w) as [[o s1] w1].
  cbn [fst snd] in A1, A2. injection A1 as -> ->.
  pose proof (splice_all
                (fun a => negb (Registration.has validIds (Registration.deviceId a)))
                (Registration.accessories s) [] (fun a (I : In a []) => match I with end)) as S.
  cbn [app] in S. fold removed in S.
  assert (K : List.filter (fun a => Registration.has validIds (Registration.deviceId a))
                (Registration.accessories s)
              = List.filter
                  (fun a => negb (negb (Registration.has validIds (Registration.deviceId a))))
                  (Registration.accessories s)).
  { apply List.filter_ext. intros a. rewrite Bool.negb_involutive. reflexivity. }
  destruct removed as [|a0 rest] eqn:E.
  - cbn [run fst snd]. cbn [fold_left] in S. rewrite K, <- S, app_nil_r. destruct s; auto.
  - cbn [run fst snd Registration.accessories Registration.accessoryHandlers
           Registration.homebridge].
    rewrite K, <- S. auto.
Qed.

(** X21. [addDevice] never refuses a device: the name it settles on is
    never empty, so the branch that logs 'Cannot add device' is not
    reachable, whatever the configuration holds. After it the device has
    a handler under its id, starting off and at brightness 100, a dimmer
    only when the type is 'dimmer'; the accessory with the UUID of the
    device carries the id and the name; and Homebridge got exactly one
    call: an update when that UUID was cached, which leaves the number of
    accessories as it was, and a registration otherwise, which adds one.
    Accessories with distinct UUIDs stay so. *)
Theorem addDevice_always_registers :
  forall (H : Registration.Host) (device : Registration.DeviceConfig)
         (s : Registration.state) (w : world),
    let r := run (Registration.addDevice device) s w in
    let s' := snd (fst r) in
    let uuid := Registration.generate ("legrand-cloud-" +++ Registration.id device) in
    let dName := Registration.chosen_name device in
    let cached := find (fun acc => (Registration.UUID acc =? uuid)%string)
                    (Registration.accessories s) in
    fst (fst r) = Resolved tt
    /\ dName <> EmptyString
    /\ sent (snd r) = sent w
    /\ LegrandCloudPlatform.find_handler (Registration.id device)
         (Registration.accessoryHandlers s')
       = Some (LegrandCloudPlatform.Accessory dName
                 (match Registration.type device with
                  | Some t => (t =? "dimmer")%string
                  | None => false
                  end) false 100)
    /\ (exists a,
          find (fun acc => (Registration.UUID acc =? uuid)%string) (Registration.accessories s')
          = Some a
          /\ Registration.deviceId a = Some (Registration.id device)
          /\ Registration.deviceName a = Some dName
          /\ Registration.homebridge s'
             = (Registration.homebridge s
                ++ [match cached with
                    | Some _ => Registration.updatePlatformAccessories [a]
                    | None => Registration.registerPlatformAccessories [a]
                    end])%list)
    /\ length (Registration.accessories s')
       = (match cached with
          | Some _ => length (Registration.accessories s)
          | None => S (length (Registration.accessories s))
          end)
    /\ (List.NoDup (map Registration.UUID (Registration.accessories s)) ->
        List.NoDup (map Registration.UUID (Registration.accessories s'))).
Proof.
  intros H device s w r s' uuid dName cached.
  pose proof (run_addDevice device s w) as E. cbv zeta in E.
  fold uuid in E. fold dName in E. fold cached in E.
  assert (T : (match Registration.type device with
               | Some t => (t =? "dimmer")%string
               | None => false
               end)
              = (Registration.or_switch (Registration.type device) =? "dimmer")%string).
  { unfold Registration.or_switch. destruct (Registration.type device) as [t|]; [|reflexivity].
    destruct t; reflexivity. }
  assert (N : dName <> EmptyString).
  { pose proof (chosen_name_truthy device) as C. fold dName in C.
    intros Z. rewrite Z in C. discriminate. }
  unfold s', r. rewrite E. clear E.
  destruct cached as [existing|] eqn:F; unfold cached in F;
    cbn [fst snd Registration.accessories Registration.accessoryHandlers
           Registration.homebridge sent record_log].
  - repeat split; try assumption.
    + rewrite find_handler_map_set, T. reflexivity.
    + eexists. split; [apply find_set_context; [reflexivity|exact F]|].
      repeat split.
    + rewrite <- (length_map Registration.UUID), set_context_uuids by reflexivity.
      apply length_map.
    + rewrite set_context_uuids by reflexivity. auto.
  - repeat split; try assumption.
    + rewrite find_handler_map_set, T. reflexivity.
    + eexists. split; [apply find_app_new; [exact F|reflexivity]|].
      repeat split.
    + rewrite length_app. cbn [length]. lia.
    + intros D. rewrite map_app. cbn [map Registration.UUID].
      apply List.NoDup_app; [exact D|repeat constructor; intros []|].
      intros u I [<-|[]]. exact (find_none_not_in _ _ F I).
Qed.

(** X22. Adding the same device a second time changes nothing but the
    log of calls: the accessories and the handlers are as the first call
    left them, and Homebridge gets an update, never a second
    registration. *)
Theorem addDevice_twice_registers_once :
  forall (H : Registration.Host) (device : Registration.DeviceConfig)
         (s : Registration.state) (w w' : world),
    let s1 := snd (fst (run (Registration.addDevice device) s w)) in
    let s2 := snd (fst (run (Registration.addDevice device) s1 w')) in
    Registration.accessories s2 = Registration.accessories s1
    /\ Registration.accessoryHandlers s2 = Registration.accessoryHandlers s1
    /\ exists a,
         Registration.homebridge s2
         = (Registration.homebridge s1 ++ [Registration.updatePlatformAccessories [a]])%list.
Proof.
  intros H device s w w' s1 s2.
  set (uuid := Registration.generate ("legrand-cloud-" +++ Registration.id device)).
  set (f := Registration.with_context (Registration.id device) (Registration.chosen_name device)
              (Registration.or_switch (Registration.type device))).
  assert (F1 : exists a,
             find (fun acc => (Registration.UUID acc =? uuid)%string) (Registration.accessories s1)
             = Some a /\ f a = a
             /\ Registration.accessoryHandlers s1
                = Registration.map_set (Registration.id device)
                    (Registration.new_handler (Registration.chosen_name device)
                       (Registration.or_switch (Registration.type device)))
                    (Registration.accessoryHandlers s)).
  { unfold s1. rewrite run_addDevice. fold uuid. fold f.
    destruct (find (fun acc => (Registration.UUID acc =? uuid)%string) (Registration.accessories s))
      as [existing|] eqn:F; cbn [fst snd Registration.accessories Registration.accessoryHandlers].
    - exists (f existing). split; [apply find_set_context; [reflexivity|exact F]|].
      split; reflexivity.
    - eexists. split; [apply find_app_new; [exact F|reflexivity]|]. split; reflexivity. }
  destruct F1 as (a & Fa & Ea & Hh).
  unfold s2. rewrite run_addDevice. fold uuid. fold f. rewrite Fa.
  cbn [fst snd Registration.accessories Registration.accessoryHandlers Registration.homebridge].
  split; [exact (set_context_fixed _ _ _ _ Fa Ea)|].
  split; [rewrite Hh; apply map_set_twice|].
  eexists. reflexivity.
Qed.

(* ===================================================================== *)
(** * What the login steps read of a response                             *)
(* ===================================================================== *)

(** X23. The first and the third step of a login never look at the HTTP
    status. [startAuthorization] reads the body and the cookies of the
    response, [confirmAndGetCode] its Location header and its body: two
    responses that agree on these give the same outcome, whatever their
    status codes, so that an error page carrying a code or a CSRF token is
    taken like a good one. *)
Theorem login_steps_ignore_the_status :
  forall (R : Runtime) (res res' : response),
    data res = data res' -> setCookie res = setCookie res' -> location res = location res' ->
    forall (challenge st : string) (cookies : list string) (tx csrf : string)
           (s : LegrandAuth.state) (w w' : world),
      (fst (send (LegrandAuth.authorizeRequest challenge st) w) = Resp res ->
       fst (send (LegrandAuth.authorizeRequest challenge st) w') = Resp res' ->
       fst (fst (run (LegrandAuth.startAuthorization challenge st) s w))
       = fst (fst (run (LegrandAuth.startAuthorization challenge st) s w')))
      /\ (fst (send (LegrandAuth.confirmRequest cookies tx csrf) w) = Resp res ->
          fst (send (LegrandAuth.confirmRequest cookies tx csrf) w') = Resp res' ->
          fst (fst (run (LegrandAuth.confirmAndGetCode cookies tx csrf) s w))
          = fst (fst (run (LegrandAuth.confirmAndGetCode cookies tx csrf) s w'))).
Proof.
  intros R [c d l b] [c' d' l' b'] Hb Hd Hl. cbn [data setCookie location] in Hb, Hd, Hl.
  subst b' d' l'. intros challenge st cookies tx csrf s w w'. split; intros E E'.
  - unfold LegrandAuth.startAuthorization. rewrite !run_https, E, E'.
    cbn [data setCookie location].
    repeat match goal with
           | |- context [match ?x with _ => _ end] => destruct x
           end; reflexivity.
  - unfold LegrandAuth.confirmAndGetCode, LegrandAuth.decode_code. rewrite !run_https, E, E'.
    cbn [data setCookie location].
    repeat match goal with
           | |- context [match ?x with _ => _ end] => destruct x
           end; reflexivity.
Qed.

Lemma login_steps_ignore_the_status_witness :
  fst (fst (run (@LegrandAuth.confirmAndGetCode Reference.runtime ["a=b"] "StateProperties=x" "csrf")
              (LegrandAuth.new "user@example.com" "secret")
              (Fixtures.world0 1000 (Fixtures.scripted 5 [Fixtures.redirected "abc"]))))
  = fst (fst (run (@LegrandAuth.confirmAndGetCode Reference.runtime ["a=b"] "StateProperties=x"
                     "csrf")
                (LegrandAuth.new "user@example.com" "secret")
                (Fixtures.world0 1000
                   (Fixtures.scripted 5
                      [Resp (Response 500 []
                               (Some ("msald6f3606b-c2fe-4376-a6dd-dd929cbde18d://auth/?state=S&code="
                                      +++ "abc" +++ "&x=1")) EmptyString)])))).
Proof.
  refine (proj2 (login_steps_ignore_the_status Reference.runtime
                   (Response 302 []
                      (Some ("msald6f3606b-c2fe-4376-a6dd-dd929cbde18d://auth/?state=S&code="
                             +++ "abc" +++ "&x=1")) EmptyString)
                   (Response 500 []
                      (Some ("msald6f3606b-c2fe-4376-a6dd-dd929cbde18d://auth/?state=S&code="
                             +++ "abc" +++ "&x=1")) EmptyString)
                   eq_refl eq_refl eq_refl "ch" "st" ["a=b"] "StateProperties=x" "csrf"
                   (LegrandAuth.new "user@example.com" "secret")
                   (Fixtures.world0 1000 (Fixtures.scripted 5 [Fixtures.redirected "abc"]))
                   (Fixtures.world0 1000
                      (Fixtures.scripted 5
                         [Resp (Response 500 []
                                  (Some ("msald6f3606b-c2fe-4376-a6dd-dd929cbde18d://auth/?state=S&code="
                                         +++ "abc" +++ "&x=1")) EmptyString)]))) _ _);
    vm_compute; reflexivity.
Defined.
